(** * rbxauth: the authentication session protocol, embedded and verified

    The development follows the layout of the Go package.  Definitions
    come first:

    - [GoLib]   : the few standard-library functions the client calls
                  ([strings.ToLower], [strconv.ParseInt], header maps);
    - [Models]  : the API models (request and response structs) and the
                  error values the package builds;
    - [Net]     : the network as the client sees it, a small state monad
                  over the remote service and the requests sent so far;
    - [Cookies] : the cookie functions of net/http and net/textproto, and
                  the cookie codec ([ReadCookies], [WriteCookies]);
    - [Auth]    : the current client ([Config.requestAPI], [LoginCred],
                  [Logout], [getUsername], [Step.Verify], [Step.Resend]);
    - [LegacyA], [LegacyB] : the two older copies of the client that are
                  still in the repository;
    - [Stub], [Props] : stub services and the vocabulary of the statements;
    - [CookieProps] : the vocabulary of the statements about the codec;
    - [CookiesOld] : the older copy of the codec;
    - [Prompt]  : the interactive login ([Stream.PromptCred], [Prompt],
                  [PromptID]);
    - [LegacyClient] : the first client of the package, which keeps the
                  session in a cookie jar.

    The facts follow: [AuthFacts] and [AuthExamples] for the current
    client, [LegacyFacts] for the older copies, [CookieFacts] for the
    codec; then [AuthExtra], [CookieExtra], [PromptFacts] and
    [LegacyExtra], each with its runs on stub services. *)

From Stdlib Require Import String Ascii List ZArith Bool Lia DecimalString.
Import ListNotations.

Local Open Scope string_scope.
Local Open Scope Z_scope.

Set Warnings "-register-all".

(* ================================================================== *)
(** * Standard-library functions used by the package *)
(* ================================================================== *)

Module GoLib.

(** [strings.ToLower] on ASCII input: the letters A-Z are mapped to a-z and
    every other byte is kept.  On ASCII-only strings Go takes exactly this
    byte-wise path.  A string with a byte from 128 on is lowered by Go rune
    by rune, by the Unicode tables (U+0130 becomes the letter i); here its
    bytes from 128 on are kept, which is not what Go does.  The statements
    about a type of credential that may be any string say that the type is
    made of ASCII bytes. *)
Definition lower_byte (a : ascii) : ascii :=
  let n := nat_of_ascii a in
  if (Nat.leb 65 n && Nat.leb n 90)%bool then ascii_of_nat (n + 32) else a.

Fixpoint ToLower (s : string) : string :=
  match s with
  | EmptyString => EmptyString
  | String a s' => String (lower_byte a) (ToLower s')
  end.

(** One decimal digit. *)
Definition digit_of (a : ascii) : option Z :=
  let n := Z.of_nat (nat_of_ascii a) in
  if (48 <=? n) && (n <=? 57) then Some (n - 48) else None.

Fixpoint parse_digits (s : string) (acc : Z) : option Z :=
  match s with
  | EmptyString => Some acc
  | String a s' =>
      match digit_of a with
      | Some d => parse_digits s' (acc * 10 + d)
      | None => None
      end
  end.

(** [strconv.ParseInt(s, 10, 64)]: an optional sign, then at least one
    decimal digit, and the value must fit a signed 64-bit integer.  [None]
    stands for the returned [*strconv.NumError] (syntax or range). *)
Definition ParseInt (s : string) : option Z :=
  match s with
  | EmptyString => None
  | String a rest =>
      let '(neg, digits) :=
        if Ascii.eqb a "+" then (false, rest)
        else if Ascii.eqb a "-" then (true, rest)
        else (false, s) in
      match digits with
      | EmptyString => None
      | _ =>
          match parse_digits digits 0 with
          | None => None
          | Some n =>
              let v := if neg then - n else n in
              if (- 2 ^ 63 <=? v) && (v <=? 2 ^ 63 - 1) then Some v else None
          end
      end
  end.

(** [http.Header], restricted to single-valued fields: an association list
    with [Set] replacing the value of a key and [Get] returning the empty
    string for a missing key.  Keys are compared as they are written: the
    client writes each key in one way only, which stands for its canonical
    form. *)
Definition Header := list (string * string).

Fixpoint Header_Del (k : string) (h : Header) : Header :=
  match h with
  | [] => []
  | (k', v) :: h' =>
      if String.eqb k k' then Header_Del k h' else (k', v) :: Header_Del k h'
  end.

Definition Header_Set (k v : string) (h : Header) : Header :=
  (k, v) :: Header_Del k h.

Fixpoint Header_Get (k : string) (h : Header) : string :=
  match h with
  | [] => ""
  | (k', v) :: h' => if String.eqb k k' then v else Header_Get k h'
  end.

End GoLib.

(* ================================================================== *)
(** * API models and error values *)
(* ================================================================== *)

Module Models.

(** [ErrorResponse]: the error response model of the API. *)
Record ErrorResponse := {
  Code : Z;
  Message : string;
  Field : string
}.

(** [errorsResponse]: the errors response model of the API. *)
Record errorsResponse := {
  Errors : list ErrorResponse
}.

(** [loginRequest]. *)
Record loginRequest := {
  CredType : string;
  CredValue : string;
  Password : string;
  CaptchaToken : string;
  CaptchaProvider : string
}.

(** [userResponseV2]. *)
Record userResponseV2 := {
  ID : Z;
  Name : string
}.

(** [twoStepVerificationSentResponse]. *)
Record twoStepVerificationSentResponse := {
  SentMediaType : string;
  SentTicket : string
}.

(** [loginResponse]; the two pointer fields are options, [None] for nil. *)
Record loginResponse := {
  User : option userResponseV2;
  TwoStepVerificationData : option twoStepVerificationSentResponse;
  loginErrors : errorsResponse
}.

(** [twoStepVerificationTicketRequest]. *)
Record twoStepVerificationTicketRequest := {
  Username : string;
  Ticket : string;
  ActionType : string
}.

(** [twoStepVerificationVerifyRequest]. *)
Record twoStepVerificationVerifyRequest := {
  ticketRequest : twoStepVerificationTicketRequest;
  VerifyCode : string;
  RememberDevice : bool
}.

(** The anonymous response struct of [getUsername]:
    [struct { Username string; errorsResponse }]. *)
Record usernameResponse := {
  RespUsername : string;
  usernameErrors : errorsResponse
}.

(** The anonymous response struct of [Step.Resend]:
    [struct { twoStepVerificationSentResponse; errorsResponse }]. *)
Record resendResponse := {
  resendSent : twoStepVerificationSentResponse;
  resendErrors : errorsResponse
}.

(** [http.Cookie], reduced to the name/value pair. *)
Record Cookie := {
  CookieName : string;
  CookieValue : string
}.

(** [Cred] holds credentials used to identify an account. *)
Record Cred := {
  Type_ : string;
  Ident : string
}.

(** The error values built by the package.  [Wrapped p e] is
    [fmt.Errorf(p + ": %w", e)]; [StatusErr] is [*statusError]. *)
Inductive error : Type :=
| TransportErr (reason : string)
| DecodeErr
| NumError (input : string)
| URLErr (url : string)
| APIErrors (e : errorsResponse)
| StatusErr (code : Z) (resp : option error)
| Wrapped (prefix : string) (e : error).

(** [errors.Unwrap], followed to the innermost error. *)
Fixpoint root_cause (e : error) : error :=
  match e with
  | Wrapped _ e' => root_cause e'
  | _ => e
  end.

(** What [errors.As] finds for [interface { StatusCode() int }]. *)
Fixpoint status_code_of (e : error) : option Z :=
  match e with
  | StatusErr code _ => Some code
  | Wrapped _ e' => status_code_of e'
  | _ => None
  end.

(** The body of a request: none, or the value that [json.Marshal] is
    given, for the request types whose fields are exported; [EmptyObject]
    is the body [{}], which is what [json.Marshal] writes for a struct
    without exported fields. *)
Inductive Payload : Type :=
| NoBody
| EmptyObject
| LoginBody (r : loginRequest)
| VerifyBody (r : twoStepVerificationVerifyRequest)
| TicketBody (r : twoStepVerificationTicketRequest).

(** [http.Request]. *)
Record Request := {
  Method : string;
  URL : string;
  ReqHeader : GoLib.Header;
  ReqCookies : list Cookie;
  Body : Payload
}.

(** The JSON object of a response body, key by key: [None] for a key that
    is absent from the object.  [json.Decoder.Decode] only assigns the
    fields whose keys are present, which matters when [requestAPI] decodes
    a second response into the same value. *)
Record JSON := {
  j_errors : option (list ErrorResponse);
  j_user : option (option userResponseV2);
  j_twoStepVerificationData : option (option twoStepVerificationSentResponse);
  j_Username : option string;
  j_mediaType : option string;
  j_ticket : option string
}.

(** [http.Response]: [RespBody] is [None] when the body is not a JSON
    value the decoder accepts; [RespCookies] is what [resp.Cookies()]
    parses from the Set-Cookie headers. *)
Record Response := {
  StatusCode : Z;
  RespHeader : GoLib.Header;
  RespCookies : list Cookie;
  RespBody : option JSON
}.

Definition emptyJSON : JSON :=
  {| j_errors := None; j_user := None; j_twoStepVerificationData := None;
     j_Username := None; j_mediaType := None; j_ticket := None |}.

Definition noErrors : errorsResponse := {| Errors := [] |}.

Definition or_keep {A} (o : option A) (old : A) : A :=
  match o with Some v => v | None => old end.

(** The response types passed to [requestAPI]: how a body decodes into a
    value of the type, and the method [errResp] promoted from the embedded
    [errorsResponse].  A key that is absent leaves its field as it is, and
    a key that is present gives the field the value of the body.  This is
    [json.Decoder.Decode] into a zero value, and into any value for the
    strings and for an empty list.  On a second decode into the same value
    (the token retry of [requestAPI]) encoding/json decodes the elements
    of a list and the struct behind a pointer in place, so that the fields
    which the second body omits inside them keep what the first body put
    there; the [JSON] of this development gives whole elements, and no
    statement below depends on the fields inside an element or behind a
    pointer after a second decode. *)
Class apiResponse (T : Type) := {
  Decode : JSON -> T -> T;
  errResp : T -> errorsResponse;
  (* the embedded [errorsResponse] decodes from the key "errors" *)
  Decode_errResp : forall j r,
    Errors (errResp (Decode j r)) = or_keep (j_errors j) (Errors (errResp r))
}.

#[export] Instance errorsResponse_api : apiResponse errorsResponse := {
  Decode j r := {| Errors := or_keep (j_errors j) (Errors r) |};
  errResp r := r;
  Decode_errResp j r := eq_refl
}.

#[export] Instance loginResponse_api : apiResponse loginResponse := {
  Decode j r :=
    {| User := or_keep (j_user j) (User r);
       TwoStepVerificationData :=
         or_keep (j_twoStepVerificationData j) (TwoStepVerificationData r);
       loginErrors := Decode j (loginErrors r) |};
  errResp r := loginErrors r;
  Decode_errResp j r := eq_refl
}.

#[export] Instance usernameResponse_api : apiResponse usernameResponse := {
  Decode j r :=
    {| RespUsername := or_keep (j_Username j) (RespUsername r);
       usernameErrors := Decode j (usernameErrors r) |};
  errResp r := usernameErrors r;
  Decode_errResp j r := eq_refl
}.

#[export] Instance resendResponse_api : apiResponse resendResponse := {
  Decode j r :=
    {| resendSent :=
         {| SentMediaType := or_keep (j_mediaType j) (SentMediaType (resendSent r));
            SentTicket := or_keep (j_ticket j) (SentTicket (resendSent r)) |};
       resendErrors := Decode j (resendErrors r) |};
  errResp r := resendErrors r;
  Decode_errResp j r := eq_refl
}.

End Models.

(* ================================================================== *)
(** * The network, as the client sees it *)
(* ================================================================== *)

Module Net.
Import Models.

(** The result of running a piece of the client: it returns, it panics
    (a nil pointer dereference), or the model ran out of fuel. *)
Inductive Res (A : Type) : Type :=
| Done (a : A)
| Panic
| OutOfFuel.
Arguments Done {A} a.
Arguments Panic {A}.
Arguments OutOfFuel {A}.

(** The world: the state of the remote service and the requests sent so
    far, oldest first. *)
Record World (Service : Type) := {
  service : Service;
  sent : list Request
}.
Arguments service {Service} w.
Arguments sent {Service} w.

(** A remote service behind an HTTP client: from its state and a request
    it produces its next state and either a transport error (of the error
    type [E] of the caller) or a response. *)
Definition Transport (Service E : Type) : Type :=
  Service -> Request -> Service * (E + Response).

Definition M (Service A : Type) : Type :=
  World Service -> Res A * World Service.

Definition ret {Service A} (a : A) : M Service A := fun w => (Done a, w).

Definition bind {Service A B} (m : M Service A) (k : A -> M Service B)
  : M Service B :=
  fun w =>
    match m w with
    | (Done a, w') => k a w'
    | (Panic, w') => (Panic, w')
    | (OutOfFuel, w') => (OutOfFuel, w')
    end.

Definition panic {Service A} : M Service A := fun w => (Panic, w).
Definition out_of_fuel {Service A} : M Service A := fun w => (OutOfFuel, w).

(** [client.Do(req)]: the request is sent (and recorded), the service
    moves on, and its answer is returned. *)
Definition client_Do {Service E} (Do : Transport Service E) (r : Request)
  : M Service (E + Response) :=
  fun w =>
    let '(s', res) := Do (service w) r in
    (Done res, {| service := s'; sent := sent w ++ [r] |}).

Module Notations.
Notation "x <- m ;; k" := (bind m (fun x => k))
  (at level 61, m at next level, right associativity).
Notation "' pat <- m ;; k" := (bind m (fun x => match x with pat => k end))
  (at level 61, pat pattern, m at next level, right associativity).
End Notations.

End Net.


(* ================================================================== *)
(** * Cookies *)
(* ================================================================== *)

(** [ReadCookies] and [WriteCookies] are a few lines around net/http and
    net/textproto.  The library functions they call are modelled here on
    byte strings, for cookies that have a name and a value and no
    attributes: [Cookie.String], [Header.Write], [Reader.ReadMIMEHeader]
    and [Response.Cookies]; so are the two functions that
    [Request.AddCookie] passes a cookie through. *)
Module Cookies.
Import Models.

Definition HT : ascii := "009"%char.
Definition LF : ascii := "010"%char.
Definition CR : ascii := "013"%char.
Definition SP : ascii := " "%char.
Definition DQUOTE : ascii := "034"%char.

Definition code (c : ascii) : nat := nat_of_ascii c.

Definition between (lo hi : nat) (c : ascii) : bool :=
  (Nat.leb lo (code c) && Nat.leb (code c) hi)%bool.

(** ** Byte strings *)

Fixpoint all_bytes (p : ascii -> bool) (s : string) : bool :=
  match s with
  | EmptyString => true
  | String c s' => (p c && all_bytes p s')%bool
  end.

Fixpoint any_byte (p : ascii -> bool) (s : string) : bool :=
  match s with
  | EmptyString => false
  | String c s' => (p c || any_byte p s')%bool
  end.

Fixpoint filter_bytes (p : ascii -> bool) (s : string) : string :=
  match s with
  | EmptyString => EmptyString
  | String c s' =>
      if p c then String c (filter_bytes p s') else filter_bytes p s'
  end.

Fixpoint map_bytes (f : ascii -> ascii) (s : string) : string :=
  match s with
  | EmptyString => EmptyString
  | String c s' => String (f c) (map_bytes f s')
  end.

Definition is_empty (s : string) : bool :=
  match s with EmptyString => true | _ => false end.

Fixpoint trim_left (p : ascii -> bool) (s : string) : string :=
  match s with
  | EmptyString => EmptyString
  | String c s' => if p c then trim_left p s' else s
  end.

Fixpoint trim_right (p : ascii -> bool) (s : string) : string :=
  match s with
  | EmptyString => EmptyString
  | String c s' =>
      let t := trim_right p s' in
      if (is_empty t && p c)%bool then EmptyString else String c t
  end.

(** [strings.Cut(s, sep)] for a separator of one byte. *)
Fixpoint cut_byte (sep : ascii) (s : string) : option (string * string) :=
  match s with
  | EmptyString => None
  | String c s' =>
      if Ascii.eqb c sep then Some (EmptyString, s')
      else match cut_byte sep s' with
           | Some (before, after) => Some (String c before, after)
           | None => None
           end
  end.

(** [strings.Split(s, sep)] for a separator of one byte. *)
Fixpoint split_byte (sep : ascii) (s : string) : list string :=
  match s with
  | EmptyString => [EmptyString]
  | String c s' =>
      if Ascii.eqb c sep then EmptyString :: split_byte sep s'
      else match split_byte sep s' with
           | part :: parts => String c part :: parts
           | [] => [String c EmptyString]
           end
  end.

Fixpoint last_byte (s : string) : option ascii :=
  match s with
  | EmptyString => None
  | String c EmptyString => Some c
  | String _ s' => last_byte s'
  end.

Fixpoint drop_last (s : string) : string :=
  match s with
  | EmptyString => EmptyString
  | String c EmptyString => EmptyString
  | String c s' => String c (drop_last s')
  end.

(** ** net/textproto *)

Definition isASCIISpace (c : ascii) : bool :=
  (Ascii.eqb c SP || Ascii.eqb c HT || Ascii.eqb c LF || Ascii.eqb c CR)%bool.

(** [textproto.TrimString]: ASCII white space off both ends. *)
Definition TrimString (s : string) : string :=
  trim_right isASCIISpace (trim_left isASCIISpace s).

Definition is_blank (c : ascii) : bool :=
  (Ascii.eqb c SP || Ascii.eqb c HT)%bool.

(** [trim] of the reader: spaces and tabs off both ends. *)
Definition trim (s : string) : string :=
  trim_right is_blank (trim_left is_blank s).

(** The bytes of a token (RFC 7230): [validHeaderFieldByte], and
    [httpguts.IsTokenRune] below 128. *)
Definition isTokenByte (c : ascii) : bool :=
  (between 48 57 c || between 65 90 c || between 97 122 c
   || any_byte (Ascii.eqb c) "!#$%&'*+-.^_`|~")%bool.

(** [validHeaderValueByte]: everything but the control bytes other than
    the tab. *)
Definition validHeaderValueByte (c : ascii) : bool :=
  (Ascii.eqb c HT || (Nat.leb 32 (code c) && negb (Nat.eqb (code c) 127)))%bool.

(** The canonical form of a key: the first letter and every letter after
    a dash in upper case, the others in lower case. *)
Fixpoint canonical_bytes (upper : bool) (s : string) : string :=
  match s with
  | EmptyString => EmptyString
  | String c s' =>
      let c' :=
        if (upper && between 97 122 c)%bool then ascii_of_nat (code c - 32)
        else if (negb upper && between 65 90 c)%bool
             then ascii_of_nat (code c + 32)
             else c in
      String c' (canonical_bytes (Ascii.eqb c' "-"%char) s')
  end.

(** [canonicalMIMEHeaderKey]: [None] for an empty key and for a key with
    a byte that is neither a token byte nor a space; a key with a space is
    kept as it is. *)
Definition canonicalMIMEHeaderKey (k : string) : option string :=
  if is_empty k then None
  else if negb (all_bytes (fun c => (isTokenByte c || Ascii.eqb c SP)%bool) k)
  then None
  else if any_byte (fun c => Ascii.eqb c SP) k then Some k
  else Some (canonical_bytes true k).

(** A MIME header: the fields in the order they were read. *)
Definition MIMEHeader := list (string * string).

(** [h[key]]: the values of the fields of that key, in order. *)
Definition values_of (key : string) (h : MIMEHeader) : list string :=
  map snd (filter (fun kv => String.eqb (fst kv) key) h).

Inductive read_error : Type :=
| EOF
| ProtocolError (line : string).

(** The lines of the input, without their line ends ("\r\n" or "\n"); a
    last line that the input does not end is kept as it is. *)
Definition drop_cr (s : string) : string :=
  match last_byte s with
  | Some c => if Ascii.eqb c CR then drop_last s else s
  | None => s
  end.

Fixpoint lines_from (cur : string) (s : string) : list string :=
  match s with
  | EmptyString => if is_empty cur then [] else [cur]
  | String c s' =>
      if Ascii.eqb c LF then drop_cr cur :: lines_from EmptyString s'
      else lines_from (cur ++ String c EmptyString) s'
  end.

Definition lines (s : string) : list string := lines_from EmptyString s.

(** One logical line [kv] enters the header: the key ends at the first
    colon and is made canonical, the bytes of the value are checked, and
    the value loses its leading spaces and tabs.  (The reader skips a
    field whose canonical key is empty; [canonicalMIMEHeaderKey] gives no
    such key.) *)
Definition add_field (kv : string) (m : MIMEHeader) : MIMEHeader + read_error :=
  match cut_byte ":"%char kv with
  | None => inr (ProtocolError kv)
  | Some (k, v) =>
      match canonicalMIMEHeaderKey k with
      | None => inr (ProtocolError kv)
      | Some key =>
          if negb (all_bytes validHeaderValueByte v)
          then inr (ProtocolError kv)
          else if is_empty key then inl m
          else inl (m ++ [(key, trim_left is_blank v)])%list
      end
  end.

Definition starts_blank (l : string) : bool :=
  match l with
  | String c _ => is_blank c
  | EmptyString => false
  end.

(** The loop of [ReadMIMEHeader] over the lines: [pending] is the logical
    line read so far, which the lines that start with a space or a tab
    continue.  An empty line ends the header; the end of the input ends it
    with [EOF]. *)
Fixpoint read_fields (pending : option string) (ls : list string)
    (m : MIMEHeader) : MIMEHeader * option read_error :=
  match ls with
  | [] =>
      match pending with
      | None => (m, Some EOF)
      | Some kv =>
          match add_field kv m with
          | inr e => (m, Some e)
          | inl m' => (m', Some EOF)
          end
      end
  | l :: rest =>
      match pending with
      | Some kv =>
          if starts_blank l
          then read_fields (Some (kv ++ String SP (trim l))%string) rest m
          else
            match add_field kv m with
            | inr e => (m, Some e)
            | inl m' =>
                if is_empty l then (m', None)
                else read_fields (Some (trim l)) rest m'
            end
      | None =>
          if is_empty l then (m, None)
          else read_fields (Some (trim l)) rest m
      end
  end.

(** [Reader.ReadMIMEHeader]: the first line must not start with a space
    or a tab. *)
Definition ReadMIMEHeader (input : string) : MIMEHeader * option read_error :=
  if starts_blank input
  then ([], Some (ProtocolError (hd EmptyString (lines input))))
  else read_fields None (lines input) [].

(** [Header.Write] for one field: new lines in the value become spaces,
    the value is trimmed, and the line ends with "\r\n". *)
Definition newlineToSpace (v : string) : string :=
  map_bytes (fun c => if (Ascii.eqb c LF || Ascii.eqb c CR)%bool then SP else c) v.

Definition write_field (key v : string) : string :=
  (key ++ ": " ++ TrimString (newlineToSpace v)
       ++ String CR (String LF EmptyString))%string.

(** ** net/http *)

Definition isCookieNameValid (raw : string) : bool :=
  (negb (is_empty raw) && all_bytes isTokenByte raw)%bool.

Definition validCookieValueByte (c : ascii) : bool :=
  (Nat.leb 32 (code c) && Nat.ltb (code c) 127
   && negb (Ascii.eqb c DQUOTE) && negb (Ascii.eqb c ";"%char)
   && negb (Ascii.eqb c "\"%char))%bool.

(** [sanitizeCookieValue]: the bytes that are not valid are dropped, and a
    value with a space or a comma is put in double quotes. *)
Definition sanitizeCookieValue (v : string) : string :=
  let v := filter_bytes validCookieValueByte v in
  if is_empty v then v
  else if any_byte (fun c => (Ascii.eqb c SP || Ascii.eqb c ","%char)%bool) v
       then String DQUOTE (v ++ String DQUOTE EmptyString)
       else v.

(** [sanitizeCookieName]: the line breaks of a name become dashes. *)
Definition sanitizeCookieName (n : string) : string :=
  map_bytes
    (fun c => if (Ascii.eqb c LF || Ascii.eqb c CR)%bool then "-"%char else c)
    n.

(** [Cookie.String]: the empty string for a cookie with an invalid name. *)
Definition Cookie_String (c : Cookie) : string :=
  if negb (isCookieNameValid (CookieName c)) then EmptyString
  else (CookieName c ++ "=" ++ sanitizeCookieValue (CookieValue c))%string.

(** [parseCookieValue(raw, true)]: the double quotes around the value are
    taken off, and every byte must be valid. *)
Definition parseCookieValue (raw : string) : option string :=
  let raw :=
    match raw with
    | String c (String _ _ as rest) =>
        if (Ascii.eqb c DQUOTE
            && match last_byte rest with
               | Some d => Ascii.eqb d DQUOTE
               | None => false
               end)%bool
        then drop_last rest else raw
    | _ => raw
    end in
  if all_bytes validCookieValueByte raw then Some raw else None.

(** One Set-Cookie line, as [readSetCookies] reads its name and value. *)
Definition parseSetCookie (line : string) : option Cookie :=
  match split_byte ";"%char (TrimString line) with
  | [] => None
  | part :: parts =>
      if (is_empty part && match parts with [] => true | _ => false end)%bool
      then None
      else
        match cut_byte "="%char (TrimString part) with
        | None => None
        | Some (name, value) =>
            let name := TrimString name in
            if negb (isCookieNameValid name) then None
            else
              match parseCookieValue value with
              | None => None
              | Some v => Some {| CookieName := name; CookieValue := v |}
              end
        end
  end.

Fixpoint readSetCookies_lines (ls : list string) : list Cookie :=
  match ls with
  | [] => []
  | line :: rest =>
      match parseSetCookie line with
      | Some c => c :: readSetCookies_lines rest
      | None => readSetCookies_lines rest
      end
  end.

(** [Response.Cookies()]. *)
Definition readSetCookies (h : MIMEHeader) : list Cookie :=
  readSetCookies_lines (values_of "Set-Cookie" h).

(** ** The codec *)

Inductive error : Type :=
| ReadError (e : read_error).

(** [ReadCookies]: the input is what the reader [r] yields. *)
Definition ReadCookies (r : string) : list Cookie * option error :=
  let '(h, err) := ReadMIMEHeader r in
  match err with
  | Some (ProtocolError l) => ([], Some (ReadError (ProtocolError l)))
  | _ => (readSetCookies h, None)
  end.

(** [WriteCookies]: the text written to [w], which is a buffer that takes
    every write. *)
Fixpoint write_fields (key : string) (vs : list string) : string :=
  match vs with
  | [] => EmptyString
  | v :: vs' => (write_field key v ++ write_fields key vs')%string
  end.

Definition WriteCookies (cookies : list Cookie) : string * option error :=
  (write_fields "Set-Cookie" (map Cookie_String cookies), None).

End Cookies.
(* ================================================================== *)
(** * The current client *)
(* ================================================================== *)

Module Auth.
Import GoLib Models Net Net.Notations.

Definition DefaultLoginEndpoint := "https://auth.roblox.com/v2/login".
Definition DefaultLogoutEndpoint := "https://auth.roblox.com/v2/logout".
Definition DefaultVerifyEndpoint :=
  "https://auth.roblox.com/v2/twostepverification/verify".
Definition DefaultResendEndpoint :=
  "https://auth.roblox.com/v2/twostepverification/resend".
Definition DefaultUserIDEndpoint := "https://api.roblox.com/users/%d".

Definition tokenHeader := "X-CSRF-TOKEN".

(** [ifStatus] wraps [err] in a [statusError] if [code] is not 2XX, and
    returns [err] otherwise.  A nil [error] is [None]. *)
Definition ifStatus (code : Z) (err : option error) : option error :=
  if (code <? 200) || (code >=? 300) then Some (StatusErr code err) else err.

(** [Config].  The [Client] field is not a field here: the service reached
    through the client is the world the operations run in. *)
Record Config := {
  Token : string;
  LoginEndpoint : string;
  LogoutEndpoint : string;
  VerifyEndpoint : string;
  ResendEndpoint : string;
  UserIDEndpoint : string
}.

Definition set_Token (c : Config) (token : string) : Config :=
  {| Token := token;
     LoginEndpoint := LoginEndpoint c;
     LogoutEndpoint := LogoutEndpoint c;
     VerifyEndpoint := VerifyEndpoint c;
     ResendEndpoint := ResendEndpoint c;
     UserIDEndpoint := UserIDEndpoint c |}.

(** [Step] holds the state of a multi-step verification action. *)
Record Step := {
  cfg : Config;
  req : twoStepVerificationVerifyRequest;
  MediaType : string
}.

Definition or_default (s d : string) : string :=
  if String.eqb s "" then d else s.

Definition set_header (k v : string) (r : Request) : Request :=
  {| Method := Method r; URL := URL r;
     ReqHeader := Header_Set k v (ReqHeader r);
     ReqCookies := ReqCookies r; Body := Body r |}.

(** The pair that [req.AddCookie] writes into the Cookie header for a
    cookie: the name through [sanitizeCookieName], the value through
    [sanitizeCookieValue]. *)
Definition header_cookie (c : Cookie) : Cookie :=
  {| CookieName := Cookies.sanitizeCookieName (CookieName c);
     CookieValue := Cookies.sanitizeCookieValue (CookieValue c) |}.

(** [req.AddCookie], once per cookie of the list; [ReqCookies] holds the
    pairs of the Cookie header, in their order.  (The cookies of the list
    are pointers that are not nil: [AddCookie] panics on a nil cookie.) *)
Definition add_cookies (cs : list Cookie) (r : Request) : Request :=
  {| Method := Method r; URL := URL r; ReqHeader := ReqHeader r;
     ReqCookies := ReqCookies r ++ map header_cookie cs; Body := Body r |}.

(** [req.Clone]: the clone has the same method, URL, header and body.
    (The clone shares the body reader of the original; what the transport
    makes of a body that was read once is part of the service [Do].) *)
Definition Clone (r : Request) : Request := r.

(** The request as [requestAPI] puts it on the wire: the stored token,
    when there is one, is set as its token header. *)
Definition with_token (c : Config) (r : Request) : Request :=
  if negb (String.eqb (Token c) "")
  then set_header tokenHeader (Token c) r else r.

(** The configuration after a response: a token header that is not empty
    replaces the stored token. *)
Definition learn_token (c : Config) (resp : Response) : Config :=
  let token := Header_Get tokenHeader (RespHeader resp) in
  if negb (String.eqb token "") then set_Token c token else c.

Section Client.

(** The remote service behind the HTTP client. *)
Variable Service : Type.
Variable Do : Transport Service error.

(** [url.Parse], as far as [http.NewRequest] depends on it: whether the
    URL is accepted. *)
Variable url_ok : string -> bool.

(** [fmt.Sprintf(endpoint, userID)]. *)
Variable Sprintf : string -> Z -> string.

Local Abbreviation M := (Net.M Service).
Local Abbreviation client_Do := (Net.client_Do Do).

(** [http.NewRequest]. *)
Definition NewRequest (method url : string) (body : Payload)
  : Request + error :=
  if url_ok url then
    inl {| Method := method; URL := url; ReqHeader := [];
           ReqCookies := []; Body := body |}
  else inr (URLErr url).

(** The deferred [err = fmt.Errorf(prefix + ": %w", err)] of the public
    operations. *)
Definition wrap_err (prefix : string) (err : option error) : option error :=
  match err with
  | Some e => Some (Wrapped prefix e)
  | None => None
  end.

(** [Config.requestAPI].  The receiver is a pointer, so the configuration
    is returned together with the results; so is the decoded [apiResp].
    [fuel] bounds the number of nested calls. *)
Fixpoint requestAPI {T : Type} `{apiResponse T}
    (fuel : nat) (c : Config) (req : Request) (apiResp : T)
  : M (Config * T * (option Response * option error)) :=
  match fuel with
  | O => out_of_fuel
  | S fuel' =>
      let req := with_token c req in
      r <- client_Do req ;;
      match r with
      | inl err => ret (c, apiResp, (None, Some err))
      | inr resp =>
          let c := learn_token c resp in
          match RespBody resp with
          | None =>
              ret (c, apiResp, (Some resp, ifStatus (StatusCode resp) (Some DecodeErr)))
          | Some j =>
              let apiResp := Decode j apiResp in
              let e := errResp apiResp in
              match Errors e with
              | first :: _ =>
                  if (StatusCode resp =? 403) && (Code first =? 0)
                     && String.eqb (Header_Get tokenHeader (ReqHeader req)) ""
                  then
                    (* Failed token validation, retry with new token. *)
                    requestAPI fuel' c (Clone req) apiResp
                  else
                    ret (c, apiResp, (None, ifStatus (StatusCode resp) (Some (APIErrors e))))
              | [] =>
                  ret (c, apiResp, (Some resp, ifStatus (StatusCode resp) None))
              end
          end
      end
  end.

(** [Config.getUsername].  The receiver is a value: the configuration the
    method updates is its own copy, which is dropped on return. *)
Definition getUsername (fuel : nat) (c : Config) (userID : Z)
  : M (string * option error) :=
  let endpoint := or_default (UserIDEndpoint c) DefaultUserIDEndpoint in
  match NewRequest "GET" (Sprintf endpoint userID) NoBody with
  | inr err => ret ("", wrap_err "user from ID" (Some err))
  | inl req =>
      let apiResp :=
        {| RespUsername := ""; usernameErrors := noErrors |} in
      '(_, apiResp, (_, err)) <- requestAPI fuel c req apiResp ;;
      match err with
      | Some e => ret ("", wrap_err "user from ID" (Some e))
      | None => ret (RespUsername apiResp, None)
      end
  end.

(** The request [LoginCred] builds for a credential. *)
Definition login_payload (cred : Cred) (password : string) : Payload :=
  LoginBody {| CredType := Type_ cred; CredValue := Ident cred;
               Password := password;
               CaptchaToken := ""; CaptchaProvider := "" |}.

(** [Config.LoginCred] from the point where the credential is resolved:
    build the request, send it, branch on the response. *)
Definition login_request (fuel : nat) (c : Config) (cred : Cred)
    (password : string)
  : M (list Cookie * option Step * option error) :=
  let endpoint := or_default (LoginEndpoint c) DefaultLoginEndpoint in
  match NewRequest "POST" endpoint (login_payload cred password) with
  | inr err => ret ([], None, Some err)
  | inl req =>
      let req := set_header "Content-Type" "application/json" req in
      let req := set_header "Accept" "application/json" req in
      let apiResp :=
        {| User := None; TwoStepVerificationData := None;
           loginErrors := noErrors |} in
      '(c, apiResp, (resp, err)) <- requestAPI fuel c req apiResp ;;
      match err, resp with
      | Some e, _ => ret ([], None, Some e)
      | None, None => panic
      | None, Some resp =>
          match TwoStepVerificationData apiResp with
          | Some data =>
              match User apiResp with
              | None => panic
              | Some user =>
                  let step :=
                    {| cfg := c;
                       MediaType := SentMediaType data;
                       req :=
                         {| ticketRequest :=
                              {| Username := Name user;
                                 Ticket := SentTicket data;
                                 ActionType := "Login" |};
                            VerifyCode := "";
                            RememberDevice := false |} |} in
                  ret (RespCookies resp, Some step, None)
              end
          | None => ret (RespCookies resp, None, None)
          end
      end
  end.

(** [Config.LoginCred].  The receiver is a value: token updates stay in
    the method's copy of the configuration (and in the [Step] built from
    it), and the result does not include a configuration. *)
Definition LoginCred (fuel : nat) (c : Config) (cred : Cred)
    (password : string)
  : M (list Cookie * option Step * option error) :=
  '(cookies, step, err) <-
    (if String.eqb (ToLower (Type_ cred)) "userid" then
       match ParseInt (Ident cred) with
       | None =>
           ret ([], None,
                Some (Wrapped "parse user ID" (NumError (Ident cred))))
       | Some userID =>
           '(name, err) <- getUsername fuel c userID ;;
           match err with
           | Some e => ret ([], None, Some e)
           | None =>
               login_request fuel c
                 {| Type_ := "Username"; Ident := name |} password
           end
       end
     else login_request fuel c cred password) ;;
  ret (cookies, step, wrap_err "login" err).

(** [Config.Login] wraps [LoginCred], using a username for the credentials. *)
Definition Login (fuel : nat) (c : Config) (username password : string)
  : M (list Cookie * option Step * option error) :=
  LoginCred fuel c {| Type_ := "Username"; Ident := username |} password.

(** [Config.LoginID]. *)
Definition LoginID (fuel : nat) (c : Config) (userID : Z) (password : string)
  : M (list Cookie * option Step * option error) :=
  '(username, err) <- getUsername fuel c userID ;;
  match err with
  | Some e => ret ([], None, Some e)
  | None =>
      LoginCred fuel c {| Type_ := "Username"; Ident := username |} password
  end.

(** [Config.Logout]. *)
Definition Logout (fuel : nat) (c : Config) (cookies : list Cookie)
  : M (option error) :=
  let endpoint := or_default (LogoutEndpoint c) DefaultLogoutEndpoint in
  match NewRequest "POST" endpoint NoBody with
  | inr err => ret (wrap_err "logout" (Some err))
  | inl req =>
      let req := set_header "Accept" "application/json" req in
      let req := add_cookies cookies req in
      '(_, _, (_, err)) <- requestAPI fuel c req noErrors ;;
      ret (wrap_err "logout" err)
  end.

Definition set_cfg (s : Step) (c : Config) : Step :=
  {| cfg := c; req := req s; MediaType := MediaType s |}.

(** [Step.Verify].  The receiver is a pointer, which is not nil here: the
    step after the call is returned with the results. *)
Definition Verify (fuel : nat) (s : Step) (code : string) (remember : bool)
  : M (Step * (list Cookie * option error)) :=
  let apiReq := req s in
  let apiReq :=
    {| ticketRequest := ticketRequest apiReq;
       VerifyCode := code;
       RememberDevice := RememberDevice apiReq |} in
  let apiReq :=
    {| ticketRequest := ticketRequest apiReq;
       VerifyCode := VerifyCode apiReq;
       RememberDevice := remember |} in
  let endpoint := or_default (VerifyEndpoint (cfg s)) DefaultVerifyEndpoint in
  match NewRequest "POST" endpoint (VerifyBody apiReq) with
  | inr err => ret (s, ([], wrap_err "verify" (Some err)))
  | inl r =>
      let r := set_header "Content-Type" "application/json" r in
      let r := set_header "Accept" "application/json" r in
      '(c, _, (resp, err)) <- requestAPI fuel (cfg s) r noErrors ;;
      let s := set_cfg s c in
      match err, resp with
      | Some e, _ => ret (s, ([], wrap_err "verify" (Some e)))
      | None, None => panic
      | None, Some resp => ret (s, (RespCookies resp, None))
      end
  end.

(** [Step.Resend], on a receiver that is not nil.  The function literal
    at its head is called at once, while [err] is still nil, so no error
    is wrapped. *)
Definition Resend (fuel : nat) (s : Step) : M (Step * option error) :=
  let endpoint := or_default (ResendEndpoint (cfg s)) DefaultResendEndpoint in
  match NewRequest "POST" endpoint (TicketBody (ticketRequest (req s))) with
  | inr err => ret (s, Some err)
  | inl r =>
      let r := set_header "Accept" "application/json" r in
      let apiResp :=
        {| resendSent := {| SentMediaType := ""; SentTicket := "" |};
           resendErrors := noErrors |} in
      '(c, apiResp, (_, err)) <- requestAPI fuel (cfg s) r apiResp ;;
      let s := set_cfg s c in
      match err with
      | Some e => ret (s, Some e)
      | None =>
          let s :=
            {| cfg := cfg s; req := req s;
               MediaType := SentMediaType (resendSent apiResp) |} in
          let s :=
            {| cfg := cfg s;
               req :=
                 {| ticketRequest :=
                      {| Username := Username (ticketRequest (req s));
                         Ticket := SentTicket (resendSent apiResp);
                         ActionType := ActionType (ticketRequest (req s)) |};
                    VerifyCode := VerifyCode (req s);
                    RememberDevice := RememberDevice (req s) |};
               MediaType := MediaType s |} in
          ret (s, None)
      end
  end.

End Client.

Arguments requestAPI {Service} Do {T _} fuel c req apiResp.
Arguments getUsername {Service} Do url_ok Sprintf fuel c userID.
Arguments login_request {Service} Do url_ok fuel c cred password.
Arguments LoginCred {Service} Do url_ok Sprintf fuel c cred password.
Arguments Login {Service} Do url_ok Sprintf fuel c username password.
Arguments LoginID {Service} Do url_ok Sprintf fuel c userID password.
Arguments Logout {Service} Do url_ok fuel c cookies.
Arguments Verify {Service} Do url_ok fuel s code remember.
Arguments Resend {Service} Do url_ok fuel s.

End Auth.

(* ================================================================== *)
(** * The older copies of the client *)
(* ================================================================== *)

(** The first older copy: [LoginCred] takes the credential type and value
    as two strings; there is no anti-forgery token and no retry. *)
Module LegacyA.
Import GoLib Models Net Net.Notations.

Definition DefaultHost := "roblox.com".
Definition authSubdomain := "auth".
Definition loginPath := "/v2/login".
Definition logoutPath := "/v2/logout".
Definition verifyPath := "/v2/twostepverification/verify".
Definition resendPath := "/v2/twostepverification/resend".

(** [buildURL(sub, host, path).String()]. *)
Definition buildURL (sub host path : string) : string :=
  let host := if String.eqb host "" then DefaultHost else host in
  "https://" ++ sub ++ "." ++ host ++ path.

(** [Error] represents an error returned from an API response. *)
Record Error := {
  Code : Z;
  Message : string
}.

(** [Errors] represents a list of errors returned from an API response. *)
Definition Errors := list Error.

(** The error values of this copy; [StatusError] is the status code. *)
Inductive error : Type :=
| TransportErr (reason : string)
| DecodeErr
| URLErr (url : string)
| NumError (input : string)
| ErrorsErr (errs : Errors)
| StatusError (code : Z).

Record errorResponse := {
  errors : Errors
}.

Record Config := {
  Host : string
}.

Record resendRequest := {
  username : string;
  ticket : string;
  actionType : string
}.

Record stepRequest := {
  resend : resendRequest;
  code : string;
  rememberDevice : bool
}.

Record Step := {
  cfg : Config;
  req : stepRequest;
  MediaType : string
}.

Record userInfo := {
  id : Z;
  name : string
}.

Record twoStepInfo := {
  mediaType : string;
  twoStepTicket : string
}.

Record loginResponse := {
  user : option userInfo;
  twoStepVerificationData : option twoStepInfo;
  loginErrors : errorResponse
}.

Record userResponse := {
  Username : string;
  userErrors : errorResponse
}.

(** [jd.Decode(&apiResp)] into the structs of this copy.  encoding/json
    assigns exported fields only, and [errors], [user] and
    [twoStepVerificationData] are unexported: whatever the body holds,
    they keep their zero values.  [Username] is exported and decoded. *)
Definition decode_errorResponse (j : JSON) : errorResponse :=
  {| errors := [] |}.

Definition decode_loginResponse (j : JSON) : loginResponse :=
  {| user := None; twoStepVerificationData := None;
     loginErrors := decode_errorResponse j |}.

Definition decode_userResponse (j : JSON) : userResponse :=
  {| Username := or_keep (j_Username j) "";
     userErrors := decode_errorResponse j |}.

(** The status test every operation of this copy makes before it returns
    a [StatusError]. *)
Definition status_rejected (code : Z) : bool :=
  (code <? 200) && (code >=? 300).

(** The login request of this copy. *)
Record loginRequest := {
  ctype : string;
  cvalue : string;
  password : string
}.

(** [json.Marshal] of a request struct of this copy.  encoding/json writes
    exported fields only, and [loginRequest], [stepRequest] and
    [resendRequest] have none: the body is [{}], whatever the struct
    holds. *)
Definition Marshal {A : Type} (request : A) : Payload := EmptyObject.

Definition login_payload (credType value passwd : string) : Payload :=
  Marshal {| ctype := credType; cvalue := value; password := passwd |}.

Section Client.

Variable Service : Type.
Variable Do : Transport Service error.
Variable url_ok : string -> bool.

Local Abbreviation M := (Net.M Service).
Local Abbreviation client_Do := (Net.client_Do Do).

Definition NewRequest (method url : string) (body : Payload)
  : Request + error :=
  if url_ok url then
    inl {| Method := method; URL := url; ReqHeader := [];
           ReqCookies := []; Body := body |}
  else inr (URLErr url).

Definition set_header (k v : string) (r : Request) : Request :=
  {| Method := Method r; URL := URL r;
     ReqHeader := Header_Set k v (ReqHeader r);
     ReqCookies := ReqCookies r; Body := Body r |}.

(** [Config.LoginCred]. *)
Definition LoginCred (cfg : Config) (credType value password : string)
  : M (list Cookie * option Step * option error) :=
  let host := Host cfg in
  match NewRequest "POST" (buildURL authSubdomain host loginPath)
          (login_payload credType value password) with
  | inr err => ret ([], None, Some err)
  | inl r =>
      let r := set_header "Content-Type" "application/json" r in
      let r := set_header "Accept" "application/json" r in
      res <- client_Do r ;;
      match res with
      | inl err => ret ([], None, Some err)
      | inr resp =>
          match RespBody resp with
          | None => ret ([], None, Some DecodeErr)
          | Some j =>
              let apiResp := decode_loginResponse j in
              if (0 <? Z.of_nat (length (errors (loginErrors apiResp)))) then
                ret ([], None, Some (ErrorsErr (errors (loginErrors apiResp))))
              else if status_rejected (StatusCode resp) then
                ret ([], None, Some (StatusError (StatusCode resp)))
              else
                match twoStepVerificationData apiResp with
                | Some data =>
                    match user apiResp with
                    | None => panic
                    | Some u =>
                        let step :=
                          {| cfg := {| Host := host |};
                             MediaType := mediaType data;
                             req :=
                               {| resend :=
                                    {| username := name u;
                                       ticket := twoStepTicket data;
                                       actionType := "Login" |};
                                  code := "";
                                  rememberDevice := false |} |} in
                        ret ([], Some step, None)
                    end
                | None => ret (RespCookies resp, None, None)
                end
          end
      end
  end.

(** [Config.Login]. *)
Definition Login (cfg : Config) (username password : string)
  : M (list Cookie * option Step * option error) :=
  LoginCred cfg "Username" username password.

(** [getUsername(host, userID)]; [FormatInt] is [strconv.FormatInt(_, 10)]. *)
Variable FormatInt : Z -> string.

Definition getUsername (host : string) (userID : Z)
  : M (string * option error) :=
  let url := buildURL "api" host ("/users" ++ "/" ++ FormatInt userID) in
  (* client.Get builds the request itself *)
  match NewRequest "GET" url NoBody with
  | inr err => ret ("", Some err)
  | inl r =>
      res <- client_Do r ;;
      match res with
      | inl err => ret ("", Some err)
      | inr resp =>
          match RespBody resp with
          | None => ret ("", Some DecodeErr)
          | Some j =>
              let apiResp := decode_userResponse j in
              if (0 <? Z.of_nat (length (errors (userErrors apiResp)))) then
                ret ("", Some (ErrorsErr (errors (userErrors apiResp))))
              else if status_rejected (StatusCode resp) then
                ret ("", Some (StatusError (StatusCode resp)))
              else ret (Username apiResp, None)
          end
      end
  end.

(** [Config.LoginID]. *)
Definition LoginID (cfg : Config) (userID : Z) (password : string)
  : M (list Cookie * option Step * option error) :=
  '(username, err) <- getUsername (Host cfg) userID ;;
  match err with
  | Some e => ret ([], None, Some e)
  | None => LoginCred cfg "Username" username password
  end.

(** The tail shared by [Logout] and [Step.Resend]: send, decode an
    [errorResponse], report its errors, test the status. *)
Definition send_for_errors (r : Request) : M (option Response * option error) :=
  res <- client_Do r ;;
  match res with
  | inl err => ret (None, Some err)
  | inr resp =>
      match RespBody resp with
      | None => ret (None, Some DecodeErr)
      | Some j =>
          let apiResp := decode_errorResponse j in
          if (0 <? Z.of_nat (length (errors apiResp))) then
            ret (None, Some (ErrorsErr (errors apiResp)))
          else if status_rejected (StatusCode resp) then
            ret (None, Some (StatusError (StatusCode resp)))
          else ret (Some resp, None)
      end
  end.

(** [Config.Logout]. *)
Definition Logout (cfg : Config) (cookies : list Cookie) : M (option error) :=
  match NewRequest "POST" (buildURL authSubdomain (Host cfg) logoutPath) NoBody with
  | inr err => ret (Some err)
  | inl r =>
      let r := set_header "Accept" "application/json" r in
      let r :=
        {| Method := Method r; URL := URL r; ReqHeader := ReqHeader r;
           ReqCookies := ReqCookies r ++ map Auth.header_cookie cookies;
           Body := Body r |} in
      '(_, err) <- send_for_errors r ;;
      ret err
  end.

(** [Step.Verify]. *)
Definition Verify (s : Step) (code_ : string) (remember : bool)
  : M (list Cookie * option error) :=
  let apiReq := req s in
  let apiReq :=
    {| resend := resend apiReq; code := code_;
       rememberDevice := remember |} in
  let body := Marshal apiReq in
  match NewRequest "POST" (buildURL authSubdomain (Host (cfg s)) verifyPath) body with
  | inr err => ret ([], Some err)
  | inl r =>
      let r := set_header "Content-Type" "application/json" r in
      let r := set_header "Accept" "application/json" r in
      '(resp, err) <- send_for_errors r ;;
      match err, resp with
      | Some e, _ => ret ([], Some e)
      | None, Some resp => ret (RespCookies resp, None)
      | None, None => panic
      end
  end.

(** [Step.Resend]. *)
Definition Resend (s : Step) : M (option error) :=
  let body := Marshal (resend (req s)) in
  match NewRequest "POST" (buildURL authSubdomain (Host (cfg s)) resendPath) body with
  | inr err => ret (Some err)
  | inl r =>
      let r := set_header "Accept" "application/json" r in
      '(_, err) <- send_for_errors r ;;
      ret err
  end.

End Client.

Arguments LoginCred {Service} Do url_ok cfg credType value password.
Arguments Login {Service} Do url_ok cfg username password.
Arguments getUsername {Service} Do url_ok FormatInt host userID.
Arguments LoginID {Service} Do url_ok FormatInt cfg userID password.
Arguments send_for_errors {Service} Do r.
Arguments Logout {Service} Do url_ok cfg cookies.
Arguments Verify {Service} Do url_ok s code_ remember.
Arguments Resend {Service} Do url_ok s.

End LegacyA.

(** The second older copy: [LoginCred] takes a [Cred] and resolves user
    IDs; the rest of the file repeats the first copy. *)
Module LegacyB.
Import GoLib Models Net Net.Notations.
Import LegacyA.

Section Client.

Variable Service : Type.
Variable Do : Transport Service error.
Variable url_ok : string -> bool.
Variable FormatInt : Z -> string.

Local Abbreviation M := (Net.M Service).
Local Abbreviation client_Do := (Net.client_Do Do).
Local Abbreviation NewRequest := (LegacyA.NewRequest url_ok).
Local Abbreviation getUsername := (LegacyA.getUsername Do url_ok FormatInt).

(** [Config.LoginCred]. *)
Definition LoginCred (cfg : Config) (cred : Cred) (password : string)
  : M (list Cookie * option Step * option error) :=
  let host := Host cfg in
  resolved <-
    (if String.eqb (ToLower (Type_ cred)) "UserID" then
       match ParseInt (Ident cred) with
       | None => ret (inr (NumError (Ident cred)))
       | Some userID =>
           '(name, err) <- getUsername host userID ;;
           match err with
           | Some e => ret (inr e)
           | None => ret (inl {| Type_ := "Username"; Ident := name |})
           end
       end
     else ret (inl cred)) ;;
  match resolved with
  | inr e => ret ([], None, Some e)
  | inl cred =>
      match NewRequest "POST" (buildURL authSubdomain host loginPath)
              (login_payload (Type_ cred) (Ident cred) password) with
      | inr err => ret ([], None, Some err)
      | inl r =>
          let r := set_header "Content-Type" "application/json" r in
          let r := set_header "Accept" "application/json" r in
          res <- client_Do r ;;
          match res with
          | inl err => ret ([], None, Some err)
          | inr resp =>
              match RespBody resp with
              | None => ret ([], None, Some DecodeErr)
              | Some j =>
                  let apiResp := decode_loginResponse j in
                  if (0 <? Z.of_nat (length (errors (loginErrors apiResp)))) then
                    ret ([], None, Some (ErrorsErr (errors (loginErrors apiResp))))
                  else if status_rejected (StatusCode resp) then
                    ret ([], None, Some (StatusError (StatusCode resp)))
                  else
                    match twoStepVerificationData apiResp with
                    | Some data =>
                        match user apiResp with
                        | None => panic
                        | Some u =>
                            let step :=
                              {| cfg := {| Host := host |};
                                 MediaType := mediaType data;
                                 req :=
                                   {| resend :=
                                        {| username := name u;
                                           ticket := twoStepTicket data;
                                           actionType := "Login" |};
                                      code := "";
                                      rememberDevice := false |} |} in
                            ret ([], Some step, None)
                        end
                    | None => ret (RespCookies resp, None, None)
                    end
              end
          end
      end
  end.

End Client.

Arguments LoginCred {Service} Do url_ok FormatInt cfg cred password.

End LegacyB.

(* ================================================================== *)
(** * Stub services and the vocabulary of the statements *)
(* ================================================================== *)

(** Stub services, as a test of the package would set them up. *)
Module Stub.
Import GoLib Models Net.

(** A service that answers from a script: request number [n] gets the
    [n]-th response of the script, and [fallback] once the script is over. *)
Definition scripted {E : Type} (script : list Response) (fallback : Response)
  : Transport nat E :=
  fun n _ => (S n, inr (nth n script fallback)).

(** A service that gives the same answer to every request. *)
Definition constant {E : Type} (resp : Response) : Transport nat E :=
  fun n _ => (S n, inr resp).

Definition start : World nat := {| service := 0%nat; sent := [] |}.

(** Every URL parses. *)
Definition any_url : string -> bool := fun _ => true.

(** [strconv.FormatInt(n, 10)]. *)
Definition show_id (n : Z) : string := NilZero.string_of_int (Z.to_int n).

(** [fmt.Sprintf] for a format with one verb [%d]: the first [%d] is
    replaced with the number. *)
Fixpoint sprintf (format : string) (n : Z) : string :=
  match format with
  | String "%" (String "d" rest) => show_id n ++ rest
  | String c rest => String c (sprintf rest n)
  | EmptyString => EmptyString
  end.

Definition json (errs : option (list ErrorResponse)) : JSON :=
  {| j_errors := errs; j_user := None; j_twoStepVerificationData := None;
     j_Username := None; j_mediaType := None; j_ticket := None |}.

Definition code0 : ErrorResponse :=
  {| Code := 0; Message := "Token Validation Failed"; Field := "" |}.

Definition cookie (n v : string) : Cookie :=
  {| CookieName := n; CookieValue := v |}.

(** 403 with an error of code 0, with or without a fresh token. *)
Definition rejection (token : string) : Response :=
  {| StatusCode := 403;
     RespHeader := if String.eqb token "" then [] else [(Auth.tokenHeader, token)];
     RespCookies := [];
     RespBody := Some (json (Some [code0])) |}.

(** 200 with the given body and a session cookie. *)
Definition ok (j : JSON) : Response :=
  {| StatusCode := 200; RespHeader := [];
     RespCookies := [cookie ".ROBLOSECURITY" "session"];
     RespBody := Some j |}.

Definition alice : userResponseV2 := {| ID := 123; Name := "alice" |}.

(** The body of a login response that asks for a second factor. *)
Definition two_step_body : JSON :=
  {| j_errors := None; j_user := Some (Some alice);
     j_twoStepVerificationData :=
       Some (Some {| SentMediaType := "Email"; SentTicket := "TICKET1" |});
     j_Username := None; j_mediaType := None; j_ticket := None |}.

(** The body of a login response for a completed login. *)
Definition logged_in_body : JSON :=
  {| j_errors := None; j_user := Some (Some alice);
     j_twoStepVerificationData := None;
     j_Username := None; j_mediaType := None; j_ticket := None |}.

(** The same body with the key "errors" present and its list empty. *)
Definition logged_in_no_errors : JSON :=
  {| j_errors := Some []; j_user := Some (Some alice);
     j_twoStepVerificationData := None;
     j_Username := None; j_mediaType := None; j_ticket := None |}.

(** The body of an identity-lookup response. *)
Definition lookup_body (name : string) : JSON :=
  {| j_errors := None; j_user := None; j_twoStepVerificationData := None;
     j_Username := Some name; j_mediaType := None; j_ticket := None |}.

(** A response without cookies. *)
Definition plain (status : Z) (token : string) (j : JSON) : Response :=
  {| StatusCode := status;
     RespHeader := if String.eqb token "" then [] else [(Auth.tokenHeader, token)];
     RespCookies := [];
     RespBody := Some j |}.

(** 500 with an empty JSON object as body. *)
Definition server_error : Response :=
  {| StatusCode := 500; RespHeader := []; RespCookies := [];
     RespBody := Some (json None) |}.

Definition config (token : string) : Auth.Config :=
  {| Auth.Token := token; Auth.LoginEndpoint := ""; Auth.LogoutEndpoint := "";
     Auth.VerifyEndpoint := ""; Auth.ResendEndpoint := "";
     Auth.UserIDEndpoint := "" |}.

(** The step of a login that waits for its code. *)
Definition pending_step : Auth.Step :=
  {| Auth.cfg := config "";
     Auth.req :=
       {| ticketRequest :=
            {| Username := "alice"; Ticket := "TICKET1";
               ActionType := "Login" |};
          VerifyCode := ""; RememberDevice := false |};
     Auth.MediaType := "Email" |}.

(** The body of a resend response: the code went out by SMS, under a new
    ticket. *)
Definition resent_body : JSON :=
  {| j_errors := None; j_user := None; j_twoStepVerificationData := None;
     j_Username := None; j_mediaType := Some "SMS"; j_ticket := Some "T2" |}.

(** 200 with a session cookie and a fresh token. *)
Definition ok_with_token (token : string) (j : JSON) : Response :=
  {| StatusCode := 200; RespHeader := [(Auth.tokenHeader, token)];
     RespCookies := [cookie ".ROBLOSECURITY" "session"];
     RespBody := Some j |}.

Definition alice_cred : Cred := {| Type_ := "Username"; Ident := "alice" |}.

(** The login endpoint of the token scenario: the first request of a
    session is rejected with a fresh token, the retry is accepted; the same
    again with the next token. *)
Definition token_then_success : Transport nat error :=
  scripted
    [rejection "T1"; ok logged_in_no_errors;
     rejection "T2"; ok logged_in_no_errors]
    (rejection "").

(** The lookup answers with the name alice, the login that follows is
    accepted. *)
Definition lookup_then_login : Transport nat error :=
  scripted
    [plain 200 "L1" (lookup_body "alice");
     ok logged_in_body]
    (rejection "").

Definition userid_cred : Cred := {| Type_ := "UserID"; Ident := "123" |}.

End Stub.

(** The vocabulary of the statements about the current client. *)
Module Props.
Import GoLib Models Net Auth.

(** The response is the rejection of a missing or stale token: status 403
    and an error list whose first error has code 0. *)
Definition token_rejection (resp : Response) : Prop :=
  StatusCode resp = 403 /\
  exists j first rest,
    RespBody resp = Some j /\ j_errors j = Some (first :: rest) /\
    Code first = 0.

(** The response carries a fresh anti-forgery token. *)
Definition carries_token (resp : Response) : Prop :=
  Header_Get tokenHeader (RespHeader resp) <> "".

(** The service answers every request, in every state, with a response
    that satisfies [P]. *)
Definition always_answers {Service : Type} (Do : Transport Service error)
    (P : Response -> Prop) : Prop :=
  forall s r, exists s' resp, Do s r = (s', inr resp) /\ P resp.

(** The token header of a request, the empty string when there is none. *)
Definition token_of (r : Request) : string :=
  Header_Get tokenHeader (ReqHeader r).

(** The error list a body carries: empty when the key is absent. *)
Definition errors_of (j : JSON) : list ErrorResponse :=
  or_keep (j_errors j) [].

(** A response that reports success to a first request: a 2XX status and
    a JSON body without errors. *)
Definition success (resp : Response) (j : JSON) : Prop :=
  200 <= StatusCode resp < 300 /\ RespBody resp = Some j /\ errors_of j = [].

(** The request [LoginCred] hands to [requestAPI]. *)
Definition login_http_request (c : Config) (cred : Cred) (password : string)
  : Request :=
  set_header "Accept" "application/json"
    (set_header "Content-Type" "application/json"
       {| Method := "POST";
          URL := or_default (LoginEndpoint c) DefaultLoginEndpoint;
          ReqHeader := []; ReqCookies := [];
          Body := login_payload cred password |}).

(** The request [Step.Resend] hands to [requestAPI]. *)
Definition resend_http_request (s : Step) : Request :=
  set_header "Accept" "application/json"
    {| Method := "POST";
       URL := or_default (ResendEndpoint (cfg s)) DefaultResendEndpoint;
       ReqHeader := []; ReqCookies := [];
       Body := TicketBody (ticketRequest (req s)) |}.

(** The request [Step.Verify] hands to [requestAPI]. *)
Definition verify_http_request (s : Step) (code : string) (remember : bool)
  : Request :=
  set_header "Accept" "application/json"
    (set_header "Content-Type" "application/json"
       {| Method := "POST";
          URL := or_default (VerifyEndpoint (cfg s)) DefaultVerifyEndpoint;
          ReqHeader := []; ReqCookies := [];
          Body := VerifyBody {| ticketRequest := ticketRequest (req s);
                                VerifyCode := code;
                                RememberDevice := remember |} |}).

(** The request [getUsername] hands to [requestAPI]. *)
Definition lookup_http_request (Sprintf : string -> Z -> string)
    (c : Config) (userID : Z) : Request :=
  {| Method := "GET";
     URL := Sprintf (or_default (UserIDEndpoint c) DefaultUserIDEndpoint) userID;
     ReqHeader := []; ReqCookies := []; Body := NoBody |}.

(** The request [Logout] hands to [requestAPI]. *)
Definition logout_http_request (c : Config) (cookies : list Cookie)
  : Request :=
  add_cookies cookies
    (set_header "Accept" "application/json"
       {| Method := "POST";
          URL := or_default (LogoutEndpoint c) DefaultLogoutEndpoint;
          ReqHeader := []; ReqCookies := []; Body := NoBody |}).

(** The body of the response carries no API errors: it does not decode,
    or it decodes to an object without errors. *)
Definition carries_no_errors (resp : Response) : Prop :=
  RespBody resp = None \/
  exists j, RespBody resp = Some j /\ errors_of j = [].

(** [s] is [low] up to the case of its letters: every byte of [s] is the
    byte of [low] at the same place or its upper-case letter. *)
Definition upper_byte (a : ascii) : ascii :=
  let n := nat_of_ascii a in
  if (Nat.leb 97 n && Nat.leb n 122)%bool then ascii_of_nat (n - 32) else a.

Fixpoint capitalization (low s : string) : Prop :=
  match low, s with
  | EmptyString, EmptyString => True
  | String a low', String b s' =>
      (b = a \/ b = upper_byte a) /\ capitalization low' s'
  | _, _ => False
  end.

(** Every byte of the string is below 128.  On such a string
    [strings.ToLower] maps the letters A-Z and keeps every other byte,
    as [GoLib.ToLower] does; a string with a byte from 128 on is lowered
    rune by rune, which [GoLib.ToLower] does not follow. *)
Fixpoint ascii_only (s : string) : bool :=
  match s with
  | EmptyString => true
  | String a s' => (Nat.ltb (nat_of_ascii a) 128 && ascii_only s')%bool
  end.

(** Every byte of the string is a letter a-z. *)
Fixpoint lower_letters (s : string) : Prop :=
  match s with
  | EmptyString => True
  | String a s' =>
      (97 <= nat_of_ascii a <= 122)%nat /\ lower_letters s'
  end.


(** The world once [r] is sent and the service has moved to [s']. *)
Definition after_send {Service : Type} (w : World Service) (s' : Service)
    (r : Request) : World Service :=
  {| service := s'; sent := sent w ++ [r] |}.

(** The test that sends [requestAPI] into its retry. *)
Definition retries (resp : Response) (first : ErrorResponse) (r : Request)
  : bool :=
  (StatusCode resp =? 403) && (Code first =? 0)
  && String.eqb (token_of r) "".

(** The step [LoginCred] builds from a login response. *)
Definition step_of (c : Config) (u : userResponseV2)
    (data : twoStepVerificationSentResponse) : Step :=
  {| cfg := c;
     MediaType := SentMediaType data;
     req := {| ticketRequest :=
                 {| Username := Name u; Ticket := SentTicket data;
                    ActionType := "Login" |};
               VerifyCode := ""; RememberDevice := false |} |}.

End Props.

(** The vocabulary of the statements about the codec. *)
Module CookieProps.
Import Models Cookies.

(** Printable ASCII, the space included. *)
Definition printable (c : ascii) : bool := between 32 126 c.

(** The last byte of a string does not satisfy [p] (no condition on the
    empty string). *)
Definition ends_without (p : ascii -> bool) (s : string) : Prop :=
  match last_byte s with
  | Some c => p c = false
  | None => True
  end.

(** The first byte of a string does not satisfy [p]. *)
Definition starts_without (p : ascii -> bool) (s : string) : Prop :=
  match s with
  | String c _ => p c = false
  | EmptyString => True
  end.

Definition is_space (c : ascii) : bool := Ascii.eqb c SP.

(** A value that [Header.Write] writes as it is and that the reader gives
    back as it is: printable bytes, no space at either end. *)
Definition wire_ok (w : string) : Prop :=
  all_bytes printable w = true /\
  starts_without is_space w /\ ends_without is_space w.

(** The line of a field with the key Set-Cookie. *)
Definition cookie_line (w : string) : string := ("Set-Cookie: " ++ w)%string.

Definition cookie_field (w : string) : string * string :=
  ("Set-Cookie"%string, w).

(** The cookie as it comes back: the bytes of the value that are not
    valid in a cookie value are gone. *)
Definition sanitized (c : Cookie) : Cookie :=
  {| CookieName := CookieName c;
     CookieValue := filter_bytes validCookieValueByte (CookieValue c) |}.

Definition valid_name (c : Cookie) : bool := isCookieNameValid (CookieName c).

(** A cookie the codec gives back as it is: a valid name, and a value of
    valid bytes only. *)
Definition well_formed (c : Cookie) : Prop :=
  isCookieNameValid (CookieName c) = true /\
  all_bytes validCookieValueByte (CookieValue c) = true.

End CookieProps.

(* ================================================================== *)
(** * More vocabulary for the current client *)
(* ================================================================== *)

Module ExtraProps.
Import GoLib Models Net Auth Props.


(** Two requests that differ in their token header at most. *)
Definition same_but_token (r r' : Request) : Prop :=
  Method r' = Method r /\ URL r' = URL r /\
  ReqCookies r' = ReqCookies r /\ Body r' = Body r /\
  Header_Del tokenHeader (ReqHeader r') = Header_Del tokenHeader (ReqHeader r).

(** Every response with the status 403 brings a token. *)
Definition rejections_bring_token {Service : Type}
    (Do : Transport Service error) : Prop :=
  forall s r s' resp,
    Do s r = (s', inr resp) -> StatusCode resp = 403 -> carries_token resp.

(** No response brings a token. *)
Definition never_brings_token {Service : Type}
    (Do : Transport Service error) : Prop :=
  forall s r s' resp,
    Do s r = (s', inr resp) -> Header_Get tokenHeader (RespHeader resp) = "".

(** The error begins with the prefix [p]: it is [fmt.Errorf(p + ": %w", _)]. *)
Definition has_prefix (p : string) (e : error) : Prop :=
  exists e', e = Wrapped p e'.



End ExtraProps.

(** More stub responses. *)
Module ExtraStub.
Import GoLib Models Net.


Definition bad_password : ErrorResponse :=
  {| Code := 1; Message := "Incorrect username or password.";
     Field := "" |}.

(** 403 with the API error of a wrong password. *)
Definition refused : Response :=
  {| StatusCode := 403; RespHeader := []; RespCookies := [];
     RespBody := Some (Stub.json (Some [bad_password])) |}.

(** A session as [Logout] gets it. *)
Definition session : list Cookie :=
  [Stub.cookie ".ROBLOSECURITY" "session"; Stub.cookie "RBXEventTrackerV2" "x"].

(** The session, and a cookie whose value holds a semicolon. *)
Definition session_and_theme : list Cookie :=
  (session ++ [Stub.cookie "theme" "dark;wide"])%list.

(** A service that answers the first request with a rejection that brings
    the token T1 and accepts the retry with a body that has no key
    "errors". *)
Definition rejected_then_accepted : Transport nat error :=
  Stub.scripted [Stub.rejection "T1"; Stub.ok Stub.logged_in_body]
    (Stub.rejection "").

End ExtraStub.

(* ================================================================== *)
(** * The older cookie codec *)
(* ================================================================== *)

(** The older copy of [ReadCookies] and [WriteCookies].  Its reader
    returns as soon as [ReadMIMEHeader] returns an error, and turns the
    end of the input into a nil error on the way; its errors are not
    wrapped. *)
Module CookiesOld.
Import Models Cookies.

Definition ReadCookies (r : string) : list Cookie * option read_error :=
  let '(h, err) := ReadMIMEHeader r in
  match err with
  | Some EOF => ([], None)
  | Some e => ([], Some e)
  | None => (readSetCookies h, None)
  end.

Definition WriteCookies (cookies : list Cookie) : string * option read_error :=
  (write_fields "Set-Cookie" (map Cookie_String cookies), None).

End CookiesOld.

(** More vocabulary for the codec. *)
Module CookieExtraProps.
Import Models Cookies CookieProps.

(** The line end of the header format, which is an empty line when it
    follows a line end. *)
Definition CRLF : string := String CR (String LF EmptyString).

(** The cookies as the current reader gives them back. *)
Definition read_back (cs : list Cookie) : list Cookie :=
  fst (ReadCookies (fst (WriteCookies cs))).

End CookieExtraProps.

(* ================================================================== *)
(** * The interactive prompt *)
(* ================================================================== *)

(** [Stream.PromptCred], [Stream.Prompt] and [Stream.PromptID]: the login
    that asks for what it is not given, line by line. *)
Module Prompt.
Import GoLib Models Net Net.Notations Auth.

(** An error of the reader or of the terminal. *)
Inductive io_error : Type :=
| IOError (what : string).

(** The errors the prompt returns: its own two, those of the input and
    those of the client.  [Prefixed p e] is [fmt.Errorf(p + ": %w", e)]. *)
Inductive prompt_error : Type :=
| MissingReader
| InvalidCredType (type : string)
| InputErr (e : io_error)
| ClientErr (e : error)
| Prefixed (prefix : string) (e : prompt_error).

(** A [bufio.Scanner] that splits lines, as the prompt sees it: the lines
    that [Scan] yields while [Err] is nil, and how the input ends.  After
    a clean end of the input every further [Scan] leaves [Err] nil and
    [Text] empty; after an error [Err] returns the error. *)
Record Scanner := {
  tokens : list string;
  ending : option io_error
}.

(** The reader of a stream: nil, [os.Stdin] (with what
    [terminal.ReadPassword] returns), or another reader. *)
Inductive Reader : Type :=
| NoReader
| Stdin (input : Scanner) (terminal : string + io_error)
| Other (input : Scanner).

(** [Stream].  The writer is nil or takes every write; what it is given
    is part of the [Console]. *)
Record Stream := {
  StreamConfig : Config;
  StreamReader : Reader;
  StreamWriter : bool
}.

(** What a call does to the streams: the lines left in its scanner, the
    texts written to the writer and to the standard output, oldest
    first. *)
Record Console := {
  scanner : Scanner;
  written : list string;
  stdout : list string
}.

Definition input_of (r : Reader) : Scanner :=
  match r with
  | NoReader => {| tokens := []; ending := None |}
  | Stdin input _ => input
  | Other input => input
  end.

(** [bufio.NewScanner(s.Reader)], before anything is read or written. *)
Definition console_of (s : Stream) : Console :=
  {| scanner := input_of (StreamReader s); written := []; stdout := [] |}.

(** [scanner.Scan()] followed by [scanner.Err()] and [scanner.Text()]. *)
Definition scan (t : Console) : (string + io_error) * Console :=
  match tokens (scanner t) with
  | line :: rest =>
      (inl line,
       {| scanner := {| tokens := rest; ending := ending (scanner t) |};
          written := written t; stdout := stdout t |})
  | [] =>
      match ending (scanner t) with
      | Some e => (inr e, t)
      | None => (inl "", t)
      end
  end.

(** [Stream.write] and [Stream.writef], once the text is formatted. *)
Definition write (s : Stream) (text : string) (t : Console) : Console :=
  if StreamWriter s
  then {| scanner := scanner t; written := written t ++ [text];
          stdout := stdout t |}
  else t.

Definition write_stdout (text : string) (t : Console) : Console :=
  {| scanner := scanner t; written := written t;
     stdout := stdout t ++ [text] |}.

Definition newline : string := String "010"%char EmptyString.

Definition one_of (options : list string) (s : string) : bool :=
  existsb (String.eqb s) options.

(** The credential types [PromptCred] accepts from its caller. *)
Definition accepted_type (type : string) : bool :=
  one_of ["Username"; "Email"; "PhoneNumber"; ""] type.

(** What [PromptCred] and its wrappers return; the cookies are nil on
    every error. *)
Definition Outcome : Type :=
  (Cred * list Cookie * option prompt_error * Console)%type.

Section Prompt.

Variable Service : Type.
Variable Do : Transport Service error.
Variable url_ok : string -> bool.
Variable Sprintf : string -> Z -> string.

(** [strings.ToLower] on the text of a line, which may be any text. *)
Variable Lower : string -> string.

(** [strconv.Quote], the verb [%q]. *)
Variable Quote : string -> string.

Local Abbreviation M := (Net.M Service).

(** The loop that asks for the credential type, [type] being [cred.Type]
    at the head of the loop.  [turns] bounds the number of rounds. *)
Fixpoint ask_type (turns : nat) (s : Stream) (type : string) (t : Console)
  : option ((string + io_error) * Console) :=
  if negb (String.eqb type "") then Some (inl type, t)
  else
    match turns with
    | O => None
    | S turns' =>
        let t :=
          write s "Enter credential type ((Username), Email, PhoneNumber): " t in
        let '(line, t) := scan t in
        match line with
        | inr e => Some (inr e, t)
        | inl text =>
            let type := Lower text in
            if one_of ["username"; "user"; "u"; ""] type
            then ask_type turns' s "Username" t
            else if one_of ["email"; "e"] type
            then ask_type turns' s "Email" t
            else if one_of ["phonenumber"; "phone number"; "pn"] type
            then ask_type turns' s "PhoneNumber" t
            else
              let t :=
                write s ("Unknown credential type " ++ Quote type ++ newline) t in
              ask_type turns' s "" t
        end
    end.

Definition ident_message (type : string) : string :=
  if String.eqb type "Username" then "Enter username: "
  else if String.eqb type "Email" then "Enter email: "
  else if String.eqb type "PhoneNumber" then "Enter phone number: "
  else "Enter " ++ type ++ ": ".

(** The loop that asks for the identifier. *)
Fixpoint ask_ident (turns : nat) (s : Stream) (type ident : string)
    (t : Console) : option ((string + io_error) * Console) :=
  if negb (String.eqb ident "") then Some (inl ident, t)
  else
    match turns with
    | O => None
    | S turns' =>
        let t := write s (ident_message type) t in
        let '(line, t) := scan t in
        match line with
        | inr e => Some (inr e, t)
        | inl text => ask_ident turns' s type text t
        end
    end.

(** The password: from the terminal when the reader is [os.Stdin], from
    the next line otherwise. *)
Definition ask_password (s : Stream) (t : Console)
  : (string + io_error) * Console :=
  match StreamReader s with
  | Stdin _ terminal => (terminal, write_stdout newline t)
  | _ => scan t
  end.

(** The loop that asks for the verification code; an empty line sends
    the code again.  The step is behind a pointer: it is returned as
    [Resend] leaves it. *)
Fixpoint ask_code (turns fuel : nat) (s : Stream) (step : Step) (t : Console)
  : M (Step * (string + prompt_error) * Console) :=
  match turns with
  | O => out_of_fuel
  | S turns' =>
      let t := write s "Enter code (leave empty to resend): " t in
      let '(line, t) := scan t in
      match line with
      | inr e => ret (step, inr (InputErr e), t)
      | inl code =>
          if negb (String.eqb code "") then ret (step, inl code, t)
          else
            '(step, err) <- Resend Do url_ok fuel step ;;
            match err with
            | Some e => ret (step, inr (ClientErr e), t)
            | None =>
                let t :=
                  write s ("Resent verification code via "
                           ++ MediaType step ++ newline) t in
                ask_code turns' fuel s step t
            end
      end
  end.

(** The loop that asks whether the device is to be remembered. *)
Fixpoint ask_remember (turns : nat) (s : Stream) (t : Console)
  : option ((bool + io_error) * Console) :=
  match turns with
  | O => None
  | S turns' =>
      let t := write s "Remember device? ((no), yes): " t in
      let '(line, t) := scan t in
      match line with
      | inr e => Some (inr e, t)
      | inl text =>
          let text := Lower text in
          if one_of ["y"; "yes"] text then Some (inl true, t)
          else if one_of ["n"; "no"; ""] text then Some (inl false, t)
          else ask_remember turns' s t
      end
  end.

(** The deferred [err = fmt.Errorf("prompt: %w", err)] on an error
    return. *)
Definition failed (cred : Cred) (e : prompt_error) (t : Console)
  : M Outcome :=
  ret (cred, [], Some (Prefixed "prompt" e), t).

(** [PromptCred] from the point where [LoginCred] has returned a step. *)
Definition second_step (turns fuel : nat) (s : Stream) (cred : Cred)
    (step : Step) (t : Console) : M Outcome :=
  let t :=
    write s ("Two-step verification code sent via "
             ++ MediaType step ++ newline) t in
  '(step, code, t) <- ask_code turns fuel s step t ;;
  match code with
  | inr e => failed cred e t
  | inl code =>
      match ask_remember turns s t with
      | None => out_of_fuel
      | Some (inr e, t) => failed cred (InputErr e) t
      | Some (inl remember, t) =>
          '(_, (cookies, err)) <- Verify Do url_ok fuel step code remember ;;
          match err with
          | Some e => failed cred (ClientErr e) t
          | None => ret (cred, cookies, None, t)
          end
      end
  end.

(** [Stream.PromptCred].  [turns] bounds the rounds of each loop, [fuel]
    the nested calls of [requestAPI]. *)
Definition PromptCred (turns fuel : nat) (s : Stream) (cred : Cred)
  : M Outcome :=
  let t := console_of s in
  match StreamReader s with
  | NoReader => failed cred MissingReader t
  | _ =>
      if negb (accepted_type (Type_ cred))
      then failed cred (InvalidCredType (Type_ cred)) t
      else
        match ask_type turns s (Type_ cred) t with
        | None => out_of_fuel
        | Some (inr e, t) =>
            failed {| Type_ := ""; Ident := Ident cred |} (InputErr e) t
        | Some (inl type, t) =>
            match ask_ident turns s type (Ident cred) t with
            | None => out_of_fuel
            | Some (inr e, t) =>
                failed {| Type_ := type; Ident := "" |} (InputErr e) t
            | Some (inl ident, t) =>
                let cred := {| Type_ := type; Ident := ident |} in
                let t := write s ("Enter password for " ++ ident ++ ": ") t in
                let '(password, t) := ask_password s t in
                match password with
                | inr e => failed cred (InputErr e) t
                | inl password =>
                    '(cookies, step, err) <-
                      LoginCred Do url_ok Sprintf fuel (StreamConfig s)
                        cred password ;;
                    match err with
                    | Some e => failed cred (ClientErr e) t
                    | None =>
                        match step with
                        | Some step => second_step turns fuel s cred step t
                        | None => ret (cred, cookies, None, t)
                        end
                    end
                end
            end
        end
  end.

(** [Stream.Prompt]. *)
Definition Prompt (turns fuel : nat) (s : Stream) (username : string)
  : M Outcome :=
  PromptCred turns fuel s
    (if negb (String.eqb username "")
     then {| Type_ := "Username"; Ident := username |}
     else {| Type_ := ""; Ident := "" |}).

(** [Stream.PromptID]. *)
Definition PromptID (turns fuel : nat) (s : Stream) (userID : Z)
  : M Outcome :=
  let zero := {| Type_ := ""; Ident := "" |} in
  let refused :=
    if userID <? 1
    then match StreamReader s with NoReader => false | _ => true end
    else false in
  if refused
  then ret (zero, [], Some (Prefixed "prompt" MissingReader), console_of s)
  else
    '(username, err) <-
      getUsername Do url_ok Sprintf fuel (StreamConfig s) userID ;;
    match err with
    | Some e =>
        ret (zero, [], Some (Prefixed "prompt" (ClientErr e)), console_of s)
    | None =>
        PromptCred turns fuel s {| Type_ := "Username"; Ident := username |}
    end.

End Prompt.

Arguments ask_code {Service} Do url_ok turns fuel s step t.
Arguments second_step {Service} Do url_ok Lower turns fuel s cred step t.
Arguments PromptCred {Service} Do url_ok Sprintf Lower Quote turns fuel s cred.
Arguments Prompt {Service} Do url_ok Sprintf Lower Quote turns fuel s username.
Arguments PromptID {Service} Do url_ok Sprintf Lower Quote turns fuel s userID.

End Prompt.

(** The vocabulary of the statements about the prompt. *)
Module PromptProps.
Import GoLib Models Net Auth Props Prompt.

(** The error is [fmt.Errorf(p + ": %w", _)]. *)
Definition prefixed (p : string) (e : prompt_error) : Prop :=
  exists e', e = Prefixed p e'.

(** The three credential types the prompt logs in with. *)
Definition three_types (type : string) : Prop :=
  type = "Username" \/ type = "Email" \/ type = "PhoneNumber".

(** An input that is over: what is left of it are empty lines, and it
    ends without an error. *)
Definition ended (sc : Scanner) : Prop :=
  Forall (fun line => line = "") (tokens sc) /\ ending sc = None.

(** A reader that gives a password and is over after it. *)
Definition ended_after_password (r : Reader) : Prop :=
  match r with
  | NoReader => False
  | Stdin sc (inl _) => ended sc
  | Stdin _ (inr _) => False
  | Other sc =>
      Forall (fun line => line = "") (tl (tokens sc)) /\ ending sc = None
  end.

(** A response that reports success and asks for a verification code. *)
Definition asks_for_code (resp : Response) : Prop :=
  exists j u data,
    success resp j /\ j_user j = Some (Some u) /\
    j_twoStepVerificationData j = Some (Some data).

(** The credential type an answer in lower case stands for, the empty
    string for an answer that is not known. *)
Definition type_of_answer (text : string) : string :=
  if one_of ["username"; "user"; "u"; ""] text then "Username"
  else if one_of ["email"; "e"] text then "Email"
  else if one_of ["phonenumber"; "phone number"; "pn"] text then "PhoneNumber"
  else "".

(** What an answer in lower case says about remembering the device,
    [None] for an answer that is asked again. *)
Definition remember_of_answer (text : string) : option bool :=
  if one_of ["y"; "yes"] text then Some true
  else if one_of ["n"; "no"; ""] text then Some false
  else None.

(** A reader other than the standard input that yields the given
    lines. *)
Definition typed (lines : list string) (ending : option io_error) : Reader :=
  Other {| tokens := lines; ending := ending |}.

(** The console of a call that has read lines and written texts. *)
Definition lines_left (t : Console) : list string := tokens (scanner t).

End PromptProps.

(** Streams and services for the runs of the prompt. *)
Module PromptStub.
Import GoLib Models Net Auth Prompt PromptProps.

(** [strconv.Quote] on plain text: the text between double quotes. *)
Definition quote (text : string) : string :=
  String "034"%char (text ++ String "034"%char EmptyString).

(** A stream that reads the given lines and writes to a buffer. *)
Definition stream (lines : list string) : Stream :=
  {| StreamConfig := Stub.config "";
     StreamReader := typed lines None;
     StreamWriter := true |}.

(** The stream of [StandardStream] on a terminal that gives a password,
    with the given lines on the standard input. *)
Definition standard (lines : list string) (password : string) : Stream :=
  {| StreamConfig := Stub.config "";
     StreamReader := Stdin {| tokens := lines; ending := None |} (inl password);
     StreamWriter := true |}.

(** A service that accepts every request and asks for a code. *)
Definition asking : Transport nat error :=
  Stub.constant (Stub.ok Stub.two_step_body).

(** A service that accepts every login at once. *)
Definition welcoming : Transport nat error :=
  Stub.constant (Stub.ok Stub.logged_in_body).

End PromptStub.

(* ================================================================== *)
(** * The first client of the package *)
(* ================================================================== *)

(** [Client]: the login service of the website, with the session kept in
    the cookie jar of the embedded [http.Client]. *)
Module LegacyClient.
Import Models Net.

Definition defaultHost := "www.roblox.com".
Definition loginPath := "/Services/Secure/LoginService.asmx/ValidateLogin".
Definition logoutPath := "/authentication/logout".

(** The error values of this copy; [TransportErr] is what [client.Do]
    returns and [DecodeErr] what the JSON decoder returns. *)
Inductive error : Type :=
| ErrLoggedIn
| ErrLoginFailed (ErrorCode Message : string)
| ErrStatus (code : Z)
| TransportErr (reason : string)
| DecodeErr.

(** The body of the login request, before [json.Marshal]. *)
Record loginReq := {
  UserName : string;
  Password : string;
  IsCaptchaOn : bool;
  Challenge : string;
  CaptchaResponse : string
}.

Record Request := {
  Method : string;
  URL : string;
  Header : list (string * string);
  Body : option loginReq
}.

Record loginRespSub := {
  SLTranslate : string;
  IsValid : bool;
  Message : string;
  ErrorCode : string
}.

Record loginResp := {
  D : loginRespSub
}.

(** A response: [RespBody] is [None] when the decoder returns an error,
    and otherwise what it makes of a zero [loginResp]. *)
Record Response := {
  StatusCode : Z;
  RespBody : option loginResp
}.

(** [assertStatus]. *)
Definition assertStatus (res : error + Response) : error + Response :=
  match res with
  | inl err => inl err
  | inr resp =>
      if (StatusCode resp <? 200) && (StatusCode resp >=? 300)
      then inl (ErrStatus (StatusCode resp))
      else inr resp
  end.

Section Client.

(** The cookie jar: [cookiejar.New] and [Jar.Cookies] for a URL of the
    scheme https, given by its host and its path. *)
Variable Jar : Type.
Variable New : Jar.
Variable Cookies : Jar -> string -> string -> list Cookie.

(** The website behind the client. *)
Variable Remote : Type.

(** The client and its world: the jar of the client (nil at first), the
    website, and the requests sent, oldest first. *)
Record Client := {
  ClientJar : option Jar;
  remote : Remote;
  sent : list Request
}.

(** [client.Do] on a request that is not nil: the website answers, and
    the client keeps the cookies of the answer in its jar. *)
Variable Do :
  option Jar -> Remote -> Request -> option Jar * Remote * (string + Response).

(** [url.URL{Scheme: "https", Host: host, Path: path}.String()], and
    whether [http.NewRequest] can parse the result. *)
Variable URL_String : string -> string -> string.
Variable url_ok : string -> bool.

Definition client_Do (req : Request) (c : Client)
  : (error + Response) * Client :=
  let '(jar, site, res) := Do (ClientJar c) (remote c) req in
  (match res with
   | inl reason => inl (TransportErr reason)
   | inr resp => inr resp
   end,
   {| ClientJar := jar; remote := site; sent := sent c ++ [req] |}).

(** [Client.Login].  The error of [http.NewRequest] is dropped, so a URL
    that does not parse leaves a nil request, and the access to its
    header panics. *)
Definition Login (host username password : string) (c : Client)
  : Res (option error) * Client :=
  let host := if String.eqb host "" then defaultHost else host in
  let jar := match ClientJar c with Some jar => jar | None => New end in
  let c := {| ClientJar := Some jar; remote := remote c; sent := sent c |} in
  if existsb (fun cookie => String.eqb (CookieName cookie) ".ROBLOSECURITY")
       (Cookies jar host loginPath)
  then (Done (Some ErrLoggedIn), c)
  else if negb (url_ok (URL_String host loginPath)) then (Panic, c)
  else
    let req :=
      {| Method := "POST"; URL := URL_String host loginPath;
         Header := [("Content-Type", "application/json; charset=utf-8")];
         Body := Some {| UserName := username; Password := password;
                         IsCaptchaOn := false; Challenge := "";
                         CaptchaResponse := "" |} |} in
    let '(res, c) := client_Do req c in
    match assertStatus res with
    | inl err => (Done (Some err), c)
    | inr resp =>
        match RespBody resp with
        | None => (Done (Some DecodeErr), c)
        | Some respData =>
            if negb (IsValid (D respData))
            then (Done (Some (ErrLoginFailed (ErrorCode (D respData))
                                (Message (D respData)))), c)
            else (Done None, c)
        end
    end.

(** [Client.Logout].  Here too the error of [http.NewRequest] is dropped,
    and [client.Do] panics on the nil request. *)
Definition Logout (host : string) (c : Client) : Res (option error) * Client :=
  let host := if String.eqb host "" then defaultHost else host in
  if negb (url_ok (URL_String host logoutPath)) then (Panic, c)
  else
    let req :=
      {| Method := "POST"; URL := URL_String host logoutPath;
         Header := []; Body := None |} in
    let '(res, c) := client_Do req c in
    match assertStatus res with
    | inl err => (Done (Some err), c)
    | inr _ => (Done None, c)
    end.

End Client.

Arguments ClientJar {Jar Remote} c.
Arguments remote {Jar Remote} c.
Arguments sent {Jar Remote} c.
Arguments client_Do {Jar Remote} Do req c.
Arguments Login {Jar} New Cookies {Remote} Do URL_String url_ok
  host username password c.
Arguments Logout {Jar Remote} Do URL_String url_ok host c.

End LegacyClient.

(** The vocabulary of the statements about the older copies, and a jar
    for their runs. *)
Module LegacyProps.
Import Models Net.

(** An error that tells what the API answered: its list of errors or
    its status. *)
Definition reports_the_API (e : LegacyA.error) : Prop :=
  match e with
  | LegacyA.ErrorsErr _ | LegacyA.StatusError _ => True
  | _ => False
  end.

(** The transport fails with transport errors only. *)
Definition plain_transport {Service : Type}
    (Do : Transport Service LegacyA.error) : Prop :=
  forall s r s' e, Do s r = (s', inl e) -> exists reason, e = LegacyA.TransportErr reason.

(** A jar as a list of cookies that are sent to every URL. *)
Definition list_jar_cookies (jar : list Cookie) (host path : string)
  : list Cookie := jar.

(** A website that answers every request with the same response and
    sets no cookie. *)
Definition answering (resp : LegacyClient.Response)
  : option (list Cookie) -> nat -> LegacyClient.Request ->
    option (list Cookie) * nat * (string + LegacyClient.Response) :=
  fun jar n _ => (jar, S n, inr resp).

Definition https (host path : string) : string := "https://" ++ host ++ path.

End LegacyProps.

(* ================================================================== *)
(** * Facts about the current client *)
(* ================================================================== *)

Module AuthFacts.
Import GoLib Models Net Net.Notations Auth Props.

Lemma Header_Get_Set_same (k v : string) (h : Header) :
  Header_Get k (Header_Set k v h) = v.
Proof. unfold Header_Set; simpl. now rewrite String.eqb_refl. Qed.

Lemma Header_Get_Del_other (k k' : string) (h : Header) :
  String.eqb k k' = false -> Header_Get k (Header_Del k' h) = Header_Get k h.
Proof.
  intros Hk. induction h as [|[k0 v0] h IH]; simpl; [reflexivity|].
  destruct (String.eqb k' k0) eqn:E0.
  - apply String.eqb_eq in E0; subst k0. now rewrite Hk.
  - simpl. now rewrite IH.
Qed.

Lemma Header_Get_Set_other (k k' v : string) (h : Header) :
  String.eqb k k' = false -> Header_Get k (Header_Set k' v h) = Header_Get k h.
Proof.
  intros Hk. unfold Header_Set; simpl. rewrite Hk.
  now apply Header_Get_Del_other.
Qed.

Lemma eqb_empty_false (s : string) : s <> "" -> String.eqb s "" = false.
Proof. intros H. now apply String.eqb_neq. Qed.

Lemma ifStatus_403 (err : option error) :
  ifStatus 403 err = Some (StatusErr 403 err).
Proof. reflexivity. Qed.

Lemma ifStatus_2XX (code : Z) (err : option error) :
  200 <= code < 300 -> ifStatus code err = err.
Proof.
  intros [Hlo Hhi]. unfold ifStatus.
  destruct (code <? 200) eqn:E1; [apply Z.ltb_lt in E1; lia|].
  destruct (code >=? 300) eqn:E2; [|reflexivity].
  rewrite Z.geb_le in E2. lia.
Qed.

Lemma ifStatus_not_2XX (code : Z) (err : option error) :
  ~ 200 <= code < 300 -> ifStatus code err = Some (StatusErr code err).
Proof.
  intros Hout. unfold ifStatus.
  destruct (code <? 200) eqn:E1; [reflexivity|].
  destruct (code >=? 300) eqn:E2; [reflexivity|].
  apply Z.ltb_ge in E1. rewrite Z.geb_leb in E2. apply Z.leb_gt in E2. lia.
Qed.

(** ** The library functions on a few inputs *)

Example ParseInt_number : ParseInt "123" = Some 123.
Proof. reflexivity. Qed.

Example ParseInt_signed : ParseInt "-42" = Some (-42).
Proof. reflexivity. Qed.

Example ParseInt_not_a_number : ParseInt "12a" = None.
Proof. reflexivity. Qed.

Example ParseInt_sign_only : ParseInt "-" = None.
Proof. reflexivity. Qed.

Example ParseInt_largest : ParseInt "9223372036854775807" = Some (2 ^ 63 - 1).
Proof. reflexivity. Qed.

Example ParseInt_out_of_range : ParseInt "9223372036854775808" = None.
Proof. reflexivity. Qed.

Example ToLower_UserID : ToLower "UserID" = "userid".
Proof. reflexivity. Qed.

Example ToLower_USERID : ToLower "USERID" = "userid".
Proof. reflexivity. Qed.

Example ToLower_keeps_other_bytes : ToLower "Phone-Number 7" = "phone-number 7".
Proof. reflexivity. Qed.

(** ** [strings.ToLower] and the capitalizations of a word *)

Lemma lower_byte_of_lower (a : ascii) :
  (97 <= nat_of_ascii a <= 122)%nat -> lower_byte a = a.
Proof.
  intros Ha. unfold lower_byte.
  destruct (Nat.leb 65 (nat_of_ascii a) && Nat.leb (nat_of_ascii a) 90)%bool
    eqn:E; [|reflexivity].
  apply andb_true_iff in E. destruct E as [_ E].
  apply Nat.leb_le in E. lia.
Qed.

Lemma lower_byte_upper_byte (a : ascii) :
  (97 <= nat_of_ascii a <= 122)%nat -> lower_byte (upper_byte a) = a.
Proof.
  intros Ha. unfold upper_byte.
  replace (Nat.leb 97 (nat_of_ascii a) && Nat.leb (nat_of_ascii a) 122)%bool
    with true
    by (symmetry; apply andb_true_iff; split; apply Nat.leb_le; lia).
  unfold lower_byte.
  rewrite nat_ascii_embedding by lia.
  replace (Nat.leb 65 (nat_of_ascii a - 32)
           && Nat.leb (nat_of_ascii a - 32) 90)%bool with true
    by (symmetry; apply andb_true_iff; split; apply Nat.leb_le; lia).
  replace (nat_of_ascii a - 32 + 32)%nat with (nat_of_ascii a) by lia.
  apply ascii_nat_embedding.
Qed.

Lemma lower_byte_inv (a b : ascii) :
  (97 <= nat_of_ascii a <= 122)%nat ->
  lower_byte b = a -> b = a \/ b = upper_byte a.
Proof.
  intros Ha. unfold lower_byte.
  destruct (Nat.leb 65 (nat_of_ascii b) && Nat.leb (nat_of_ascii b) 90)%bool
    eqn:E.
  - apply andb_true_iff in E. destruct E as [E1 E2].
    apply Nat.leb_le in E1, E2. intros Hb. right.
    assert (Hn : nat_of_ascii a = (nat_of_ascii b + 32)%nat).
    { rewrite <- Hb. rewrite nat_ascii_embedding by lia. reflexivity. }
    unfold upper_byte.
    replace (Nat.leb 97 (nat_of_ascii a) && Nat.leb (nat_of_ascii a) 122)%bool
      with true
      by (symmetry; apply andb_true_iff; split; apply Nat.leb_le; lia).
    rewrite Hn. replace (nat_of_ascii b + 32 - 32)%nat with (nat_of_ascii b)
      by lia.
    symmetry. apply ascii_nat_embedding.
  - intros Hb. now left.
Qed.

(** On a word of lower-case letters, [ToLower s] is the word exactly when
    [s] is one of its capitalizations. *)
Lemma ToLower_capitalization (low s : string) :
  lower_letters low -> (ToLower s = low <-> capitalization low s).
Proof.
  revert s. induction low as [|a low IH]; intros s Hlow.
  - destruct s; simpl; split; intros H; try reflexivity; try discriminate;
      now try contradiction.
  - destruct Hlow as [Ha Hlow]. destruct s as [|b s]; simpl.
    + split; [discriminate|contradiction].
    + split.
      * intros H. injection H as Hb Hs. split.
        -- now apply lower_byte_inv.
        -- now apply IH.
      * intros [Hb Hs]. f_equal.
        -- destruct Hb as [-> | ->];
             [now apply lower_byte_of_lower|now apply lower_byte_upper_byte].
        -- now apply IH.
Qed.

Lemma userid_lower_letters : lower_letters "userid".
Proof. simpl. repeat split; apply Nat.leb_le; reflexivity. Qed.

Lemma userid_kind_iff (s : string) :
  String.eqb (ToLower s) "userid" = true <-> capitalization "userid" s.
Proof.
  rewrite String.eqb_eq. apply ToLower_capitalization, userid_lower_letters.
Qed.

Section Facts.

Variable Service : Type.
Variable Do : Transport Service error.
Variable url_ok : string -> bool.
Variable Sprintf : string -> Z -> string.

Local Abbreviation requestAPI := (Auth.requestAPI Do).
Local Abbreviation login_request := (Auth.login_request Do url_ok).
Local Abbreviation getUsername := (Auth.getUsername Do url_ok Sprintf).
Local Abbreviation LoginCred := (Auth.LoginCred Do url_ok Sprintf).
Local Abbreviation Login := (Auth.Login Do url_ok Sprintf).
Local Abbreviation Logout := (Auth.Logout Do url_ok).
Local Abbreviation Verify := (Auth.Verify Do url_ok).
Local Abbreviation Resend := (Auth.Resend Do url_ok).


(** ** One call of [requestAPI] *)

Lemma requestAPI_transport_error {T} `{apiResponse T}
    fuel c r (a : T) w s' err :
  Do (service w) (with_token c r) = (s', inl err) ->
  requestAPI (S fuel) c r a w =
    (Done (c, a, (None, Some err)), after_send w s' (with_token c r)).
Proof.
  intros HDo. simpl. unfold bind, client_Do. now rewrite HDo.
Qed.

Lemma requestAPI_undecodable {T} `{apiResponse T}
    fuel c r (a : T) w s' resp :
  Do (service w) (with_token c r) = (s', inr resp) ->
  RespBody resp = None ->
  requestAPI (S fuel) c r a w =
    (Done (learn_token c resp, a,
           (Some resp, ifStatus (StatusCode resp) (Some DecodeErr))),
     after_send w s' (with_token c r)).
Proof.
  intros HDo Hbody. simpl. unfold bind, client_Do. rewrite HDo.
  now rewrite Hbody.
Qed.

Lemma requestAPI_no_errors {T} `{apiResponse T}
    fuel c r (a : T) w s' resp j :
  Do (service w) (with_token c r) = (s', inr resp) ->
  RespBody resp = Some j ->
  Errors (errResp (Decode j a)) = [] ->
  requestAPI (S fuel) c r a w =
    (Done (learn_token c resp, Decode j a,
           (Some resp, ifStatus (StatusCode resp) None)),
     after_send w s' (with_token c r)).
Proof.
  intros HDo Hbody Herrs. simpl. unfold bind, client_Do. rewrite HDo.
  rewrite Hbody. now rewrite Herrs.
Qed.

Lemma requestAPI_errors {T} `{apiResponse T}
    fuel c r (a : T) w s' resp j first rest :
  Do (service w) (with_token c r) = (s', inr resp) ->
  RespBody resp = Some j ->
  Errors (errResp (Decode j a)) = first :: rest ->
  requestAPI (S fuel) c r a w =
    if retries resp first (with_token c r)
    then requestAPI fuel (learn_token c resp) (with_token c r) (Decode j a)
           (after_send w s' (with_token c r))
    else (Done (learn_token c resp, Decode j a,
                (None, ifStatus (StatusCode resp)
                         (Some (APIErrors (errResp (Decode j a)))))),
          after_send w s' (with_token c r)).
Proof.
  intros HDo Hbody Herrs. simpl. unfold bind, client_Do. rewrite HDo.
  rewrite Hbody. rewrite Herrs. unfold retries, token_of, Clone.
  now destruct (_ && _).
Qed.

(** [requestAPI] always sends its first request as [with_token] makes it. *)
Lemma requestAPI_first_request {T} `{apiResponse T}
    fuel c r (a : T) w res w' :
  requestAPI (S fuel) c r a w = (res, w') ->
  exists more, sent w' = (sent w ++ with_token c r :: more)%list.
Proof.
  revert c r a w res w'.
  induction fuel as [|fuel IH]; intros c r a w res w' Hrun.
  - simpl in Hrun. unfold bind, client_Do in Hrun.
    destruct (Do (service w) (with_token c r)) as [s' [err|resp]];
      simpl in Hrun.
    + inversion Hrun; subst. now exists [].
    + destruct (RespBody resp) as [j|].
      * destruct (Errors (errResp (Decode j a))) as [|first rest].
        -- inversion Hrun; subst. now exists [].
        -- destruct (_ && _).
           ++ inversion Hrun; subst. now exists [].
           ++ inversion Hrun; subst. now exists [].
      * inversion Hrun; subst. now exists [].
  - remember (S fuel) as n. simpl in Hrun. unfold bind, client_Do in Hrun.
    destruct (Do (service w) (with_token c r)) as [s' [err|resp]];
      simpl in Hrun.
    + inversion Hrun; subst. now exists [].
    + destruct (RespBody resp) as [j|].
      * destruct (Errors (errResp (Decode j a))) as [|first rest].
        -- inversion Hrun; subst. now exists [].
        -- destruct (_ && _).
           ++ subst n. apply IH in Hrun. destruct Hrun as [more Hmore].
              simpl in Hmore. rewrite <- app_assoc in Hmore. simpl in Hmore.
              eexists. exact Hmore.
           ++ inversion Hrun; subst. now exists [].
      * inversion Hrun; subst. now exists [].
Qed.


(** ** Requests against a service that rejects every token *)

Lemma token_of_with_token c r :
  token_of r = "" -> token_of (with_token c r) = Token c.
Proof.
  intros Hr. unfold with_token.
  destruct (String.eqb (Token c) "") eqn:E; simpl.
  - apply String.eqb_eq in E. now rewrite E.
  - reflexivity.
Qed.

Lemma Token_learn_token c resp :
  carries_token resp ->
  Token (learn_token c resp) = Header_Get tokenHeader (RespHeader resp).
Proof.
  unfold carries_token, learn_token. intros Hne.
  now rewrite (eqb_empty_false _ Hne).
Qed.

Lemma rejection_errors {T} `{apiResponse T} (a : T) resp :
  token_rejection resp ->
  exists j first rest,
    RespBody resp = Some j /\ Code first = 0 /\
    Errors (errResp (Decode j a)) = first :: rest.
Proof.
  intros [_ (j & first & rest & Hbody & Herrs & Hcode)].
  exists j, first, rest. repeat split; try assumption.
  rewrite Decode_errResp, Herrs. reflexivity.
Qed.

(** With a token on the request, a rejection is final: one request, and
    the error is the status error 403 around the API errors. *)
Lemma requestAPI_rejected_with_token {T} `{apiResponse T}
    fuel c r (a : T) w :
  always_answers Do token_rejection ->
  token_of (with_token c r) <> "" ->
  exists c' a' errs s',
    requestAPI (S fuel) c r a w =
      (Done (c', a', (None, Some (StatusErr 403 (Some (APIErrors errs))))),
       after_send w s' (with_token c r)).
Proof.
  intros Hserv Htok.
  destruct (Hserv (service w) (with_token c r)) as (s' & resp & HDo & Hrej).
  destruct (rejection_errors a resp Hrej) as (j & first & rest & Hbody & Hcode & Herrs).
  rewrite (requestAPI_errors fuel c r a w s' resp j first rest HDo Hbody Herrs).
  unfold retries. rewrite (eqb_empty_false _ Htok), andb_false_r.
  destruct Hrej as [Hstatus _]. rewrite Hstatus.
  now eexists _, _, _, _.
Qed.

(** Without a token, the rejection that brings one is retried once, with
    the token it brought; the second rejection is final. *)
Lemma requestAPI_rejected_without_token {T} `{apiResponse T}
    fuel c r (a : T) w :
  always_answers Do (fun resp => token_rejection resp /\ carries_token resp) ->
  token_of (with_token c r) = "" ->
  exists c' a' errs s1 resp1 s2,
    Do (service w) (with_token c r) = (s1, inr resp1) /\
    requestAPI (S (S fuel)) c r a w =
      (Done (c', a', (None, Some (StatusErr 403 (Some (APIErrors errs))))),
       after_send (after_send w s1 (with_token c r)) s2
         (set_header tokenHeader
            (Header_Get tokenHeader (RespHeader resp1)) (with_token c r))).
Proof.
  intros Hserv Htok.
  destruct (Hserv (service w) (with_token c r))
    as (s1 & resp & HDo & Hrej & Hfresh).
  destruct (rejection_errors a resp Hrej)
    as (j & first & rest & Hbody & Hcode & Herrs).
  rewrite (requestAPI_errors _ c r a w s1 resp j first rest HDo Hbody Herrs).
  unfold retries. destruct Hrej as [Hstatus _].
  rewrite Hstatus, Hcode, Htok.
  change ((403 =? 403) && (0 =? 0) && String.eqb "" "") with true.
  cbv iota.
  set (c1 := learn_token c resp).
  set (w1 := after_send w s1 (with_token c r)).
  assert (Hc1 : Token c1 = Header_Get tokenHeader (RespHeader resp))
    by now apply Token_learn_token.
  assert (Hwire : with_token c1 (with_token c r)
                  = set_header tokenHeader (Token c1) (with_token c r)).
  { unfold with_token at 1. rewrite Hc1.
    now rewrite (eqb_empty_false _ Hfresh). }
  assert (Htok1 : token_of (with_token c1 (with_token c r)) <> "").
  { rewrite token_of_with_token by assumption. now rewrite Hc1. }
  assert (Hserv' : always_answers Do token_rejection).
  { intros s0 r0. destruct (Hserv s0 r0) as (s' & resp' & H1 & H2 & _).
    now exists s', resp'. }
  destruct (requestAPI_rejected_with_token fuel c1 (with_token c r)
              (Decode j a) w1 Hserv' Htok1)
    as (c' & a' & errs & s2 & Hrun).
  rewrite Hrun, Hwire, Hc1.
  exists c', a', errs, s1, resp, s2. split; [exact HDo|reflexivity].
Qed.


(** ** [LoginCred] once the credential is resolved *)

Lemma login_request_eq fuel c cred password :
  url_ok (or_default (LoginEndpoint c) DefaultLoginEndpoint) = true ->
  login_request fuel c cred password =
    ('(c', apiResp, (resp, err)) <-
       requestAPI fuel c (login_http_request c cred password)
         {| User := None; TwoStepVerificationData := None;
            loginErrors := noErrors |} ;;
     match err, resp with
     | Some e, _ => ret ([], None, Some e)
     | None, None => panic
     | None, Some resp =>
         match TwoStepVerificationData apiResp with
         | Some data =>
             match User apiResp with
             | None => panic
             | Some user =>
                 ret (RespCookies resp,
                      Some {| cfg := c';
                              MediaType := SentMediaType data;
                              req :=
                                {| ticketRequest :=
                                     {| Username := Name user;
                                        Ticket := SentTicket data;
                                        ActionType := "Login" |};
                                   VerifyCode := "";
                                   RememberDevice := false |} |},
                      None)
             end
         | None => ret (RespCookies resp, None, None)
         end
     end).
Proof.
  intros Hurl. unfold Auth.login_request, NewRequest. rewrite Hurl.
  reflexivity.
Qed.

Lemma Login_eq fuel c username password :
  Login fuel c username password =
    ('(cookies, step, err) <-
       login_request fuel c {| Type_ := "Username"; Ident := username |}
         password ;;
     ret (cookies, step, wrap_err "login" err)).
Proof. reflexivity. Qed.

Lemma token_of_login_http_request c cred password :
  token_of (login_http_request c cred password) = "".
Proof. reflexivity. Qed.

(** C1 (as amended).  Against a login endpoint whose every response is a
    403 with a first error of code 0 and a fresh token, [Login] returns the
    status error 403.  When the configuration holds no token, it has sent
    two requests: the login request, and the same request once more with
    the token that the first response brought as its token header.  When
    the configuration holds a token, it has sent one request, with that
    token. *)
Theorem login_token_retry_bound
    (c : Config) (username password : string) (w : World Service)
    (fuel : nat) :
  always_answers Do (fun resp => token_rejection resp /\ carries_token resp) ->
  url_ok (or_default (LoginEndpoint c) DefaultLoginEndpoint) = true ->
  (2 <= fuel)%nat ->
  exists e w',
    Login fuel c username password w = (Done ([], None, Some e), w') /\
    status_code_of e = Some 403 /\
    if String.eqb (Token c) "" then
      exists s1 resp1 retry,
        Do (service w)
          (login_http_request c {| Type_ := "Username"; Ident := username |}
             password)
        = (s1, inr resp1) /\
        retry =
          set_header tokenHeader (Header_Get tokenHeader (RespHeader resp1))
            (login_http_request c {| Type_ := "Username"; Ident := username |}
               password) /\
        token_of retry = Header_Get tokenHeader (RespHeader resp1) /\
        token_of retry <> "" /\
        sent w' =
          (sent w
           ++ [login_http_request c
                 {| Type_ := "Username"; Ident := username |} password;
               retry])%list
    else
      sent w' =
        (sent w
         ++ [set_header tokenHeader (Token c)
               (login_http_request c
                  {| Type_ := "Username"; Ident := username |} password)])%list.
Proof.
  intros Hserv Hurl Hfuel.
  destruct fuel as [|[|fuel]]; try lia.
  rewrite Login_eq, login_request_eq by assumption.
  set (r := login_http_request c _ password).
  set (a := {| User := None |}).
  assert (Htok : token_of (with_token c r) = Token c)
    by now apply token_of_with_token.
  destruct (String.eqb (Token c) "") eqn:E.
  - apply String.eqb_eq in E. rewrite E in Htok.
    assert (Hwire : with_token c r = r).
    { unfold with_token. now rewrite E. }
    destruct (requestAPI_rejected_without_token fuel c r a w Hserv Htok)
      as (c' & a' & errs & s1 & resp1 & s2 & HDo & Hrun).
    rewrite Hwire in HDo, Hrun.
    unfold bind at 1 2. rewrite Hrun. simpl.
    eexists _, _. split; [reflexivity|]. split; [reflexivity|].
    exists s1, resp1,
      (set_header tokenHeader (Header_Get tokenHeader (RespHeader resp1)) r).
    split; [exact HDo|]. split; [reflexivity|].
    assert (Hfresh : carries_token resp1).
    { destruct (Hserv (service w) r) as (s0 & resp0 & HDo0 & _ & Hfresh).
      rewrite HDo in HDo0. now injection HDo0 as _ <-. }
    assert (Htoken :
      token_of (set_header tokenHeader
                  (Header_Get tokenHeader (RespHeader resp1)) r)
      = Header_Get tokenHeader (RespHeader resp1))
      by apply Header_Get_Set_same.
    split; [exact Htoken|].
    split; [rewrite Htoken; exact Hfresh|].
    simpl. now rewrite <- app_assoc.
  - pose proof E as Hstored. apply String.eqb_neq in E. rewrite <- Htok in E.
    assert (Hwire : with_token c r = set_header tokenHeader (Token c) r).
    { unfold with_token. now rewrite Hstored. }
    assert (Hserv' : always_answers Do token_rejection).
    { intros s0 r0. destruct (Hserv s0 r0) as (s' & resp' & H1 & H2 & _).
      now exists s', resp'. }
    destruct (requestAPI_rejected_with_token (S fuel) c r a w Hserv' E)
      as (c' & a' & errs & s' & Hrun).
    unfold bind at 1 2. rewrite Hrun. simpl.
    eexists _, _. split; [reflexivity|]. split; [reflexivity|].
    now rewrite Hwire.
Qed.


(** Rejections that bring no token are retried for ever: whatever the
    fuel, [requestAPI] spends all of it on requests and does not return. *)
Lemma requestAPI_rejected_silently {T} `{apiResponse T}
    fuel c r (a : T) w :
  always_answers Do
    (fun resp => token_rejection resp /\ ~ carries_token resp) ->
  Token c = "" -> token_of r = "" ->
  exists w',
    requestAPI fuel c r a w = (OutOfFuel, w') /\
    length (sent w') = (length (sent w) + fuel)%nat.
Proof.
  intros Hserv Hc Hr. revert a w.
  induction fuel as [|fuel IH]; intros a w.
  - exists w. split; [reflexivity|lia].
  - assert (Hwire : with_token c r = r).
    { unfold with_token. now rewrite Hc. }
    destruct (Hserv (service w) (with_token c r))
      as (s1 & resp & HDo & Hrej & Hsilent).
    destruct (rejection_errors a resp Hrej)
      as (j & first & rest & Hbody & Hcode & Herrs).
    rewrite (requestAPI_errors _ c r a w s1 resp j first rest HDo Hbody Herrs).
    unfold retries. destruct Hrej as [Hstatus _].
    rewrite Hstatus, Hcode, Hwire, Hr.
    change ((403 =? 403) && (0 =? 0) && String.eqb "" "") with true.
    cbv iota.
    assert (Hlearn : learn_token c resp = c).
    { unfold learn_token.
      destruct (String.eqb (Header_Get tokenHeader (RespHeader resp)) "") eqn:E;
        [reflexivity|].
      apply String.eqb_neq in E. now elim Hsilent. }
    rewrite Hlearn.
    destruct (IH (Decode j a) (after_send w s1 r)) as (w' & Hrun & Hlen).
    exists w'. split; [exact Hrun|].
    rewrite Hlen. simpl. rewrite length_app. simpl. lia.
Qed.

Lemma Login_rejected_silently fuel c username password w :
  always_answers Do
    (fun resp => token_rejection resp /\ ~ carries_token resp) ->
  url_ok (or_default (LoginEndpoint c) DefaultLoginEndpoint) = true ->
  Token c = "" ->
  exists w',
    Login fuel c username password w = (OutOfFuel, w') /\
    length (sent w') = (length (sent w) + fuel)%nat.
Proof.
  intros Hserv Hurl Hc.
  rewrite Login_eq, login_request_eq by assumption.
  destruct (requestAPI_rejected_silently fuel c
              (login_http_request c {| Type_ := "Username"; Ident := username |} password)
              {| User := None; TwoStepVerificationData := None;
                 loginErrors := noErrors |} w Hserv Hc eq_refl)
    as (w' & Hrun & Hlen).
  exists w'. split; [|exact Hlen].
  unfold bind at 1 2. now rewrite Hrun.
Qed.


(** ** The two outcomes of a successful login *)

Lemma LoginCred_not_userid fuel c cred password :
  String.eqb (ToLower (Type_ cred)) "userid" = false ->
  LoginCred fuel c cred password =
    ('(cookies, step, err) <- login_request fuel c cred password ;;
     ret (cookies, step, wrap_err "login" err)).
Proof. intros Hkind. unfold Auth.LoginCred. now rewrite Hkind. Qed.

(** What [LoginCred] returns for a login response that reports success,
    the missing user of a second-factor response included. *)
Lemma LoginCred_success
    (c : Config) (cred : Cred) (password : string) (w : World Service)
    (fuel : nat) (s' : Service) (resp : Response) (j : JSON) :
  String.eqb (ToLower (Type_ cred)) "userid" = false ->
  url_ok (or_default (LoginEndpoint c) DefaultLoginEndpoint) = true ->
  Do (service w) (with_token c (login_http_request c cred password))
    = (s', inr resp) ->
  success resp j ->
  LoginCred (S fuel) c cred password w =
    (match or_keep (j_twoStepVerificationData j) None with
     | Some data =>
         match or_keep (j_user j) None with
         | Some u =>
             Done (RespCookies resp,
                   Some (step_of (learn_token c resp) u data), None)
         | None => Panic
         end
     | None => Done (RespCookies resp, None, None)
     end,
     after_send w s' (with_token c (login_http_request c cred password))).
Proof.
  intros Hkind Hurl HDo (Hstatus & Hbody & Herrs).
  rewrite LoginCred_not_userid, login_request_eq by assumption.
  set (a0 := {| User := None; TwoStepVerificationData := None;
                loginErrors := noErrors |}).
  assert (Hrun := requestAPI_no_errors fuel c
                    (login_http_request c cred password) a0 w s' resp j
                    HDo Hbody Herrs).
  rewrite (ifStatus_2XX _ _ Hstatus) in Hrun.
  unfold bind at 1 2. rewrite Hrun. cbn beta iota.
  change (TwoStepVerificationData (Decode j a0))
    with (or_keep (j_twoStepVerificationData j) None).
  change (User (Decode j a0)) with (or_keep (j_user j) None).
  destruct (or_keep (j_twoStepVerificationData j) None) as [data|];
    [|reflexivity].
  now destruct (or_keep (j_user j) None) as [u|].
Qed.



(** ** What [LoginCred] sends *)

(** The first request of [login_request] is the login request for the
    credential it is given, with the token of the configuration. *)
Lemma login_request_first_request fuel c cred password w res w' :
  url_ok (or_default (LoginEndpoint c) DefaultLoginEndpoint) = true ->
  login_request (S fuel) c cred password w = (res, w') ->
  exists more,
    sent w' =
      (sent w ++ with_token c (login_http_request c cred password) :: more)%list.
Proof.
  intros Hurl Hrun. rewrite login_request_eq in Hrun by assumption.
  unfold bind in Hrun.
  destruct (requestAPI (S fuel) c (login_http_request c cred password) _ w)
    as [r w1] eqn:Hreq.
  apply requestAPI_first_request in Hreq.
  destruct r as [[[c' a] [resp err]]| |].
  - destruct err as [e|]; [now inversion Hrun; subst|].
    destruct resp as [resp|]; [|now inversion Hrun; subst].
    destruct (TwoStepVerificationData a) as [data|];
      [|now inversion Hrun; subst].
    destruct (User a) as [u|]; now inversion Hrun; subst.
  - now inversion Hrun; subst.
  - now inversion Hrun; subst.
Qed.

(** The worlds of [bind m k] when [k] ends the call without sending. *)
Lemma wrap_login_world (m : M Service (list Cookie * option Step * option error))
    w res w' :
  ('(cookies, step, err) <- m ;; ret (cookies, step, wrap_err "login" err)) w
    = (res, w') ->
  exists res0, m w = (res0, w').
Proof.
  unfold bind. destruct (m w) as [r w1].
  destruct r as [[[cookies step] err]| |]; intros Hrun;
    inversion Hrun; subst; now eexists.
Qed.


Lemma wrap_login_run (m : M Service (list Cookie * option Step * option error))
    w res0 w' :
  m w = (res0, w') ->
  exists res,
    ('(cookies, step, err) <- m ;; ret (cookies, step, wrap_err "login" err)) w
      = (res, w').
Proof.
  intros Hm. unfold bind. rewrite Hm.
  destruct res0 as [[[cookies step] err]| |]; now eexists.
Qed.

Lemma URL_with_token c r : URL (with_token c r) = URL r.
Proof. unfold with_token. now destruct (negb _). Qed.

Lemma Method_with_token c r : Method (with_token c r) = Method r.
Proof. unfold with_token. now destruct (negb _). Qed.

Lemma Body_with_token c r : Body (with_token c r) = Body r.
Proof. unfold with_token. now destruct (negb _). Qed.

(** A UserID credential whose lookup returned [name]: the next request
    is the login request for the username [name]. *)
Lemma LoginCred_after_lookup fuel c cred password userID name w w1 :
  url_ok (or_default (LoginEndpoint c) DefaultLoginEndpoint) = true ->
  String.eqb (ToLower (Type_ cred)) "userid" = true ->
  ParseInt (Ident cred) = Some userID ->
  getUsername (S fuel) c userID w = (Done (name, None), w1) ->
  exists res w' more,
    LoginCred (S fuel) c cred password w = (res, w') /\
    sent w' =
      (sent w1 ++
       with_token c
         (login_http_request c {| Type_ := "Username"; Ident := name |}
            password) :: more)%list.
Proof.
  intros Hurl Hkind Hparse Hlookup.
  unfold Auth.LoginCred. rewrite Hkind, Hparse.
  destruct (login_request (S fuel) c
              {| Type_ := "Username"; Ident := name |} password w1)
    as [res1 w'] eqn:Hlogin.
  destruct (login_request_first_request _ _ _ _ _ _ _ Hurl Hlogin)
    as [more Hsent].
  assert (Hinner :
    ('(name0, err) <- getUsername (S fuel) c userID ;;
     match err with
     | Some e => ret ([], None, Some e)
     | None =>
         login_request (S fuel) c
           {| Type_ := "Username"; Ident := name0 |} password
     end) w = (res1, w')).
  { unfold bind. now rewrite Hlookup. }
  destruct (wrap_login_run _ _ _ _ Hinner) as [res Hres].
  now exists res, w', more.
Qed.

(** A credential of another kind: the first request is the login request
    for the credential as it is. *)
Lemma LoginCred_other_kind fuel c cred password w :
  url_ok (or_default (LoginEndpoint c) DefaultLoginEndpoint) = true ->
  String.eqb (ToLower (Type_ cred)) "userid" = false ->
  exists res w' more,
    LoginCred (S fuel) c cred password w = (res, w') /\
    sent w' =
      (sent w ++ with_token c (login_http_request c cred password) :: more)%list.
Proof.
  intros Hurl Hkind.
  rewrite LoginCred_not_userid by assumption.
  destruct (login_request (S fuel) c cred password w)
    as [res1 w'] eqn:Hlogin.
  destruct (login_request_first_request _ _ _ _ _ _ _ Hurl Hlogin)
    as [more Hsent].
  destruct (wrap_login_run _ _ _ _ Hlogin) as [res Hres].
  now exists res, w', more.
Qed.

(** A UserID credential whose identifier does not parse: the parse error,
    and the world is untouched. *)
Lemma LoginCred_unparsable fuel c cred password w :
  String.eqb (ToLower (Type_ cred)) "userid" = true ->
  ParseInt (Ident cred) = None ->
  LoginCred fuel c cred password w =
    (Done ([], None,
           Some (Wrapped "login"
                   (Wrapped "parse user ID" (NumError (Ident cred))))), w).
Proof.
  intros Hkind Hparse. unfold Auth.LoginCred. now rewrite Hkind, Hparse.
Qed.

(** C4.  For a credential whose type is made of ASCII bytes.  When the
    type is UserID (in any capitalization) and the identifier is not a
    64-bit integer, [LoginCred] fails with the parse error and nothing is
    sent; when the identifier parses and the lookup returns a name, the
    next request is the login request, whose body holds the type Username,
    that name and the password.  A credential of another type is sent as
    it is: the first request is the login request whose body holds its
    type, its identifier and the password. *)
Theorem userid_credential_resolution
    (c : Config) (cred : Cred) (password : string) (w : World Service)
    (fuel : nat) :
  ascii_only (Type_ cred) = true ->
  url_ok (or_default (LoginEndpoint c) DefaultLoginEndpoint) = true ->
  (1 <= fuel)%nat ->
  if String.eqb (ToLower (Type_ cred)) "userid" then
    match ParseInt (Ident cred) with
    | None =>
        exists e,
          LoginCred fuel c cred password w = (Done ([], None, Some e), w) /\
          root_cause e = NumError (Ident cred)
    | Some userID =>
        forall name w1,
          getUsername fuel c userID w = (Done (name, None), w1) ->
          exists res w' r more,
            LoginCred fuel c cred password w = (res, w') /\
            sent w' = (sent w1 ++ r :: more)%list /\
            Method r = "POST" /\
            URL r = or_default (LoginEndpoint c) DefaultLoginEndpoint /\
            Body r =
              LoginBody {| CredType := "Username"; CredValue := name;
                           Password := password;
                           CaptchaToken := ""; CaptchaProvider := "" |}
    end
  else
    exists res w' r more,
      LoginCred fuel c cred password w = (res, w') /\
      sent w' = (sent w ++ r :: more)%list /\
      Method r = "POST" /\
      URL r = or_default (LoginEndpoint c) DefaultLoginEndpoint /\
      Body r =
        LoginBody {| CredType := Type_ cred; CredValue := Ident cred;
                     Password := password;
                     CaptchaToken := ""; CaptchaProvider := "" |}.
Proof.
  intros _ Hurl Hfuel. destruct fuel as [|fuel]; [lia|].
  destruct (String.eqb (ToLower (Type_ cred)) "userid") eqn:Hkind.
  - destruct (ParseInt (Ident cred)) as [userID|] eqn:Hparse.
    + intros name w1 Hlookup.
      destruct (LoginCred_after_lookup fuel c cred password userID name w w1
                  Hurl Hkind Hparse Hlookup)
        as (res & w' & more & Hrun & Hsent).
      eexists res, w', _, more.
      split; [exact Hrun|]. split; [exact Hsent|]. split; [|split].
      * apply Method_with_token.
      * now rewrite URL_with_token.
      * now rewrite Body_with_token.
    + rewrite (LoginCred_unparsable _ c cred password w Hkind Hparse).
      eexists. split; reflexivity.
  - destruct (LoginCred_other_kind fuel c cred password w Hurl Hkind)
      as (res & w' & more & Hrun & Hsent).
    eexists res, w', _, more.
    split; [exact Hrun|]. split; [exact Hsent|]. split; [|split].
    + apply Method_with_token.
    + now rewrite URL_with_token.
    + now rewrite Body_with_token.
Qed.

(** ** [Step.Resend] *)

Lemma Resend_eq fuel s :
  url_ok (or_default (ResendEndpoint (cfg s)) DefaultResendEndpoint) = true ->
  Resend fuel s =
    ('(c, apiResp, (_, err)) <-
       requestAPI fuel (cfg s) (resend_http_request s)
         {| resendSent := {| SentMediaType := ""; SentTicket := "" |};
            resendErrors := noErrors |} ;;
     match err with
     | Some e => ret (set_cfg s c, Some e)
     | None =>
         ret ({| cfg := c;
                 req := {| ticketRequest :=
                             {| Username := Username (ticketRequest (req s));
                                Ticket := SentTicket (resendSent apiResp);
                                ActionType := ActionType (ticketRequest (req s)) |};
                           VerifyCode := VerifyCode (req s);
                           RememberDevice := RememberDevice (req s) |};
                 MediaType := SentMediaType (resendSent apiResp) |}, None)
     end).
Proof.
  intros Hurl. unfold Auth.Resend, NewRequest. rewrite Hurl. reflexivity.
Qed.




(** ** The configuration across [requestAPI] *)

Lemma set_Token_same c : set_Token c (Token c) = c.
Proof. now destruct c. Qed.

Lemma learn_token_is_set_Token c resp :
  learn_token c resp = set_Token c (Token (learn_token c resp)).
Proof.
  unfold learn_token. destruct (negb _); simpl; [reflexivity|].
  now rewrite set_Token_same.
Qed.

(** [requestAPI] changes nothing of the configuration but its token. *)
Lemma requestAPI_config_frame {T} `{apiResponse T}
    fuel c r (a : T) w c' a' out w' :
  requestAPI fuel c r a w = (Done (c', a', out), w') ->
  c' = set_Token c (Token c').
Proof.
  revert c r a w.
  induction fuel as [|fuel IH]; intros c r a w Hrun; [discriminate|].
  simpl in Hrun. unfold bind, client_Do in Hrun.
  destruct (Do (service w) (with_token c r)) as [s1 [err|resp]];
    simpl in Hrun.
  - inversion Hrun; subst. now rewrite set_Token_same.
  - destruct (RespBody resp) as [j|].
    + destruct (Errors (errResp (Decode j a))) as [|first rest].
      * inversion Hrun; subst. apply learn_token_is_set_Token.
      * destruct (_ && _).
        -- apply IH in Hrun. rewrite Hrun.
           rewrite (learn_token_is_set_Token c resp). reflexivity.
        -- inversion Hrun; subst. apply learn_token_is_set_Token.
    + inversion Hrun; subst. apply learn_token_is_set_Token.
Qed.

(** ** [Step.Verify] *)

Lemma Verify_eq fuel s code remember :
  url_ok (or_default (VerifyEndpoint (cfg s)) DefaultVerifyEndpoint) = true ->
  Verify fuel s code remember =
    ('(c, _, (resp, err)) <-
       requestAPI fuel (cfg s) (verify_http_request s code remember) noErrors ;;
     match err, resp with
     | Some e, _ => ret (set_cfg s c, ([], wrap_err "verify" (Some e)))
     | None, None => panic
     | None, Some resp => ret (set_cfg s c, (RespCookies resp, None))
     end).
Proof.
  intros Hurl. unfold Auth.Verify, NewRequest. rewrite Hurl. reflexivity.
Qed.

(** C9 (as amended).  Whatever [Verify] returns, the step afterwards is
    the step before with, at most, another token in its configuration:
    the pending request (username, ticket, action type, code, remember
    flag) and the media type are unchanged.  On a response that reports
    success it returns the cookies, and the token of the step is the one
    the response brought, if any. *)
Theorem verify_changes_only_the_token
    (s : Step) (code : string) (remember : bool) (w : World Service)
    (fuel : nat) :
  url_ok (or_default (VerifyEndpoint (cfg s)) DefaultVerifyEndpoint) = true ->
  (1 <= fuel)%nat ->
  (forall s' cookies err w',
      Verify fuel s code remember w = (Done (s', (cookies, err)), w') ->
      s' = set_cfg s (set_Token (cfg s) (Token (cfg s'))) /\
      req s' = req s /\ MediaType s' = MediaType s)
  /\
  (forall st' resp j,
      Do (service w) (with_token (cfg s) (verify_http_request s code remember))
        = (st', inr resp) ->
      success resp j ->
      Verify fuel s code remember w =
        (Done (set_cfg s (learn_token (cfg s) resp), (RespCookies resp, None)),
         after_send w st'
           (with_token (cfg s) (verify_http_request s code remember)))).
Proof.
  intros Hurl Hfuel. split.
  - intros s' cookies err w'. rewrite Verify_eq by assumption.
    unfold bind.
    destruct (requestAPI fuel (cfg s) _ noErrors w) as [r w1] eqn:Hreq.
    destruct r as [[[c a] [resp e]]| |]; try discriminate.
    apply requestAPI_config_frame in Hreq.
    destruct e as [e|]; [|destruct resp as [resp|]; [|discriminate]];
      intros Hrun; inversion Hrun; subst; simpl;
      (split; [now rewrite <- Hreq|now split]).
  - intros st' resp j HDo (Hstatus & Hbody & Herrs).
    destruct fuel as [|fuel]; [lia|].
    rewrite Verify_eq by assumption.
    assert (Hrun := requestAPI_no_errors fuel (cfg s)
                      (verify_http_request s code remember) noErrors
                      w st' resp j HDo Hbody Herrs).
    rewrite (ifStatus_2XX _ _ Hstatus) in Hrun.
    unfold bind. rewrite Hrun. reflexivity.
Qed.

(** ** [getUsername] *)

Lemma getUsername_eq fuel c userID :
  url_ok (Sprintf (or_default (UserIDEndpoint c) DefaultUserIDEndpoint) userID)
    = true ->
  getUsername fuel c userID =
    ('(_, apiResp, (_, err)) <-
       requestAPI fuel c (lookup_http_request Sprintf c userID)
         {| RespUsername := ""; usernameErrors := noErrors |} ;;
     match err with
     | Some e => ret ("", wrap_err "user from ID" (Some e))
     | None => ret (RespUsername apiResp, None)
     end).
Proof.
  intros Hurl. unfold Auth.getUsername, NewRequest. rewrite Hurl.
  reflexivity.
Qed.

(** The first request of [getUsername] is the lookup request, with the
    stored token as its token header. *)
Lemma getUsername_first_request fuel c userID w res w' :
  url_ok (Sprintf (or_default (UserIDEndpoint c) DefaultUserIDEndpoint) userID)
    = true ->
  getUsername (S fuel) c userID w = (res, w') ->
  exists more,
    sent w' =
      (sent w ++ with_token c (lookup_http_request Sprintf c userID) :: more)%list.
Proof.
  intros Hurl Hrun. rewrite getUsername_eq in Hrun by assumption.
  unfold bind in Hrun.
  destruct (requestAPI (S fuel) c (lookup_http_request Sprintf c userID) _ w)
    as [r w1] eqn:Hreq.
  apply requestAPI_first_request in Hreq.
  destruct r as [[[c' a] [resp err]]| |].
  - destruct err as [e|]; now inversion Hrun; subst.
  - now inversion Hrun; subst.
  - now inversion Hrun; subst.
Qed.


(** C7 (as amended).  The lookup goes through [requestAPI]: its request
    carries the stored token as its token header (none when the stored
    token is empty).  What a lookup response brings stays in the copy of
    the configuration that [getUsername] works on: the login request that
    follows a lookup still carries the token of the caller's
    configuration. *)
Theorem lookup_reads_but_does_not_write_token
    (c : Config) (userID : Z) (w : World Service) (fuel : nat) :
  url_ok (Sprintf (or_default (UserIDEndpoint c) DefaultUserIDEndpoint) userID)
    = true ->
  (1 <= fuel)%nat ->
  (forall res w',
      getUsername fuel c userID w = (res, w') ->
      exists r more,
        sent w' = (sent w ++ r :: more)%list /\
        Method r = "GET" /\
        URL r = Sprintf (or_default (UserIDEndpoint c) DefaultUserIDEndpoint)
                  userID /\
        token_of r = Token c)
  /\
  (forall cred password name w1,
      url_ok (or_default (LoginEndpoint c) DefaultLoginEndpoint) = true ->
      String.eqb (ToLower (Type_ cred)) "userid" = true ->
      ParseInt (Ident cred) = Some userID ->
      getUsername fuel c userID w = (Done (name, None), w1) ->
      exists res w' r more,
        LoginCred fuel c cred password w = (res, w') /\
        sent w' = (sent w1 ++ r :: more)%list /\
        Body r = login_payload {| Type_ := "Username"; Ident := name |}
                   password /\
        token_of r = Token c).
Proof.
  intros Hurl Hfuel. destruct fuel as [|fuel]; [lia|]. split.
  - intros res w' Hrun.
    destruct (getUsername_first_request _ _ _ _ _ _ Hurl Hrun)
      as [more Hsent].
    eexists _, more. split; [exact Hsent|].
    split; [unfold with_token; now destruct (negb _)|].
    split; [now rewrite URL_with_token|].
    now apply token_of_with_token.
  - intros cred password name w1 Hlogin Hkind Hparse Hlookup.
    destruct (LoginCred_after_lookup fuel c cred password userID name w w1
                Hlogin Hkind Hparse Hlookup)
      as (res & w' & more & Hrun & Hsent).
    eexists res, w', _, more.
    split; [exact Hrun|]. split; [exact Hsent|].
    split; [now rewrite Body_with_token|].
    now apply token_of_with_token.
Qed.


(** ** Status errors *)

Lemma Logout_eq fuel c cookies :
  url_ok (or_default (LogoutEndpoint c) DefaultLogoutEndpoint) = true ->
  Logout fuel c cookies =
    ('(_, _, (_, err)) <-
       requestAPI fuel c (logout_http_request c cookies) noErrors ;;
     ret (wrap_err "logout" err)).
Proof.
  intros Hurl. unfold Auth.Logout, NewRequest. rewrite Hurl. reflexivity.
Qed.

(** A first response without API errors and with a status outside 2XX:
    [requestAPI] returns a status error that carries the status. *)
Lemma requestAPI_status_outside_2XX {T} `{apiResponse T}
    fuel c r (a : T) w st' resp :
  Do (service w) (with_token c r) = (st', inr resp) ->
  Errors (errResp a) = [] ->
  carries_no_errors resp ->
  ~ 200 <= StatusCode resp < 300 ->
  exists a' resp' inner,
    requestAPI (S fuel) c r a w =
      (Done (learn_token c resp, a',
             (resp', Some (StatusErr (StatusCode resp) inner))),
       after_send w st' (with_token c r)).
Proof.
  intros HDo Ha [Hbody | (j & Hbody & Herrs)] Hstatus.
  - rewrite (requestAPI_undecodable fuel c r a w st' resp HDo Hbody).
    rewrite (ifStatus_not_2XX _ _ Hstatus). now eexists _, _, _.
  - assert (Hnone : Errors (errResp (Decode j a)) = []).
    { rewrite Decode_errResp, Ha. exact Herrs. }
    rewrite (requestAPI_no_errors fuel c r a w st' resp j HDo Hbody Hnone).
    rewrite (ifStatus_not_2XX _ _ Hstatus). now eexists _, _, _.
Qed.

(** A first response with a 2XX status: whatever [requestAPI] returns, it
    is not a status error. *)
Lemma requestAPI_status_2XX {T} `{apiResponse T}
    fuel c r (a : T) w st' resp :
  Do (service w) (with_token c r) = (st', inr resp) ->
  200 <= StatusCode resp < 300 ->
  exists a' resp' err,
    requestAPI (S fuel) c r a w =
      (Done (learn_token c resp, a', (resp', err)),
       after_send w st' (with_token c r)) /\
    forall e, err = Some e -> status_code_of e = None.
Proof.
  intros HDo Hstatus.
  destruct (RespBody resp) as [j|] eqn:Hbody.
  - destruct (Errors (errResp (Decode j a))) as [|first rest] eqn:Herrs.
    + rewrite (requestAPI_no_errors fuel c r a w st' resp j HDo Hbody Herrs).
      rewrite (ifStatus_2XX _ _ Hstatus).
      eexists _, _, _. split; [reflexivity|]. discriminate.
    + rewrite (requestAPI_errors fuel c r a w st' resp j first rest
                 HDo Hbody Herrs).
      assert (Hno : retries resp first (with_token c r) = false).
      { unfold retries.
        destruct (StatusCode resp =? 403) eqn:E; [|reflexivity].
        apply Z.eqb_eq in E. lia. }
      rewrite Hno, (ifStatus_2XX _ _ Hstatus).
      eexists _, _, _. split; [reflexivity|].
      intros e He. now inversion He.
  - rewrite (requestAPI_undecodable fuel c r a w st' resp HDo Hbody).
    rewrite (ifStatus_2XX _ _ Hstatus).
    eexists _, _, _. split; [reflexivity|].
    intros e He. now inversion He.
Qed.


(** The five operations on a first response without API errors and with
    a status outside 2XX: each returns an error that carries the status. *)
Lemma operations_status_outside_2XX
    (c : Config) (s : Step) (cred : Cred) (password code : string)
    (remember : bool) (cookies : list Cookie) (userID : Z)
    (w : World Service) (fuel : nat) (st' : Service) (resp : Response) :
  String.eqb (ToLower (Type_ cred)) "userid" = false ->
  (forall url, url_ok url = true) ->
  (forall r, Do (service w) r = (st', inr resp)) ->
  carries_no_errors resp ->
  ~ 200 <= StatusCode resp < 300 ->
  (exists e w',
      LoginCred (S fuel) c cred password w = (Done ([], None, Some e), w') /\
      status_code_of e = Some (StatusCode resp))
  /\
  (exists e w',
      Logout (S fuel) c cookies w = (Done (Some e), w') /\
      status_code_of e = Some (StatusCode resp))
  /\
  (exists s' e w',
      Verify (S fuel) s code remember w = (Done (s', ([], Some e)), w') /\
      status_code_of e = Some (StatusCode resp))
  /\
  (exists s' e w',
      Resend (S fuel) s w = (Done (s', Some e), w') /\
      status_code_of e = Some (StatusCode resp))
  /\
  (exists e w',
      getUsername (S fuel) c userID w = (Done ("", Some e), w') /\
      status_code_of e = Some (StatusCode resp)).
Proof.
  intros Hkind Hurl HDo Hbody Hstatus.
  repeat split.
  - rewrite LoginCred_not_userid, login_request_eq by auto.
    assert (Hx := requestAPI_status_outside_2XX fuel c
                (login_http_request c cred password)
                {| User := None; TwoStepVerificationData := None;
                   loginErrors := noErrors |} w st' resp
                (HDo _)).
    destruct (Hx eq_refl Hbody Hstatus) as (a' & resp' & inner & Hrun).
    unfold bind at 1 2. rewrite Hrun. now eexists _, _.
  - rewrite Logout_eq by auto.
    assert (Hx := requestAPI_status_outside_2XX fuel c
                (logout_http_request c cookies) noErrors w st' resp
                (HDo _)).
    destruct (Hx eq_refl Hbody Hstatus) as (a' & resp' & inner & Hrun).
    unfold bind. rewrite Hrun. now eexists _, _.
  - rewrite Verify_eq by auto.
    assert (Hx := requestAPI_status_outside_2XX fuel (cfg s)
                (verify_http_request s code remember) noErrors w st' resp
                (HDo _)).
    destruct (Hx eq_refl Hbody Hstatus) as (a' & resp' & inner & Hrun).
    unfold bind. rewrite Hrun. now eexists _, _, _.
  - rewrite Resend_eq by auto.
    assert (Hx := requestAPI_status_outside_2XX fuel (cfg s)
                (resend_http_request s)
                {| resendSent := {| SentMediaType := ""; SentTicket := "" |};
                   resendErrors := noErrors |} w st' resp
                (HDo _)).
    destruct (Hx eq_refl Hbody Hstatus) as (a' & resp' & inner & Hrun).
    unfold bind. rewrite Hrun. now eexists _, _, _.
  - rewrite getUsername_eq by auto.
    assert (Hx := requestAPI_status_outside_2XX fuel c
                (lookup_http_request Sprintf c userID)
                {| RespUsername := ""; usernameErrors := noErrors |}
                w st' resp (HDo _)).
    destruct (Hx eq_refl Hbody Hstatus) as (a' & resp' & inner & Hrun).
    unfold bind. rewrite Hrun. now eexists _, _.
Qed.

(** The five operations on a first response with a 2XX status: no error
    they return carries a status. *)
Lemma operations_status_2XX
    (c : Config) (s : Step) (cred : Cred) (password code : string)
    (remember : bool) (cookies : list Cookie) (userID : Z)
    (w : World Service) (fuel : nat) (st' : Service) (resp : Response) :
  String.eqb (ToLower (Type_ cred)) "userid" = false ->
  (forall url, url_ok url = true) ->
  (forall r, Do (service w) r = (st', inr resp)) ->
  200 <= StatusCode resp < 300 ->
  (forall cs step e w',
      LoginCred (S fuel) c cred password w = (Done (cs, step, Some e), w') ->
      status_code_of e = None)
  /\
  (forall e w',
      Logout (S fuel) c cookies w = (Done (Some e), w') ->
      status_code_of e = None)
  /\
  (forall s' cs e w',
      Verify (S fuel) s code remember w = (Done (s', (cs, Some e)), w') ->
      status_code_of e = None)
  /\
  (forall s' e w',
      Resend (S fuel) s w = (Done (s', Some e), w') ->
      status_code_of e = None)
  /\
  (forall name e w',
      getUsername (S fuel) c userID w = (Done (name, Some e), w') ->
      status_code_of e = None).
Proof.
  intros Hkind Hurl HDo Hstatus.
  repeat split.
  - intros cs step e w'.
    rewrite LoginCred_not_userid, login_request_eq by auto.
    destruct (requestAPI_status_2XX fuel c
                (login_http_request c cred password)
                {| User := None; TwoStepVerificationData := None;
                   loginErrors := noErrors |} w st' resp (HDo _) Hstatus)
      as (a' & resp' & err & Hrun & Hnone).
    unfold bind at 1 2. rewrite Hrun. cbn beta iota.
    destruct err as [e0|].
    + intros H. inversion H; subst. simpl. now apply Hnone.
    + destruct resp' as [resp'|]; [|discriminate].
      destruct (TwoStepVerificationData a') as [data|];
        [destruct (User a') as [u|]|]; discriminate.
  - intros e w'. rewrite Logout_eq by auto.
    destruct (requestAPI_status_2XX fuel c
                (logout_http_request c cookies) noErrors w st' resp
                (HDo _) Hstatus)
      as (a' & resp' & err & Hrun & Hnone).
    unfold bind. rewrite Hrun. cbn beta iota.
    destruct err as [e0|]; [|discriminate].
    intros H. inversion H; subst. simpl. now apply Hnone.
  - intros s' cs e w'. rewrite Verify_eq by auto.
    destruct (requestAPI_status_2XX fuel (cfg s)
                (verify_http_request s code remember) noErrors w st' resp
                (HDo _) Hstatus)
      as (a' & resp' & err & Hrun & Hnone).
    unfold bind. rewrite Hrun. cbn beta iota.
    destruct err as [e0|].
    + intros H. inversion H; subst. simpl. now apply Hnone.
    + destruct resp' as [resp'|]; discriminate.
  - intros s' e w'. rewrite Resend_eq by auto.
    destruct (requestAPI_status_2XX fuel (cfg s)
                (resend_http_request s)
                {| resendSent := {| SentMediaType := ""; SentTicket := "" |};
                   resendErrors := noErrors |} w st' resp (HDo _) Hstatus)
      as (a' & resp' & err & Hrun & Hnone).
    unfold bind. rewrite Hrun. cbn beta iota.
    destruct err as [e0|]; [|discriminate].
    intros H. inversion H; subst. now apply Hnone.
  - intros name e w'. rewrite getUsername_eq by auto.
    destruct (requestAPI_status_2XX fuel c
                (lookup_http_request Sprintf c userID)
                {| RespUsername := ""; usernameErrors := noErrors |}
                w st' resp (HDo _) Hstatus)
      as (a' & resp' & err & Hrun & Hnone).
    unfold bind. rewrite Hrun. cbn beta iota.
    destruct err as [e0|]; [|discriminate].
    intros H. inversion H; subst. simpl. now apply Hnone.
Qed.

(** [LoginCred] tells a UserID credential by its kind up to case: every
    capitalization of "userid" is parsed and resolved, every other kind is
    sent to the login endpoint as it is. *)
Lemma LoginCred_kind_up_to_case
    (c : Config) (cred : Cred) (password : string) (w : World Service)
    (fuel : nat) :
  url_ok (or_default (LoginEndpoint c) DefaultLoginEndpoint) = true ->
  (capitalization "userid" (Type_ cred) ->
   match ParseInt (Ident cred) with
   | None =>
       LoginCred (S fuel) c cred password w =
         (Done ([], None,
                Some (Wrapped "login"
                        (Wrapped "parse user ID" (NumError (Ident cred))))),
          w)
   | Some userID =>
       forall name w1,
         getUsername (S fuel) c userID w = (Done (name, None), w1) ->
         exists res w' more,
           LoginCred (S fuel) c cred password w = (res, w') /\
           sent w' =
             (sent w1 ++
              with_token c
                (login_http_request c
                   {| Type_ := "Username"; Ident := name |} password)
              :: more)%list
   end)
  /\
  (~ capitalization "userid" (Type_ cred) ->
   exists res w' more,
     LoginCred (S fuel) c cred password w = (res, w') /\
     sent w' =
       (sent w ++ with_token c (login_http_request c cred password) :: more)%list).
Proof.
  intros Hurl. split.
  - intros Hcap. apply userid_kind_iff in Hcap.
    destruct (ParseInt (Ident cred)) as [userID|] eqn:Hparse.
    + intros name w1 Hlookup.
      now apply (LoginCred_after_lookup fuel c cred password userID name w w1).
    + now apply LoginCred_unparsable.
  - intros Hcap.
    apply LoginCred_other_kind; [assumption|].
    destruct (String.eqb (ToLower (Type_ cred)) "userid") eqn:E;
      [|reflexivity].
    now apply userid_kind_iff in E.
Qed.

End Facts.

End AuthFacts.

(* ================================================================== *)
(** * The current client on stub services *)
(* ================================================================== *)

Module AuthExamples.
Import GoLib Models Net Auth Props AuthFacts.

Lemma constant_always_answers (resp : Response) (P : Response -> Prop) :
  P resp -> always_answers (Stub.constant resp) P.
Proof. intros HP s r. now exists (S s), resp. Qed.

Lemma rejection_is_token_rejection token :
  token_rejection (Stub.rejection token).
Proof.
  split; [reflexivity|].
  now exists (Stub.json (Some [Stub.code0])), Stub.code0, [].
Qed.

(** Witness of [login_token_retry_bound]: a stub that rejects every
    request and hands out the token T1, a fresh configuration. *)
Lemma login_token_retry_bound_witness :
  exists e w',
    Login (Stub.constant (Stub.rejection "T1")) Stub.any_url Stub.sprintf
      2 (Stub.config "") "alice" "pw" Stub.start
    = (Done ([], None, Some e), w') /\
    status_code_of e = Some 403 /\
    exists s1 resp1 retry,
      Stub.constant (E := error) (Stub.rejection "T1") (service Stub.start)
        (login_http_request (Stub.config "")
           {| Type_ := "Username"; Ident := "alice" |} "pw")
      = (s1, inr resp1) /\
      retry =
        set_header tokenHeader (Header_Get tokenHeader (RespHeader resp1))
          (login_http_request (Stub.config "")
             {| Type_ := "Username"; Ident := "alice" |} "pw") /\
      token_of retry = Header_Get tokenHeader (RespHeader resp1) /\
      token_of retry <> "" /\
      sent w' =
        (sent Stub.start
         ++ [login_http_request (Stub.config "")
               {| Type_ := "Username"; Ident := "alice" |} "pw";
             retry])%list.
Proof.
  apply (login_token_retry_bound nat (Stub.constant (Stub.rejection "T1"))
           Stub.any_url Stub.sprintf (Stub.config "") "alice" "pw"
           Stub.start 2).
  - intros s r. exists (S s), (Stub.rejection "T1").
    split; [reflexivity|]. split.
    + split; [reflexivity|].
      exists (Stub.json (Some [Stub.code0])), Stub.code0, [].
      repeat split; reflexivity.
    + unfold carries_token. simpl. discriminate.
  - reflexivity.
  - lia.
Defined.

(** C1 (counterexample).  The endpoint answers 403 with code 0 every time,
    and [Login] does not make exactly two attempts: with a token already
    stored it gives up after one request; with rejections that bring no
    token it has not returned after three requests. *)
Lemma login_retry_bound_counterexample :
  (exists e w',
      Login (Stub.constant (Stub.rejection "T1")) Stub.any_url Stub.sprintf
        5 (Stub.config "T0") "alice" "pw" Stub.start
      = (Done ([], None, Some e), w') /\
      length (sent w') = 1%nat)
  /\
  (exists w',
      Login (Stub.constant (Stub.rejection "")) Stub.any_url Stub.sprintf
        3 (Stub.config "") "alice" "pw" Stub.start
      = (OutOfFuel, w') /\
      length (sent w') = 3%nat).
Proof.
  split.
  - eexists _, _. split; [vm_compute; reflexivity|reflexivity].
  - eexists. split; [vm_compute; reflexivity|reflexivity].
Qed.

(** The second half of the counterexample holds for every amount of fuel:
    the call never returns. *)
Lemma login_silent_rejection_never_returns (fuel : nat) :
  exists w',
    Login (Stub.constant (Stub.rejection "")) Stub.any_url Stub.sprintf
      fuel (Stub.config "") "alice" "pw" Stub.start
    = (OutOfFuel, w') /\
    length (sent w') = fuel.
Proof.
  apply (Login_rejected_silently nat (Stub.constant (Stub.rejection ""))
           Stub.any_url Stub.sprintf fuel (Stub.config "") "alice" "pw"
           Stub.start); try reflexivity.
  apply constant_always_answers. split.
  - apply rejection_is_token_rejection.
  - unfold carries_token. simpl. congruence.
Qed.



(** C3 (the code at the failing input).  [Login] is called twice on the
    caller's configuration [c], which holds no token.  The first call is
    rejected, learns T1, retries with it and succeeds; the token stays in
    the method's copy of the configuration.  The second call on [c] starts
    without a token again. *)
Theorem login_leaves_caller_token_unset :
  let c := Stub.config "" in
  let session := [Stub.cookie ".ROBLOSECURITY" "session"] in
  exists w1 w2,
    Login Stub.token_then_success Stub.any_url Stub.sprintf 2 c "alice" "pw"
      Stub.start = (Done (session, None, None), w1) /\
    map token_of (sent w1) = [""; "T1"] /\
    Token c = "" /\
    Login Stub.token_then_success Stub.any_url Stub.sprintf 2 c "alice" "pw"
      w1 = (Done (session, None, None), w2) /\
    map token_of (sent w2) = [""; "T1"; ""; "T2"].
Proof.
  eexists _, _.
  split; [vm_compute; reflexivity|].
  split; [reflexivity|].
  split; [reflexivity|].
  split; [vm_compute; reflexivity|reflexivity].
Qed.

(** When the accepted retry has a body without the key "errors", the
    errors decoded from the rejection are still in [apiResp], and
    [requestAPI] returns them: the login is reported as failed. *)
Lemma login_retry_reports_stale_errors :
  exists e w',
    Login
      (Stub.scripted [Stub.rejection "T1"; Stub.ok Stub.logged_in_body]
         (Stub.rejection ""))
      Stub.any_url Stub.sprintf 2 (Stub.config "") "alice" "pw" Stub.start
    = (Done ([], None, Some e), w') /\
    root_cause e = APIErrors {| Errors := [Stub.code0] |} /\
    map token_of (sent w') = [""; "T1"].
Proof.
  eexists _, _. split; [vm_compute; reflexivity|]. split; reflexivity.
Qed.

(** Witness of [userid_credential_resolution]: the credential
    {UserID, "123"} against a lookup that returns alice. *)
Lemma userid_credential_resolution_witness :
  exists res w' r more,
    LoginCred Stub.lookup_then_login Stub.any_url Stub.sprintf 1
      (Stub.config "") Stub.userid_cred "pw" Stub.start = (res, w') /\
    sent w' =
      (sent (snd (getUsername Stub.lookup_then_login Stub.any_url Stub.sprintf 1
                    (Stub.config "") 123 Stub.start)) ++ r :: more)%list /\
    Method r = "POST" /\
    URL r = DefaultLoginEndpoint /\
    Body r =
      LoginBody {| CredType := "Username"; CredValue := "alice";
                   Password := "pw";
                   CaptchaToken := ""; CaptchaProvider := "" |}.
Proof.
  exact (userid_credential_resolution nat Stub.lookup_then_login Stub.any_url
           Stub.sprintf (Stub.config "") Stub.userid_cred "pw" Stub.start 1
           eq_refl eq_refl (le_n 1) "alice" _ eq_refl).
Defined.



(** Witness of [lookup_reads_but_does_not_write_token]: a lookup with the
    token T0 stored. *)
Lemma lookup_reads_but_does_not_write_token_witness :
  exists r more,
    sent (snd (getUsername Stub.lookup_then_login Stub.any_url Stub.sprintf 1
                 (Stub.config "T0") 123 Stub.start))
    = (sent Stub.start ++ r :: more)%list /\
    Method r = "GET" /\
    URL r = Stub.sprintf DefaultUserIDEndpoint 123 /\
    token_of r = "T0".
Proof.
  destruct (lookup_reads_but_does_not_write_token nat Stub.lookup_then_login
              Stub.any_url Stub.sprintf (Stub.config "T0") 123 Stub.start 1
              eq_refl (le_n 1))
    as (Hreads & _).
  apply (Hreads (fst (getUsername Stub.lookup_then_login Stub.any_url Stub.sprintf
                        1 (Stub.config "T0") 123 Stub.start))).
  reflexivity.
Defined.

(** C7 (counterexample).  With the token T0 stored, the lookup request
    carries T0 as its token header. *)
Lemma lookup_sends_token_counterexample :
  map token_of
    (sent (snd (getUsername Stub.lookup_then_login Stub.any_url Stub.sprintf 1
                  (Stub.config "T0") 123 Stub.start)))
  = ["T0"].
Proof. reflexivity. Qed.

(** The token L1 that the lookup response brings is not in the login
    request that follows. *)
Lemma lookup_token_is_dropped :
  map token_of
    (sent (snd (LoginCred Stub.lookup_then_login Stub.any_url Stub.sprintf 1
                  (Stub.config "") Stub.userid_cred "pw" Stub.start)))
  = [""; ""].
Proof. reflexivity. Qed.

(** Witness of [verify_changes_only_the_token]: a verification that is
    accepted, with the token T9 on the response. *)
Lemma verify_changes_only_the_token_witness :
  Verify (Stub.constant (Stub.ok_with_token "T9" (Stub.json None)))
    Stub.any_url 1 Stub.pending_step "123456" true Stub.start
  = (Done (set_cfg Stub.pending_step (Stub.config "T9"),
           ([Stub.cookie ".ROBLOSECURITY" "session"], None)),
     after_send Stub.start 1%nat
       (verify_http_request Stub.pending_step "123456" true)).
Proof.
  destruct (verify_changes_only_the_token nat
              (Stub.constant (Stub.ok_with_token "T9" (Stub.json None)))
              Stub.any_url Stub.pending_step "123456" true Stub.start 1
              eq_refl (le_n 1))
    as (_ & Hsuccess).
  apply (Hsuccess 1%nat (Stub.ok_with_token "T9" (Stub.json None))
           (Stub.json None)).
  - reflexivity.
  - split; [simpl; lia|]. split; reflexivity.
Defined.

(** C9 (counterexample).  The verify response brings the token T9: the
    step after [Verify] is not the step before, its configuration now
    holds T9. *)
Lemma verify_changes_step_counterexample :
  exists s' cookies w',
    Verify (Stub.constant (Stub.ok_with_token "T9" (Stub.json None)))
      Stub.any_url 1 Stub.pending_step "123456" true Stub.start
    = (Done (s', (cookies, None)), w') /\
    Token (cfg Stub.pending_step) = "" /\
    Token (cfg s') = "T9" /\
    s' <> Stub.pending_step.
Proof.
  eexists _, _, _. split; [vm_compute; reflexivity|].
  split; [reflexivity|]. split; [reflexivity|]. discriminate.
Qed.

End AuthExamples.

(* ================================================================== *)
(** * Facts about the older copies of the client *)
(* ================================================================== *)

Module LegacyFacts.
Import GoLib Models Net Net.Notations.

(** The status test of the older copies asks for a code that is below 200
    and at least 300 at once: it never fires. *)
Lemma status_rejected_never (code : Z) :
  LegacyA.status_rejected code = false.
Proof.
  unfold LegacyA.status_rejected.
  destruct (code <? 200) eqn:E1; [|reflexivity].
  destruct (code >=? 300) eqn:E2; [|reflexivity].
  apply Z.ltb_lt in E1. rewrite Z.geb_le in E2. lia.
Qed.

(** No lower-cased string is "UserID": its first byte would be the
    upper-case letter U. *)
Lemma lower_byte_not_U (b : ascii) : lower_byte b <> "U"%char.
Proof.
  unfold lower_byte.
  destruct (Nat.leb 65 (nat_of_ascii b) && Nat.leb (nat_of_ascii b) 90)%bool
    eqn:E.
  - apply andb_true_iff in E. destruct E as [E1 E2].
    apply Nat.leb_le in E1, E2. intros H.
    apply (f_equal nat_of_ascii) in H.
    rewrite nat_ascii_embedding in H by lia.
    change (nat_of_ascii "U") with 85%nat in H. lia.
  - intros H. subst b. discriminate.
Qed.

Lemma ToLower_never_UserID (s : string) :
  String.eqb (ToLower s) "UserID" = false.
Proof.
  apply String.eqb_neq. destruct s as [|b s]; simpl; [discriminate|].
  intros H. injection H as Hb _. now apply lower_byte_not_U in Hb.
Qed.

Section Facts.

Variable Service : Type.
Variable Do : Transport Service LegacyA.error.
Variable url_ok : string -> bool.
Variable FormatInt : Z -> string.

(** The second older copy never resolves a credential: whatever the
    credential, it behaves as the first copy does on its type and value. *)
Lemma LegacyB_LoginCred_never_resolves
    (cfg : LegacyA.Config) (cred : Cred) (password : string) :
  LegacyB.LoginCred Do url_ok FormatInt cfg cred password =
  LegacyA.LoginCred Do url_ok cfg (Type_ cred) (Ident cred) password.
Proof.
  unfold LegacyB.LoginCred, LegacyA.LoginCred.
  rewrite ToLower_never_UserID. reflexivity.
Qed.

(** Once the body of the response decodes, no operation of the first
    older copy looks at the status any more: whatever the status code,
    each returns without an error. *)
Lemma LegacyA_operations_ignore_status
    (cfg : LegacyA.Config) (s : LegacyA.Step)
    (credType value password code : string) (remember : bool)
    (cookies : list Cookie) (userID : Z)
    (w : World Service) (st' : Service) (resp : Response) (j : JSON) :
  (forall url, url_ok url = true) ->
  (forall r, Do (service w) r = (st', inr resp)) ->
  RespBody resp = Some j ->
  (exists w',
      LegacyA.LoginCred Do url_ok cfg credType value password w
      = (Done (RespCookies resp, None, None), w'))
  /\
  (exists w', LegacyA.Logout Do url_ok cfg cookies w = (Done None, w'))
  /\
  (exists w',
      LegacyA.Verify Do url_ok s code remember w
      = (Done (RespCookies resp, None), w'))
  /\
  (exists w', LegacyA.Resend Do url_ok s w = (Done None, w'))
  /\
  (exists w',
      LegacyA.getUsername Do url_ok FormatInt (LegacyA.Host cfg) userID w
      = (Done (or_keep (j_Username j) "", None), w')).
Proof.
  intros Hurl HDo Hbody. repeat split.
  - unfold LegacyA.LoginCred, LegacyA.NewRequest. rewrite Hurl.
    unfold bind, client_Do. rewrite HDo. simpl. rewrite Hbody. simpl.
    rewrite status_rejected_never. now eexists.
  - unfold LegacyA.Logout, LegacyA.NewRequest. rewrite Hurl.
    unfold bind, LegacyA.send_for_errors, bind, client_Do. rewrite HDo.
    simpl. rewrite Hbody. simpl. rewrite status_rejected_never.
    now eexists.
  - unfold LegacyA.Verify, LegacyA.NewRequest. rewrite Hurl.
    unfold bind, LegacyA.send_for_errors, bind, client_Do. rewrite HDo.
    simpl. rewrite Hbody. simpl. rewrite status_rejected_never.
    now eexists.
  - unfold LegacyA.Resend, LegacyA.NewRequest. rewrite Hurl.
    unfold bind, LegacyA.send_for_errors, bind, client_Do. rewrite HDo.
    simpl. rewrite Hbody. simpl. rewrite status_rejected_never.
    now eexists.
  - unfold LegacyA.getUsername, LegacyA.NewRequest. rewrite Hurl.
    unfold bind, client_Do. rewrite HDo. simpl. rewrite Hbody. simpl.
    rewrite status_rejected_never. now eexists.
Qed.

End Facts.

(** C6 (the code at the failing input).  The login endpoint answers 500
    with a body that carries no API errors, and [LoginCred] of the older
    copy returns no error at all: it reports a login without cookies. *)
Theorem legacy_login_ignores_status :
  exists w',
    LegacyA.LoginCred (Stub.constant Stub.server_error) Stub.any_url
      {| LegacyA.Host := "" |} "Username" "alice" "pw" Stub.start
    = (Done ([], None, None), w') /\
    map URL (sent w') = ["https://auth.roblox.com/v2/login"].
Proof. eexists. split; [vm_compute; reflexivity|reflexivity]. Qed.

(** C10 (the code at the failing input).  [LoginCred] of the second older
    copy is given the credential of kind "UserID" with an identifier that
    is not a number, against a login endpoint that accepts every request.
    Nothing is parsed or looked up: no parse error is returned, the one
    request that is sent goes to the login endpoint, and the login is
    reported as done.  (The body of that request is the empty object:
    the request struct of the older copies has no exported field.) *)
Theorem legacy_login_forwards_userid :
  exists w',
    LegacyB.LoginCred (Stub.constant (Stub.ok Stub.logged_in_body))
      Stub.any_url Stub.show_id {| LegacyA.Host := "" |}
      {| Type_ := "UserID"; Ident := "abc" |} "pw" Stub.start
    = (Done ([Stub.cookie ".ROBLOSECURITY" "session"], None, None), w') /\
    ParseInt "abc" = None /\
    map Method (sent w') = ["POST"] /\
    map URL (sent w') = ["https://auth.roblox.com/v2/login"] /\
    map Body (sent w') = [EmptyObject].
Proof.
  eexists. split; [vm_compute; reflexivity|]. repeat split; reflexivity.
Qed.

End LegacyFacts.

(* ================================================================== *)
(** * Facts about the cookie codec *)
(* ================================================================== *)

Module CookieFacts.
Import Models Cookies CookieProps.

(** ** Bytes *)

(** A fact about one byte, decided on the 256 bytes. *)
Ltac each_byte c :=
  destruct c as [[|] [|] [|] [|] [|] [|] [|] [|]];
  vm_compute; try reflexivity; try discriminate;
  try (intros _; repeat split; reflexivity).

Lemma token_byte_facts (c : ascii) :
  isTokenByte c = true ->
  printable c = true /\ isASCIISpace c = false /\
  Ascii.eqb c "="%char = false /\ Ascii.eqb c ";"%char = false /\
  Ascii.eqb c ":"%char = false.
Proof. each_byte c. Qed.

Lemma value_byte_facts (c : ascii) :
  validCookieValueByte c = true ->
  printable c = true /\ Ascii.eqb c DQUOTE = false /\
  Ascii.eqb c ";"%char = false.
Proof. each_byte c. Qed.

Lemma printable_facts (c : ascii) :
  printable c = true ->
  validHeaderValueByte c = true /\ Ascii.eqb c LF = false /\
  Ascii.eqb c CR = false /\ Ascii.eqb c HT = false /\
  isASCIISpace c = Ascii.eqb c SP /\ is_blank c = Ascii.eqb c SP.
Proof. each_byte c. Qed.

(** ** Byte strings *)

Lemma all_bytes_app p (a b : string) :
  all_bytes p (a ++ b) = (all_bytes p a && all_bytes p b)%bool.
Proof.
  induction a as [|c a IH]; simpl; [reflexivity|].
  rewrite IH. now rewrite andb_assoc.
Qed.

Lemma all_bytes_impl (p q : ascii -> bool) (s : string) :
  (forall c, p c = true -> q c = true) ->
  all_bytes p s = true -> all_bytes q s = true.
Proof.
  intros Hpq. induction s as [|c s IH]; simpl; [reflexivity|].
  intros H. apply andb_true_iff in H. destruct H as [Hc Hs].
  apply andb_true_iff. split; auto.
Qed.

Lemma all_bytes_filter p (s : string) :
  all_bytes p (filter_bytes p s) = true.
Proof.
  induction s as [|c s IH]; simpl; [reflexivity|].
  destruct (p c) eqn:E; simpl; [now rewrite E|assumption].
Qed.

Lemma filter_bytes_all p (s : string) :
  all_bytes p s = true -> filter_bytes p s = s.
Proof.
  induction s as [|c s IH]; simpl; [reflexivity|].
  intros H. apply andb_true_iff in H. destruct H as [Hc Hs].
  rewrite Hc. now rewrite IH.
Qed.

Lemma any_byte_false_all p (s : string) :
  any_byte p s = false -> all_bytes (fun c => negb (p c)) s = true.
Proof.
  induction s as [|c s IH]; simpl; [reflexivity|].
  intros H. apply orb_false_iff in H. destruct H as [Hc Hs].
  rewrite Hc. simpl. now apply IH.
Qed.

Lemma app_empty_r (s : string) : (s ++ "")%string = s.
Proof. induction s as [|c s IH]; simpl; [reflexivity|now rewrite IH]. Qed.

Lemma app_assoc_s (a b c : string) :
  ((a ++ b) ++ c)%string = (a ++ (b ++ c))%string.
Proof. induction a as [|x a IH]; simpl; [reflexivity|now rewrite IH]. Qed.

Lemma last_byte_snoc (a : string) (c : ascii) :
  last_byte (a ++ String c "") = Some c.
Proof.
  induction a as [|x a IH]; simpl; [reflexivity|].
  destruct (a ++ String c "")%string eqn:E; [|exact IH].
  destruct a; discriminate.
Qed.

Lemma drop_last_snoc (a : string) (c : ascii) :
  drop_last (a ++ String c "") = a.
Proof.
  induction a as [|x a IH]; simpl; [reflexivity|].
  destruct (a ++ String c "")%string eqn:E.
  - destruct a; discriminate.
  - now rewrite IH.
Qed.

Lemma trim_left_id p (s : string) :
  starts_without p s -> trim_left p s = s.
Proof. destruct s as [|c s]; simpl; [reflexivity|]. now intros ->. Qed.

Lemma trim_right_id p (s : string) :
  ends_without p s -> trim_right p s = s.
Proof.
  unfold ends_without. induction s as [|c s IH]; simpl; [reflexivity|].
  destruct s as [|d s].
  - simpl. now intros ->.
  - intros H. rewrite (IH H). reflexivity.
Qed.

Lemma cut_byte_app (sep : ascii) (a b : string) :
  all_bytes (fun c => negb (Ascii.eqb c sep)) a = true ->
  cut_byte sep (a ++ String sep b) = Some (a, b).
Proof.
  induction a as [|c a IH]; simpl.
  - now rewrite Ascii.eqb_refl.
  - intros H. apply andb_true_iff in H. destruct H as [Hc Ha].
    apply negb_true_iff in Hc. rewrite Hc. now rewrite IH.
Qed.

Lemma split_byte_none (sep : ascii) (s : string) :
  all_bytes (fun c => negb (Ascii.eqb c sep)) s = true ->
  split_byte sep s = [s].
Proof.
  induction s as [|c s IH]; simpl; [reflexivity|].
  intros H. apply andb_true_iff in H. destruct H as [Hc Hs].
  apply negb_true_iff in Hc. rewrite Hc. now rewrite IH.
Qed.

Lemma map_bytes_id (f : ascii -> ascii) (s : string) :
  all_bytes (fun c => Ascii.eqb (f c) c) s = true -> map_bytes f s = s.
Proof.
  induction s as [|c s IH]; simpl; [reflexivity|].
  intros H. apply andb_true_iff in H. destruct H as [Hc Hs].
  apply Ascii.eqb_eq in Hc. rewrite Hc. now rewrite IH.
Qed.


(** ** Values as they go on the wire *)

Lemma starts_without_ext (p q : ascii -> bool) (s : string) :
  all_bytes printable s = true ->
  (forall c, printable c = true -> p c = q c) ->
  starts_without q s -> starts_without p s.
Proof.
  destruct s as [|c s]; simpl; [auto|].
  intros H Hpq Hq. apply andb_true_iff in H. destruct H as [Hc _].
  now rewrite (Hpq c Hc).
Qed.

Lemma last_byte_all p (s : string) (c : ascii) :
  all_bytes p s = true -> last_byte s = Some c -> p c = true.
Proof.
  induction s as [|x s IH]; simpl; [discriminate|].
  intros H. apply andb_true_iff in H. destruct H as [Hx Hs].
  destruct s as [|y s].
  - intros Hc. now inversion Hc; subst.
  - now apply IH.
Qed.

Lemma ends_without_ext (p q : ascii -> bool) (s : string) :
  all_bytes printable s = true ->
  (forall c, printable c = true -> p c = q c) ->
  ends_without q s -> ends_without p s.
Proof.
  unfold ends_without. intros H Hpq.
  destruct (last_byte s) as [c|] eqn:E; [|auto].
  intros Hq. rewrite (Hpq c); [assumption|].
  now apply (last_byte_all printable s c).
Qed.

Lemma wire_ok_newlineToSpace (w : string) :
  wire_ok w -> newlineToSpace w = w.
Proof.
  intros (Hall & _ & _). unfold newlineToSpace. apply map_bytes_id.
  revert Hall. apply all_bytes_impl. intros c Hc.
  destruct (printable_facts c Hc) as (_ & HLF & HCR & _).
  rewrite HLF, HCR. simpl. apply Ascii.eqb_refl.
Qed.

Lemma wire_ok_TrimString (w : string) : wire_ok w -> TrimString w = w.
Proof.
  intros (Hall & Hstart & Hend). unfold TrimString.
  rewrite trim_left_id.
  - apply trim_right_id.
    apply (ends_without_ext _ is_space); auto.
    intros c Hc. now destruct (printable_facts c Hc) as (_ & _ & _ & _ & H & _).
  - apply (starts_without_ext _ is_space); auto.
    intros c Hc. now destruct (printable_facts c Hc) as (_ & _ & _ & _ & H & _).
Qed.

Lemma wire_ok_write_field (key w : string) :
  wire_ok w ->
  write_field key w
  = (key ++ ": " ++ w ++ String CR (String LF ""))%string.
Proof.
  intros Hw. unfold write_field.
  now rewrite (wire_ok_newlineToSpace w Hw), (wire_ok_TrimString w Hw).
Qed.

(** ** Lines *)

Lemma lines_from_line (cur l rest : string) :
  all_bytes (fun c => negb (Ascii.eqb c LF)) l = true ->
  lines_from cur (l ++ String CR (String LF rest))
  = (cur ++ l)%string :: lines_from "" rest.
Proof.
  revert cur. induction l as [|c l IH]; intros cur; simpl.
  - intros _. unfold drop_cr. rewrite last_byte_snoc.
    change (Ascii.eqb CR CR) with true. cbv iota.
    now rewrite drop_last_snoc, app_empty_r.
  - intros H. apply andb_true_iff in H. destruct H as [Hc Hl].
    apply negb_true_iff in Hc. rewrite Hc.
    rewrite (IH _ Hl). now rewrite app_assoc_s.
Qed.

Lemma wire_ok_no_LF (w : string) :
  wire_ok w -> all_bytes (fun c => negb (Ascii.eqb c LF)) w = true.
Proof.
  intros (Hall & _ & _). revert Hall. apply all_bytes_impl. intros c Hc.
  destruct (printable_facts c Hc) as (_ & HLF & _). now rewrite HLF.
Qed.

Lemma lines_write_fields (ws : list string) :
  Forall wire_ok ws ->
  lines (write_fields "Set-Cookie" ws) = map cookie_line ws.
Proof.
  unfold lines. induction 1 as [|w ws Hw Hws IH]; [reflexivity|].
  change (write_fields "Set-Cookie" (w :: ws))
    with (write_field "Set-Cookie" w ++ write_fields "Set-Cookie" ws)%string.
  rewrite (wire_ok_write_field _ w Hw).
  replace (("Set-Cookie" ++ ": " ++ w ++ String CR (String LF ""))
           ++ write_fields "Set-Cookie" ws)%string
    with (cookie_line w
          ++ String CR (String LF (write_fields "Set-Cookie" ws)))%string.
  - rewrite lines_from_line.
    + simpl map. now rewrite IH.
    + unfold cookie_line. rewrite all_bytes_app.
      now rewrite (wire_ok_no_LF w Hw).
  - unfold cookie_line. now rewrite !app_assoc_s.
Qed.


(** ** Reading the fields back *)

Lemma last_byte_app (a w : string) :
  w <> ""%string -> last_byte (a ++ w) = last_byte w.
Proof.
  intros Hw. induction a as [|c a IH]; simpl; [reflexivity|].
  destruct (a ++ w)%string eqn:E; [|exact IH].
  destruct a; simpl in E; [now subst|discriminate].
Qed.

Lemma wire_ok_not_blank_ends (w : string) :
  wire_ok w -> starts_without is_blank w /\ ends_without is_blank w.
Proof.
  intros (Hall & Hstart & Hend). split.
  - apply (starts_without_ext _ is_space); auto.
    intros c Hc. now destruct (printable_facts c Hc) as (_ & _ & _ & _ & _ & H).
  - apply (ends_without_ext _ is_space); auto.
    intros c Hc. now destruct (printable_facts c Hc) as (_ & _ & _ & _ & _ & H).
Qed.

Lemma trim_cookie_line (w : string) :
  wire_ok w ->
  trim (cookie_line w)
  = if is_empty w then "Set-Cookie:"%string else cookie_line w.
Proof.
  intros Hw. destruct w as [|c w]; [reflexivity|].
  unfold trim. cbn [is_empty].
  change (trim_left is_blank (cookie_line (String c w)))
    with (cookie_line (String c w)).
  apply trim_right_id. unfold ends_without, cookie_line.
  rewrite last_byte_app by discriminate.
  now destruct (wire_ok_not_blank_ends _ Hw) as [_ H].
Qed.

Lemma add_field_cookie_line (w : string) (m : MIMEHeader) :
  wire_ok w ->
  add_field (trim (cookie_line w)) m
  = inl (m ++ [("Set-Cookie"%string, w)])%list.
Proof.
  intros Hw. rewrite (trim_cookie_line w Hw).
  destruct w as [|c w]; [reflexivity|].
  cbn [is_empty]. unfold add_field, cookie_line.
  change (cut_byte ":" ("Set-Cookie: " ++ String c w))
    with (Some ("Set-Cookie"%string, String SP (String c w))).
  change (canonicalMIMEHeaderKey "Set-Cookie") with (Some "Set-Cookie"%string).
  cbv iota beta.
  assert (Hvalid : all_bytes validHeaderValueByte (String SP (String c w)) = true).
  { destruct Hw as (Hall & _ & _).
    change (all_bytes validHeaderValueByte (String SP (String c w)))
      with (all_bytes validHeaderValueByte (String c w)).
    revert Hall. apply all_bytes_impl. intros x Hx.
    now destruct (printable_facts x Hx) as (H & _). }
  rewrite Hvalid. cbn [negb is_empty].
  change (trim_left is_blank (String SP (String c w)))
    with (trim_left is_blank (String c w)).
  rewrite trim_left_id; [reflexivity|].
  now destruct (wire_ok_not_blank_ends _ Hw) as [H _].
Qed.

Lemma read_fields_cookie_lines (ws : list string) (w0 : string)
    (m : MIMEHeader) :
  wire_ok w0 -> Forall wire_ok ws ->
  read_fields (Some (trim (cookie_line w0))) (map cookie_line ws) m
  = ((m ++ cookie_field w0 :: map cookie_field ws)%list, Some EOF).
Proof.
  intros Hw0 Hws. revert w0 m Hw0.
  induction Hws as [|w ws Hw Hws IH]; intros w0 m Hw0.
  - simpl. now rewrite add_field_cookie_line.
  - cbn [map read_fields].
    change (starts_blank (cookie_line w)) with false.
    change (is_empty (cookie_line w)) with false. cbv iota.
    rewrite add_field_cookie_line by assumption.
    rewrite (IH w _ Hw). now rewrite <- app_assoc.
Qed.

Lemma ReadMIMEHeader_write_fields (ws : list string) :
  Forall wire_ok ws ->
  ReadMIMEHeader (write_fields "Set-Cookie" ws)
  = (map cookie_field ws, Some EOF).
Proof.
  intros Hws. unfold ReadMIMEHeader.
  assert (Hstart : starts_blank (write_fields "Set-Cookie" ws) = false).
  { destruct ws as [|w ws]; reflexivity. }
  rewrite Hstart, (lines_write_fields ws Hws).
  destruct Hws as [|w ws Hw Hws]; [reflexivity|].
  cbn [map read_fields].
  change (is_empty (cookie_line w)) with false. cbv iota.
  now rewrite read_fields_cookie_lines.
Qed.

Lemma values_of_cookie_fields (ws : list string) :
  values_of "Set-Cookie" (map cookie_field ws) = ws.
Proof.
  unfold values_of. induction ws as [|w ws IH]; [reflexivity|].
  simpl. now rewrite IH.
Qed.

Lemma ReadCookies_write_fields (ws : list string) :
  Forall wire_ok ws ->
  ReadCookies (write_fields "Set-Cookie" ws)
  = (readSetCookies_lines ws, None).
Proof.
  intros Hws. unfold ReadCookies.
  rewrite (ReadMIMEHeader_write_fields ws Hws).
  unfold readSetCookies. now rewrite values_of_cookie_fields.
Qed.


(** ** One cookie *)

Lemma parseCookieValue_sanitize (v : string) :
  parseCookieValue (sanitizeCookieValue v)
  = Some (filter_bytes validCookieValueByte v).
Proof.
  unfold sanitizeCookieValue.
  assert (Hall := all_bytes_filter validCookieValueByte v).
  destruct (filter_bytes validCookieValueByte v) as [|c v'] eqn:E;
    [reflexivity|].
  cbn [is_empty].
  destruct (any_byte _ (String c v')).
  - unfold parseCookieValue.
    change (String DQUOTE (String c v' ++ String DQUOTE ""))
      with (String DQUOTE (String c (v' ++ String DQUOTE ""))).
    cbv iota beta.
    change (String c (v' ++ String DQUOTE ""))
      with (String c v' ++ String DQUOTE "")%string.
    rewrite last_byte_snoc, drop_last_snoc.
    change (Ascii.eqb DQUOTE DQUOTE) with true. cbn [andb append].
    now rewrite Hall.
  - unfold parseCookieValue. destruct v' as [|d v']; [now rewrite Hall|].
    assert (Hc : Ascii.eqb c DQUOTE = false).
    { simpl in Hall. apply andb_true_iff in Hall. destruct Hall as [Hc _].
      now destruct (value_byte_facts c Hc) as (_ & H & _). }
    rewrite Hc. cbn [andb]. now rewrite Hall.
Qed.

Lemma sanitizeCookieValue_bytes (v : string) :
  all_bytes printable (sanitizeCookieValue v) = true /\
  all_bytes (fun c => negb (Ascii.eqb c ";")) (sanitizeCookieValue v) = true /\
  ends_without is_space ("=" ++ sanitizeCookieValue v).
Proof.
  unfold sanitizeCookieValue.
  assert (Hall := all_bytes_filter validCookieValueByte v).
  set (u := filter_bytes validCookieValueByte v) in *.
  assert (Hprint : all_bytes printable u = true).
  { revert Hall. apply all_bytes_impl. intros c Hc.
    now destruct (value_byte_facts c Hc) as (H & _). }
  assert (Hsemi : all_bytes (fun c => negb (Ascii.eqb c ";")) u = true).
  { revert Hall. apply all_bytes_impl. intros c Hc.
    destruct (value_byte_facts c Hc) as (_ & _ & H). now rewrite H. }
  clearbody u. destruct u as [|c v']; [now repeat split|].
  cbn [is_empty].
  destruct (any_byte _ (String c v')) eqn:Hany.
  - repeat split.
    + change (String DQUOTE (String c v' ++ String DQUOTE ""))
        with (String DQUOTE "" ++ (String c v' ++ String DQUOTE ""))%string.
      rewrite !all_bytes_app, Hprint. reflexivity.
    + change (String DQUOTE (String c v' ++ String DQUOTE ""))
        with (String DQUOTE "" ++ (String c v' ++ String DQUOTE ""))%string.
      rewrite !all_bytes_app, Hsemi. reflexivity.
    + unfold ends_without.
      change ("=" ++ String DQUOTE (String c v' ++ String DQUOTE ""))%string
        with (("=" ++ String DQUOTE (String c v')) ++ String DQUOTE "")%string.
      now rewrite last_byte_snoc.
  - repeat split; try assumption.
    unfold ends_without. rewrite last_byte_app by discriminate.
    destruct (last_byte (String c v')) as [d|] eqn:Hlast; [|exact I].
    apply any_byte_false_all in Hany.
    apply (last_byte_all _ _ d Hany) in Hlast.
    apply negb_true_iff in Hlast. apply orb_false_iff in Hlast.
    now destruct Hlast.
Qed.

Lemma valid_name_bytes (n : string) :
  isCookieNameValid n = true ->
  n <> ""%string /\ all_bytes isTokenByte n = true.
Proof.
  unfold isCookieNameValid. intros H. apply andb_true_iff in H.
  destruct H as [Hne Hall]. split; [|assumption].
  now destruct n.
Qed.

Lemma Cookie_String_valid (c : Cookie) :
  valid_name c = true ->
  Cookie_String c
  = (CookieName c ++ String "=" (sanitizeCookieValue (CookieValue c)))%string.
Proof. unfold valid_name, Cookie_String. now intros ->. Qed.

Lemma Cookie_String_invalid (c : Cookie) :
  valid_name c = false -> Cookie_String c = ""%string.
Proof. unfold valid_name, Cookie_String. now intros ->. Qed.

Lemma wire_ok_Cookie_String (c : Cookie) : wire_ok (Cookie_String c).
Proof.
  destruct (valid_name c) eqn:Hname.
  - rewrite (Cookie_String_valid c Hname).
    destruct (valid_name_bytes _ Hname) as [Hne Htok].
    destruct (sanitizeCookieValue_bytes (CookieValue c))
      as (Hprint & _ & Hend).
    repeat split.
    + rewrite all_bytes_app. apply andb_true_iff. split.
      * revert Htok. apply all_bytes_impl. intros x Hx.
        now destruct (token_byte_facts x Hx) as (H & _).
      * simpl. exact Hprint.
    + destruct (CookieName c) as [|x n]; [now elim Hne|].
      simpl in *. apply andb_true_iff in Htok. destruct Htok as [Hx _].
      destruct (token_byte_facts x Hx) as (Hp & Hs & _).
      destruct (printable_facts x Hp) as (_ & _ & _ & _ & H & _).
      unfold is_space. now rewrite <- H.
    + unfold ends_without. rewrite last_byte_app by discriminate.
      exact Hend.
  - rewrite (Cookie_String_invalid c Hname). now repeat split.
Qed.

Lemma parseSetCookie_Cookie_String (c : Cookie) :
  parseSetCookie (Cookie_String c)
  = if valid_name c then Some (sanitized c) else None.
Proof.
  assert (Hwire := wire_ok_Cookie_String c).
  destruct (valid_name c) eqn:Hname.
  - unfold parseSetCookie.
    rewrite (wire_ok_TrimString _ Hwire).
    rewrite (Cookie_String_valid c Hname) in *.
    destruct (valid_name_bytes _ Hname) as [Hne Htok].
    destruct (sanitizeCookieValue_bytes (CookieValue c))
      as (Hprint & Hsemi & Hend).
    rewrite split_byte_none.
    + assert (Hnonempty :
        is_empty (CookieName c
                  ++ String "=" (sanitizeCookieValue (CookieValue c)))
        = false).
      { destruct (CookieName c); reflexivity. }
      rewrite Hnonempty. cbn [andb].
      rewrite (wire_ok_TrimString _ Hwire).
      rewrite cut_byte_app.
      * assert (Hn : wire_ok (CookieName c)).
        { repeat split.
          - revert Htok. apply all_bytes_impl. intros x Hx.
            now destruct (token_byte_facts x Hx) as (H & _).
          - destruct (CookieName c) as [|x n]; [exact I|].
            simpl in *. apply andb_true_iff in Htok. destruct Htok as [Hx _].
            destruct (token_byte_facts x Hx) as (Hp & Hs & _).
            destruct (printable_facts x Hp) as (_ & _ & _ & _ & H & _).
            unfold is_space. now rewrite <- H.
          - unfold ends_without.
            destruct (last_byte (CookieName c)) as [x|] eqn:Hlast; [|exact I].
            apply (last_byte_all _ _ x Htok) in Hlast.
            destruct (token_byte_facts x Hlast) as (Hp & Hs & _).
            destruct (printable_facts x Hp) as (_ & _ & _ & _ & H & _).
            unfold is_space. now rewrite <- H. }
        rewrite (wire_ok_TrimString _ Hn).
        unfold valid_name in Hname. rewrite Hname. cbn [negb].
        now rewrite parseCookieValue_sanitize.
      * revert Htok. apply all_bytes_impl. intros x Hx.
        destruct (token_byte_facts x Hx) as (_ & _ & H & _). now rewrite H.
    + rewrite all_bytes_app. apply andb_true_iff. split.
      * revert Htok. apply all_bytes_impl. intros x Hx.
        destruct (token_byte_facts x Hx) as (_ & _ & _ & H & _).
        now rewrite H.
      * simpl. exact Hsemi.
  - now rewrite (Cookie_String_invalid c Hname).
Qed.

(** ** The round trip *)

Lemma readSetCookies_lines_Cookie_String (cs : list Cookie) :
  readSetCookies_lines (map Cookie_String cs)
  = map sanitized (filter valid_name cs).
Proof.
  induction cs as [|c cs IH]; [reflexivity|].
  cbn [map readSetCookies_lines filter].
  rewrite parseSetCookie_Cookie_String.
  destruct (valid_name c); cbn [map]; now rewrite IH.
Qed.

(** What the round trip gives for every list of cookies: the cookies with
    a valid name, in their order, with the invalid bytes of their values
    dropped. *)
Lemma ReadCookies_WriteCookies (cs : list Cookie) :
  ReadCookies (fst (WriteCookies cs))
  = (map sanitized (filter valid_name cs), None).
Proof.
  unfold WriteCookies. cbn [fst].
  rewrite ReadCookies_write_fields.
  - now rewrite readSetCookies_lines_Cookie_String.
  - apply Forall_forall. intros w Hw. apply in_map_iff in Hw.
    destruct Hw as (c & <- & _). apply wire_ok_Cookie_String.
Qed.


Lemma well_formed_round_trip (cs : list Cookie) :
  Forall well_formed cs -> map sanitized (filter valid_name cs) = cs.
Proof.
  induction 1 as [|c cs [Hname Hvalue] Hcs IH]; [reflexivity|].
  cbn [filter]. unfold valid_name at 1. rewrite Hname. cbn [map].
  rewrite IH. f_equal. unfold sanitized.
  rewrite (filter_bytes_all _ _ Hvalue). now destruct c.
Qed.

(** C8 (as amended).  For every list of cookies with valid names and
    values of valid bytes, [WriteCookies] writes without an error and
    [ReadCookies] reads the same name/value pairs back, in the same order.
    An empty input reads as the empty list, without an error. *)
Theorem cookie_codec_round_trip (cs : list Cookie) :
  Forall well_formed cs ->
  snd (WriteCookies cs) = None /\
  ReadCookies (fst (WriteCookies cs)) = (cs, None) /\
  ReadCookies "" = ([], None).
Proof.
  intros Hcs. split; [reflexivity|]. split; [|reflexivity].
  rewrite ReadCookies_WriteCookies.
  now rewrite (well_formed_round_trip cs Hcs).
Qed.

(** Witness of [cookie_codec_round_trip]: a session cookie and a cookie
    whose value has a space. *)
Lemma cookie_codec_round_trip_witness :
  snd (WriteCookies [Stub.cookie ".ROBLOSECURITY" "session";
                     Stub.cookie "note" "a b"]) = None /\
  ReadCookies (fst (WriteCookies [Stub.cookie ".ROBLOSECURITY" "session";
                                  Stub.cookie "note" "a b"]))
  = ([Stub.cookie ".ROBLOSECURITY" "session"; Stub.cookie "note" "a b"],
     None) /\
  ReadCookies "" = ([], None).
Proof.
  apply (cookie_codec_round_trip
           [Stub.cookie ".ROBLOSECURITY" "session"; Stub.cookie "note" "a b"]).
  repeat constructor.
Defined.

(** C8 (counterexample).  Two cookies are written and read back: the one
    whose name has a space is lost, and the value of the other comes back
    without its semicolon. *)
Lemma cookie_round_trip_counterexample :
  ReadCookies (fst (WriteCookies [Stub.cookie "session id" "abc";
                                  Stub.cookie "theme" "dark;wide"]))
  = ([Stub.cookie "theme" "darkwide"], None).
Proof. vm_compute. reflexivity. Qed.

End CookieFacts.

(* ================================================================== *)
(** * More facts about the current client *)
(* ================================================================== *)

Module AuthExtra.
Import GoLib Models Net Net.Notations Auth Props ExtraProps AuthFacts.

Lemma Header_Del_idem (k : string) (h : Header) :
  Header_Del k (Header_Del k h) = Header_Del k h.
Proof.
  induction h as [|[k0 v0] h IH]; simpl; [reflexivity|].
  destruct (String.eqb k k0) eqn:E; [exact IH|].
  simpl. rewrite E. now rewrite IH.
Qed.

Lemma same_but_token_refl (r : Request) : same_but_token r r.
Proof. now repeat split. Qed.

Lemma same_but_token_trans (r1 r2 r3 : Request) :
  same_but_token r1 r2 -> same_but_token r2 r3 -> same_but_token r1 r3.
Proof.
  intros (A1 & A2 & A3 & A4 & A5) (B1 & B2 & B3 & B4 & B5).
  repeat split; congruence.
Qed.

Lemma same_but_token_with_token (c : Config) (r : Request) :
  same_but_token r (with_token c r).
Proof.
  unfold with_token. destruct (negb _); [|apply same_but_token_refl].
  repeat split. simpl. apply Header_Del_idem.
Qed.

Section Facts.

Variable Service : Type.
Variable Do : Transport Service error.
Variable url_ok : string -> bool.
Variable Sprintf : string -> Z -> string.

Local Abbreviation requestAPI := (Auth.requestAPI Do).
Local Abbreviation login_request := (Auth.login_request Do url_ok).
Local Abbreviation getUsername := (Auth.getUsername Do url_ok Sprintf).
Local Abbreviation LoginCred := (Auth.LoginCred Do url_ok Sprintf).
Local Abbreviation Login := (Auth.Login Do url_ok Sprintf).
Local Abbreviation LoginID := (Auth.LoginID Do url_ok Sprintf).
Local Abbreviation Logout := (Auth.Logout Do url_ok).
Local Abbreviation Verify := (Auth.Verify Do url_ok).
Local Abbreviation Resend := (Auth.Resend Do url_ok).

(** ** What [requestAPI] sends *)

Lemma requestAPI_requests {T} `{apiResponse T}
    fuel c r (a : T) w res w' :
  requestAPI fuel c r a w = (res, w') ->
  exists more,
    sent w' = (sent w ++ more)%list /\ Forall (same_but_token r) more /\
    (length more <= fuel)%nat.
Proof.
  revert c r a w res w'.
  induction fuel as [|fuel IH]; intros c r a w res w' Hrun.
  - inversion Hrun; subst. exists []. rewrite app_nil_r. now repeat split.
  - simpl in Hrun. unfold bind, client_Do in Hrun.
    assert (Hone : forall x (w1 : World Service),
               sent w1 = (sent w ++ [with_token c r])%list ->
               (x, w1) = (res, w') ->
               exists more,
                 sent w' = (sent w ++ more)%list /\
                 Forall (same_but_token r) more /\ (length more <= S fuel)%nat).
    { intros x w1 Hw1 Hx. inversion Hx; subst. exists [with_token c r].
      split; [exact Hw1|]. split; [|simpl; lia].
      constructor; [apply same_but_token_with_token|constructor]. }
    destruct (Do (service w) (with_token c r)) as [s1 [err|resp]];
      simpl in Hrun.
    + unfold ret in Hrun. eapply Hone; [|exact Hrun]. reflexivity.
    + destruct (RespBody resp) as [j|].
      * destruct (Errors (errResp (Decode j a))) as [|first rest].
        -- unfold ret in Hrun. eapply Hone; [|exact Hrun]. reflexivity.
        -- destruct (_ && _).
           ++ apply IH in Hrun. destruct Hrun as (more & Hsent & Hall & Hlen).
              simpl in Hsent. rewrite <- app_assoc in Hsent.
              exists (with_token c r :: more).
              split; [exact Hsent|]. split; [|simpl; lia].
              constructor; [apply same_but_token_with_token|].
              revert Hall. apply Forall_impl. intros r' Hr'.
              apply (same_but_token_trans _ (with_token c r));
                [apply same_but_token_with_token|exact Hr'].
           ++ unfold ret in Hrun. eapply Hone; [|exact Hrun]. reflexivity.
      * unfold ret in Hrun. eapply Hone; [|exact Hrun]. reflexivity.
Qed.


(** X1.  Whatever the service does, every request [requestAPI] sends is
    the request it was given, with at most another token header: the retry
    repeats the same method, URL, cookies and body.  It never sends more
    requests than it has fuel. *)
Theorem requestAPI_repeats_the_request {T} `{apiResponse T}
    (fuel : nat) (c : Config) (r : Request) (a : T) (w : World Service) :
  exists more,
    sent (snd (requestAPI fuel c r a w)) = (sent w ++ more)%list /\
    Forall (same_but_token r) more /\ (length more <= fuel)%nat.
Proof.
  destruct (requestAPI fuel c r a w) as [res w'] eqn:Hrun.
  exact (requestAPI_requests fuel c r a w res w' Hrun).
Qed.

(** ** The bound on the retry *)

(** A request that carries a token is never retried. *)
Lemma requestAPI_with_token_is_final {T} `{apiResponse T}
    fuel c r (a : T) w :
  token_of (with_token c r) <> "" ->
  exists out s',
    requestAPI (S fuel) c r a w
    = (Done out, after_send w s' (with_token c r)).
Proof.
  intros Htok.
  destruct (Do (service w) (with_token c r)) as [s1 [err|resp]] eqn:HDo.
  - rewrite (requestAPI_transport_error _ _ fuel c r a w s1 err HDo).
    now eexists _, _.
  - destruct (RespBody resp) as [j|] eqn:Hbody.
    + destruct (Errors (errResp (Decode j a))) as [|first rest] eqn:Herrs.
      * rewrite (requestAPI_no_errors _ _ fuel c r a w s1 resp j HDo Hbody Herrs).
        now eexists _, _.
      * rewrite (requestAPI_errors _ _ fuel c r a w s1 resp j first rest
                   HDo Hbody Herrs).
        unfold retries. rewrite (eqb_empty_false _ Htok), andb_false_r.
        now eexists _, _.
    + rewrite (requestAPI_undecodable _ _ fuel c r a w s1 resp HDo Hbody).
      now eexists _, _.
Qed.

Lemma retries_true (resp : Response) (first : ErrorResponse) (r : Request) :
  retries resp first r = true ->
  StatusCode resp = 403 /\ Code first = 0 /\ token_of r = "".
Proof.
  unfold retries. intros H.
  apply andb_true_iff in H. destruct H as [H Htok].
  apply andb_true_iff in H. destruct H as [Hstatus Hcode].
  apply Z.eqb_eq in Hstatus, Hcode. now apply String.eqb_eq in Htok.
Qed.

(** X2.  When every 403 of the service brings a token, [requestAPI]
    returns, after one or two requests, whatever else the service
    answers. *)
Theorem requestAPI_returns_within_two_requests {T} `{apiResponse T}
    (fuel : nat) (c : Config) (r : Request) (a : T) (w : World Service) :
  rejections_bring_token Do ->
  (2 <= fuel)%nat ->
  exists out w',
    requestAPI fuel c r a w = (Done out, w') /\
    (length (sent w) + 1 <= length (sent w') <= length (sent w) + 2)%nat.
Proof.
  intros Hserv Hfuel. destruct fuel as [|[|fuel]]; try lia.
  assert (Hlen1 : forall s', length (sent (after_send w s' (with_token c r)))
                             = (length (sent w) + 1)%nat).
  { intros s'. simpl. rewrite length_app. reflexivity. }
  destruct (Do (service w) (with_token c r)) as [s1 [err|resp]] eqn:HDo.
  - rewrite (requestAPI_transport_error _ _ _ c r a w s1 err HDo).
    eexists _, _. split; [reflexivity|]. rewrite Hlen1. lia.
  - destruct (RespBody resp) as [j|] eqn:Hbody.
    + destruct (Errors (errResp (Decode j a))) as [|first rest] eqn:Herrs.
      * rewrite (requestAPI_no_errors _ _ _ c r a w s1 resp j HDo Hbody Herrs).
        eexists _, _. split; [reflexivity|]. rewrite Hlen1. lia.
      * rewrite (requestAPI_errors _ _ _ c r a w s1 resp j first rest
                   HDo Hbody Herrs).
        destruct (retries resp first (with_token c r)) eqn:Hretry.
        -- apply retries_true in Hretry.
           destruct Hretry as (Hstatus & _ & Hnone).
           assert (Hfresh := Hserv _ _ _ _ HDo Hstatus).
           assert (Htok : token_of (with_token (learn_token c resp)
                                      (with_token c r)) <> "").
           { rewrite token_of_with_token by assumption.
             rewrite (Token_learn_token c resp Hfresh). exact Hfresh. }
           destruct (requestAPI_with_token_is_final fuel
                       (learn_token c resp) (with_token c r) (Decode j a)
                       (after_send w s1 (with_token c r)) Htok)
             as (out & s2 & Hrun).
           rewrite Hrun. eexists _, _. split; [reflexivity|].
           simpl. rewrite !length_app. simpl. lia.
        -- eexists _, _. split; [reflexivity|]. rewrite Hlen1. lia.
    + rewrite (requestAPI_undecodable _ _ _ c r a w s1 resp HDo Hbody).
      eexists _, _. split; [reflexivity|]. rewrite Hlen1. lia.
Qed.


(** ** Panics *)

(** [requestAPI] does not panic, and it does not return a nil response
    together with a nil error. *)
Lemma requestAPI_result_shape {T} `{apiResponse T}
    fuel c r (a : T) w res w' :
  requestAPI fuel c r a w = (res, w') ->
  res <> Panic /\
  forall c' a' err, res = Done (c', a', (None, err)) -> err <> None.
Proof.
  revert c r a w res w'.
  induction fuel as [|fuel IH]; intros c r a w res w' Hrun.
  - inversion Hrun; subst. split; [discriminate|]. intros; discriminate.
  - simpl in Hrun. unfold bind, client_Do in Hrun.
    destruct (Do (service w) (with_token c r)) as [s1 [err|resp]];
      simpl in Hrun.
    + inversion Hrun; subst. split; [discriminate|].
      intros c' a' e He. inversion He; subst. discriminate.
    + destruct (RespBody resp) as [j|].
      * destruct (Errors (errResp (Decode j a))) as [|first rest].
        -- inversion Hrun; subst. split; [discriminate|].
           intros c' a' e He. inversion He.
        -- destruct (_ && _).
           ++ now apply IH in Hrun.
           ++ inversion Hrun; subst. split; [discriminate|].
              intros c' a' e He. inversion He; subst.
              unfold ifStatus. now destruct (_ || _).
      * inversion Hrun; subst. split; [discriminate|].
        intros c' a' e He. inversion He.
Qed.

(** X3.  [requestAPI] never returns a nil response together with a nil
    error, whatever the service answers.  [Step.Verify] reads the cookies
    of the response whenever the error is nil: called on a step that is
    not nil, it never reads them from a nil response, and does not
    panic. *)
Theorem Verify_never_reads_a_nil_response {T} `{apiResponse T}
    (fuel : nat) (c : Config) (r : Request) (a : T) (s : Step)
    (code : string) (remember : bool) (w : World Service) :
  match fst (requestAPI fuel c r a w) with
  | Done (_, _, (None, None)) => False
  | _ => True
  end /\
  fst (Verify fuel s code remember w) <> Panic.
Proof.
  split.
  - destruct (requestAPI fuel c r a w) as [res w'] eqn:Hrun.
    destruct (requestAPI_result_shape _ _ _ _ _ _ _ Hrun) as [_ Hnil].
    destruct res as [[[c' a'] [[resp|] [e|]]]| |]; cbn; auto.
    now apply (Hnil c' a' None).
  - unfold Auth.Verify, NewRequest. destruct (url_ok _); [|discriminate].
    unfold bind.
    destruct (requestAPI fuel (cfg s) _ noErrors w) as [res w'] eqn:Hrun.
    destruct (requestAPI_result_shape _ _ _ _ _ _ _ Hrun) as [Hp Hnil].
    destruct res as [[[c' a'] [resp err]]| |]; simpl;
      [|contradiction|discriminate].
    destruct err as [e|]; [discriminate|].
    destruct resp as [resp|]; [discriminate|].
    now elim (Hnil c' a' None eq_refl).
Qed.



(** ** The prefixes of the errors *)

Lemma wrap_err_prefix (p : string) (err : option error) (e : error) :
  wrap_err p err = Some e -> has_prefix p e.
Proof.
  destruct err as [e0|]; simpl; intros He; inversion He. now exists e0.
Qed.

Lemma wrap_login_prefix
    (m : M Service (list Cookie * option Step * option error))
    (w : World Service) :
  match fst (('(cookies, step, err) <- m ;;
              ret (cookies, step, wrap_err "login" err)) w) with
  | Done (_, _, Some e) => has_prefix "login" e
  | _ => True
  end.
Proof.
  unfold bind. destruct (m w) as [res w'].
  destruct res as [[[cs st] err]| |]; simpl; try exact I.
  destruct err as [e|]; simpl; [now exists e|exact I].
Qed.

(** X5.  Every error that [LoginCred], [Logout], [Step.Verify] and
    [getUsername] return begins with the prefix of the operation:
    "login", "logout", "verify", "user from ID". *)
Theorem errors_carry_their_prefix
    (fuel : nat) (c : Config) (s : Step) (cred : Cred)
    (password code : string) (remember : bool) (cookies : list Cookie)
    (userID : Z) (w : World Service) :
  match fst (LoginCred fuel c cred password w) with
  | Done (_, _, Some e) => has_prefix "login" e
  | _ => True
  end /\
  match fst (Logout fuel c cookies w) with
  | Done (Some e) => has_prefix "logout" e
  | _ => True
  end /\
  match fst (Verify fuel s code remember w) with
  | Done (_, (_, Some e)) => has_prefix "verify" e
  | _ => True
  end /\
  match fst (getUsername fuel c userID w) with
  | Done (_, Some e) => has_prefix "user from ID" e
  | _ => True
  end.
Proof.
  repeat split.
  - unfold Auth.LoginCred. apply wrap_login_prefix.
  - unfold Auth.Logout, NewRequest. destruct (url_ok _).
    + unfold bind.
      destruct (requestAPI fuel c _ noErrors w) as [res w'].
      destruct res as [[[c' a'] [resp err]]| |]; simpl; try exact I.
      destruct err as [e|]; simpl; [now exists e|exact I].
    + simpl. now eexists.
  - unfold Auth.Verify, NewRequest. destruct (url_ok _).
    + unfold bind.
      destruct (requestAPI fuel (cfg s) _ noErrors w) as [res w'].
      destruct res as [[[c' a'] [resp err]]| |]; simpl; try exact I.
      destruct err as [e|]; simpl; [now exists e|].
      destruct resp; simpl; exact I.
    + simpl. now eexists.
  - unfold Auth.getUsername, NewRequest. destruct (url_ok _).
    + unfold bind.
      destruct (requestAPI fuel c _ _ w) as [res w'].
      destruct res as [[[c' a'] [resp err]]| |]; simpl; try exact I.
      destruct err as [e|]; simpl; [now exists e|exact I].
    + simpl. now eexists.
Qed.

(** ** Transport failures *)




(** ** [Logout] *)




(** ** From one operation to the next *)

Lemma Verify_first_request fuel s code remember w :
  url_ok (or_default (VerifyEndpoint (cfg s)) DefaultVerifyEndpoint) = true ->
  exists more,
    sent (snd (Verify (S fuel) s code remember w)) =
      (sent w
       ++ with_token (cfg s) (verify_http_request s code remember) :: more)%list.
Proof.
  intros Hurl. rewrite (Verify_eq _ Do url_ok _ s code remember Hurl).
  unfold bind.
  destruct (requestAPI (S fuel) (cfg s) _ noErrors w) as [r w1] eqn:Hreq.
  apply requestAPI_first_request in Hreq.
  destruct r as [[[c' a] [resp err]]| |]; [|exact Hreq|exact Hreq].
  destruct err as [e|]; [exact Hreq|].
  destruct resp as [resp|]; exact Hreq.
Qed.

Lemma learn_token_endpoints (c : Config) (resp : Response) :
  VerifyEndpoint (learn_token c resp) = VerifyEndpoint c /\
  ResendEndpoint (learn_token c resp) = ResendEndpoint c.
Proof. unfold learn_token. now destruct (negb _). Qed.


(** X9.  When the response that answers the resend request as it is first
    sent (not a token retry) reports success, [Resend] returns nil, and
    the request that [Verify] then sends carries the ticket of that
    response, the empty string when its body holds none, for the same
    user and action type. *)
Theorem Verify_after_Resend
    (s : Step) (code : string) (remember : bool) (w w1 : World Service)
    (fuel : nat) (st' : Service) (resp : Response) (j : JSON) :
  url_ok (or_default (ResendEndpoint (cfg s)) DefaultResendEndpoint) = true ->
  url_ok (or_default (VerifyEndpoint (cfg s)) DefaultVerifyEndpoint) = true ->
  Do (service w) (with_token (cfg s) (resend_http_request s))
    = (st', inr resp) ->
  success resp j ->
  exists s',
    Resend (S fuel) s w =
      (Done (s', None),
       after_send w st' (with_token (cfg s) (resend_http_request s)))
    /\
    exists r more,
      sent (snd (Verify (S fuel) s' code remember w1))
        = (sent w1 ++ r :: more)%list /\
      URL r = or_default (VerifyEndpoint (cfg s)) DefaultVerifyEndpoint /\
      Body r =
        VerifyBody
          {| ticketRequest :=
               {| Username := Username (ticketRequest (req s));
                  Ticket := or_keep (j_ticket j) "";
                  ActionType := ActionType (ticketRequest (req s)) |};
             VerifyCode := code; RememberDevice := remember |}.
Proof.
  intros Hresend Hverify HDo (Hstatus & Hbody & Herrs).
  rewrite (Resend_eq _ Do url_ok _ s Hresend).
  set (a0 := {| resendSent := {| SentMediaType := ""; SentTicket := "" |};
                resendErrors := noErrors |}).
  assert (Hrun := requestAPI_no_errors _ _ fuel (cfg s)
                    (resend_http_request s) a0 w st' resp j
                    HDo Hbody Herrs).
  rewrite (ifStatus_2XX _ _ Hstatus) in Hrun.
  unfold bind. rewrite Hrun. cbn beta iota.
  eexists. split; [reflexivity|].
  match goal with
  | |- context [Verify (S fuel) ?s1 code remember w1] => set (s' := s1)
  end.
  assert (Hurl : url_ok (or_default (VerifyEndpoint (cfg s'))
                           DefaultVerifyEndpoint) = true).
  { unfold s'. simpl.
    destruct (learn_token_endpoints (cfg s) resp) as [-> _]. exact Hverify. }
  destruct (Verify_first_request fuel s' code remember w1 Hurl)
    as [more Hsent].
  eexists _, more. split; [exact Hsent|].
  rewrite URL_with_token, Body_with_token.
  unfold s'. simpl.
  destruct (learn_token_endpoints (cfg s) resp) as [-> _].
  now split.
Qed.


(** ** The value the retry decodes into *)

Lemma with_token_empty (c : Config) (r : Request) :
  Token c = "" -> with_token c r = r.
Proof. intros Hc. unfold with_token. now rewrite Hc. Qed.

(** X10.  The retry decodes the second response into the value that
    holds the first: when the response to the retry is a 2XX whose body
    has no key "errors", the errors of the rejection are still there, and
    [Login] returns them as its error although the retry was accepted. *)
Theorem Login_retry_returns_stale_errors
    (c : Config) (username password : string) (w : World Service)
    (fuel : nat) (s1 s2 : Service) (resp1 resp2 : Response)
    (j1 j2 : JSON) (first : ErrorResponse) (rest : list ErrorResponse) :
  let r := login_http_request c {| Type_ := "Username"; Ident := username |}
             password in
  url_ok (or_default (LoginEndpoint c) DefaultLoginEndpoint) = true ->
  Token c = "" ->
  Do (service w) r = (s1, inr resp1) ->
  StatusCode resp1 = 403 ->
  RespBody resp1 = Some j1 ->
  j_errors j1 = Some (first :: rest) ->
  Code first = 0 ->
  Do s1 (with_token (learn_token c resp1) r) = (s2, inr resp2) ->
  200 <= StatusCode resp2 < 300 ->
  RespBody resp2 = Some j2 ->
  j_errors j2 = None ->
  Login (S (S fuel)) c username password w =
    (Done ([], None,
           Some (Wrapped "login" (APIErrors {| Errors := first :: rest |}))),
     after_send (after_send w s1 r) s2 (with_token (learn_token c resp1) r)).
Proof.
  intros r Hurl Hc HDo1 Hstatus1 Hbody1 Herrs1 Hcode HDo2 Hstatus2 Hbody2
    Herrs2.
  rewrite (Login_eq _ Do url_ok Sprintf _ c username password).
  rewrite (login_request_eq _ Do url_ok _ c _ password Hurl).
  fold r.
  set (a0 := {| User := None; TwoStepVerificationData := None;
                loginErrors := noErrors |}).
  assert (Hwire : with_token c r = r) by now apply with_token_empty.
  assert (Ha1 : Errors (errResp (Decode j1 a0)) = first :: rest).
  { rewrite Decode_errResp, Herrs1. reflexivity. }
  assert (HDo1' : Do (service w) (with_token c r) = (s1, inr resp1))
    by now rewrite Hwire.
  assert (Hrun1 := requestAPI_errors _ _ (S fuel) c r a0 w s1 resp1 j1
                     first rest HDo1' Hbody1 Ha1).
  assert (Hretry : retries resp1 first (with_token c r) = true).
  { unfold retries. rewrite Hstatus1, Hcode, Hwire. reflexivity. }
  rewrite Hretry, Hwire in Hrun1.
  assert (Ha2 : Errors (errResp (Decode j2 (Decode j1 a0))) = first :: rest).
  { rewrite Decode_errResp, Herrs2. exact Ha1. }
  assert (Hrun2 := requestAPI_errors _ _ fuel (learn_token c resp1) r
                     (Decode j1 a0) (after_send w s1 r) s2 resp2 j2
                     first rest HDo2 Hbody2 Ha2).
  assert (Hfinal : retries resp2 first
                     (with_token (learn_token c resp1) r) = false).
  { unfold retries. destruct (StatusCode resp2 =? 403) eqn:E; [|reflexivity].
    apply Z.eqb_eq in E. lia. }
  rewrite Hfinal, (ifStatus_2XX _ _ Hstatus2) in Hrun2.
  unfold bind at 1 2. rewrite Hrun1, Hrun2. cbn beta iota.
  unfold ret. do 5 f_equal.
  destruct (errResp (Decode j2 (Decode j1 a0))) as [errs].
  simpl in Ha2. now rewrite Ha2.
Qed.

(** ** The API error inside the error of an operation *)


(** ** The configuration *)

Lemma requestAPI_without_tokens {T} `{apiResponse T}
    fuel c r (a : T) w c' a' out w' :
  never_brings_token Do ->
  requestAPI fuel c r a w = (Done (c', a', out), w') ->
  c' = c.
Proof.
  intros Hnever. revert c r a w.
  induction fuel as [|fuel IH]; intros c r a w Hrun; [discriminate|].
  simpl in Hrun. unfold bind, client_Do in Hrun.
  destruct (Do (service w) (with_token c r)) as [s1 [err|resp]] eqn:HDo;
    simpl in Hrun.
  - now inversion Hrun.
  - assert (Hlearn : learn_token c resp = c).
    { unfold learn_token. now rewrite (Hnever _ _ _ _ HDo). }
    rewrite Hlearn in Hrun.
    destruct (RespBody resp) as [j|].
    + destruct (Errors (errResp (Decode j a))) as [|first rest].
      * now inversion Hrun.
      * destruct (_ && _); [now apply IH in Hrun|now inversion Hrun].
    + now inversion Hrun.
Qed.

(** X12.  Of the configuration it works on, [requestAPI] changes the
    token and nothing else; when no response brings a token, the
    configuration comes back as it was. *)
Theorem requestAPI_keeps_the_configuration {T} `{apiResponse T}
    (fuel : nat) (c : Config) (r : Request) (a : T) (w : World Service) :
  match fst (requestAPI fuel c r a w) with
  | Done (c', _, _) =>
      c' = set_Token c (Token c') /\ (never_brings_token Do -> c' = c)
  | _ => True
  end.
Proof.
  destruct (requestAPI fuel c r a w) as [res w'] eqn:Hrun.
  destruct res as [[[c' a'] out]| |]; simpl; try exact I.
  split.
  - exact (requestAPI_config_frame _ _ fuel c r a w c' a' out w' Hrun).
  - intros Hnever.
    exact (requestAPI_without_tokens fuel c r a w c' a' out w' Hnever Hrun).
Qed.

End Facts.

End AuthExtra.

(* ================================================================== *)
(** * More runs of the current client on stub services *)
(* ================================================================== *)

Module AuthExtraExamples.
Import GoLib Models Net Auth Props ExtraProps AuthExtra.

(** Witness of [requestAPI_returns_within_two_requests]: the login
    request against a stub that always rejects with the token T1. *)
Lemma requestAPI_returns_within_two_requests_witness :
  exists out w',
    requestAPI (Stub.constant (Stub.rejection "T1")) 2 (Stub.config "")
      (login_http_request (Stub.config "") Stub.alice_cred "pw")
      {| User := None; TwoStepVerificationData := None;
         loginErrors := noErrors |} Stub.start
    = (Done out, w') /\
    (length (sent Stub.start) + 1 <= length (sent w')
     <= length (sent Stub.start) + 2)%nat.
Proof.
  apply (requestAPI_returns_within_two_requests nat
           (Stub.constant (Stub.rejection "T1"))).
  - intros s r s' resp HDo _. inversion HDo; subst.
    unfold carries_token. simpl. discriminate.
  - lia.
Defined.




(** What [AddCookie] makes of that list: the semicolon is gone. *)
Lemma header_cookie_example :
  map header_cookie ExtraStub.session_and_theme
  = (ExtraStub.session ++ [Stub.cookie "theme" "darkwide"])%list.
Proof. reflexivity. Qed.


(** Witness of [Verify_after_Resend]: the resend brings the ticket T2. *)
Lemma Verify_after_Resend_witness :
  exists s',
    Resend (Stub.constant (Stub.ok Stub.resent_body)) Stub.any_url 1
      Stub.pending_step Stub.start
    = (Done (s', None),
       after_send Stub.start 1%nat (resend_http_request Stub.pending_step))
    /\
    exists r more,
      sent (snd (Verify (Stub.constant (Stub.ok Stub.resent_body))
                   Stub.any_url 1 s' "123456" true Stub.start))
        = (sent Stub.start ++ r :: more)%list /\
      URL r = DefaultVerifyEndpoint /\
      Body r =
        VerifyBody
          {| ticketRequest :=
               {| Username := "alice"; Ticket := "T2";
                  ActionType := "Login" |};
             VerifyCode := "123456"; RememberDevice := true |}.
Proof.
  apply (Verify_after_Resend nat (Stub.constant (Stub.ok Stub.resent_body))
           Stub.any_url Stub.pending_step "123456" true Stub.start Stub.start
           0 1%nat (Stub.ok Stub.resent_body) Stub.resent_body);
    try reflexivity.
  split; [simpl; lia|]. split; reflexivity.
Defined.

(** Witness of [Login_retry_returns_stale_errors]. *)
Lemma Login_retry_returns_stale_errors_witness :
  exists w',
    Login ExtraStub.rejected_then_accepted Stub.any_url Stub.sprintf 2
      (Stub.config "") "alice" "pw" Stub.start
    = (Done ([], None,
             Some (Wrapped "login" (APIErrors {| Errors := [Stub.code0] |}))),
       w').
Proof.
  eexists.
  apply (Login_retry_returns_stale_errors nat ExtraStub.rejected_then_accepted
           Stub.any_url Stub.sprintf (Stub.config "") "alice" "pw" Stub.start
           0 1%nat 2%nat (Stub.rejection "T1") (Stub.ok Stub.logged_in_body)
           (Stub.json (Some [Stub.code0])) Stub.logged_in_body
           Stub.code0 []);
    try reflexivity.
  simpl. lia.
Defined.


End AuthExtraExamples.

(* ================================================================== *)
(** * More facts about the cookie codec *)
(* ================================================================== *)

Module CookieExtra.
Import Models Cookies CookieProps CookieExtraProps CookieFacts.

Lemma write_fields_app (key : string) (a b : list string) :
  write_fields key (a ++ b)
  = (write_fields key a ++ write_fields key b)%string.
Proof.
  induction a as [|v a IH]; [reflexivity|].
  cbn [app write_fields]. now rewrite IH, app_assoc_s.
Qed.

Lemma wire_ok_Cookie_Strings (cs : list Cookie) :
  Forall wire_ok (map Cookie_String cs).
Proof.
  apply Forall_forall. intros w Hw. apply in_map_iff in Hw.
  destruct Hw as (c & <- & _). apply wire_ok_Cookie_String.
Qed.

(** The lines of a text that begins with fields of wire values. *)
Lemma lines_write_fields_then (ws : list string) (rest : string) :
  Forall wire_ok ws ->
  lines (write_fields "Set-Cookie" ws ++ rest)
  = (map cookie_line ws ++ lines rest)%list.
Proof.
  unfold lines. induction 1 as [|w ws Hw Hws IH]; [reflexivity|].
  change (write_fields "Set-Cookie" (w :: ws))
    with (write_field "Set-Cookie" w ++ write_fields "Set-Cookie" ws)%string.
  rewrite (wire_ok_write_field _ w Hw).
  replace ((("Set-Cookie" ++ ": " ++ w ++ String CR (String LF ""))
            ++ write_fields "Set-Cookie" ws) ++ rest)%string
    with (cookie_line w
          ++ String CR (String LF (write_fields "Set-Cookie" ws ++ rest)))%string.
  - rewrite lines_from_line.
    + cbn [map app]. now rewrite IH.
    + unfold cookie_line. rewrite all_bytes_app.
      now rewrite (wire_ok_no_LF w Hw).
  - unfold cookie_line. now rewrite !app_assoc_s.
Qed.

Lemma lines_CRLF (rest : string) : lines (CRLF ++ rest) = ""%string :: lines rest.
Proof. reflexivity. Qed.

(** The reader stops at an empty line. *)
Lemma read_fields_until_blank (ws : list string) (w0 : string)
    (more : list string) (m : MIMEHeader) :
  wire_ok w0 -> Forall wire_ok ws ->
  read_fields (Some (trim (cookie_line w0)))
    (map cookie_line ws ++ ""%string :: more) m
  = ((m ++ cookie_field w0 :: map cookie_field ws)%list, None).
Proof.
  intros Hw0 Hws. revert w0 m Hw0.
  induction Hws as [|w ws Hw Hws IH]; intros w0 m Hw0.
  - cbn [map app read_fields starts_blank is_empty].
    now rewrite add_field_cookie_line.
  - cbn [map app read_fields].
    change (starts_blank (cookie_line w)) with false.
    change (is_empty (cookie_line w)) with false. cbv iota.
    rewrite add_field_cookie_line by assumption.
    rewrite (IH w _ Hw). now rewrite <- app_assoc.
Qed.

Lemma starts_blank_write_fields (ws : list string) (rest : string) :
  starts_blank rest = false ->
  starts_blank (write_fields "Set-Cookie" ws ++ rest) = false.
Proof. intros H. destruct ws as [|w ws]; [exact H|reflexivity]. Qed.

Lemma ReadMIMEHeader_until_blank (ws : list string) (rest : string) :
  Forall wire_ok ws ->
  ReadMIMEHeader (write_fields "Set-Cookie" ws ++ CRLF ++ rest)
  = (map cookie_field ws, None).
Proof.
  intros Hws. unfold ReadMIMEHeader.
  rewrite starts_blank_write_fields by reflexivity.
  rewrite (lines_write_fields_then ws _ Hws), lines_CRLF.
  destruct Hws as [|w ws Hw Hws]; [reflexivity|].
  cbn [map app read_fields].
  change (is_empty (cookie_line w)) with false. cbv iota.
  now rewrite read_fields_until_blank.
Qed.

Lemma filter_bytes_fixed p (s : string) :
  filter_bytes p s = s -> all_bytes p s = true.
Proof. intros H. rewrite <- H. apply all_bytes_filter. Qed.

Lemma filter_length_le {A} (p : A -> bool) (l : list A) :
  (length (filter p l) <= length l)%nat.
Proof.
  induction l as [|x l IH]; simpl; [lia|]. destruct (p x); simpl; lia.
Qed.

Lemma sanitized_well_formed (cs : list Cookie) :
  Forall well_formed (map sanitized (filter valid_name cs)).
Proof.
  induction cs as [|c cs IH]; [constructor|].
  cbn [filter]. destruct (valid_name c) eqn:Hname; [|exact IH].
  cbn [map]. constructor; [|exact IH].
  split; [exact Hname|]. apply all_bytes_filter.
Qed.

Lemma exact_round_trip_well_formed (cs : list Cookie) :
  map sanitized (filter valid_name cs) = cs -> Forall well_formed cs.
Proof.
  induction cs as [|c cs IH]; [constructor|].
  cbn [filter]. destruct (valid_name c) eqn:Hname.
  - cbn [map]. intros H. injection H as Hc Hcs.
    constructor; [|now apply IH].
    split; [exact Hname|].
    apply filter_bytes_fixed. now rewrite <- Hc at 2.
  - intros H. apply (f_equal (@length Cookie)) in H.
    rewrite length_map in H. cbn [length] in H.
    pose proof (filter_length_le valid_name cs). lia.
Qed.

(** X13.  For every list of cookies, whatever their names and values,
    [WriteCookies] writes without an error and [ReadCookies] reads back,
    without an error, the cookies with a valid name, in their order, with
    the bytes that are not valid in a cookie value dropped.  What has been
    read back is well formed, and the codec gives it back as it is. *)
Theorem round_trip_of_any_cookies (cs : list Cookie) :
  snd (WriteCookies cs) = None /\
  ReadCookies (fst (WriteCookies cs))
  = (map sanitized (filter valid_name cs), None) /\
  Forall well_formed (read_back cs) /\
  ReadCookies (fst (WriteCookies (read_back cs))) = (read_back cs, None).
Proof.
  assert (Hback : read_back cs = map sanitized (filter valid_name cs)).
  { unfold read_back. now rewrite ReadCookies_WriteCookies. }
  split; [reflexivity|]. split; [apply ReadCookies_WriteCookies|].
  rewrite Hback. split; [apply sanitized_well_formed|].
  rewrite ReadCookies_WriteCookies.
  now rewrite (well_formed_round_trip _ (sanitized_well_formed cs)).
Qed.

(** X14.  The codec gives a list of cookies back exactly as it was written
    if and only if every cookie of the list has a valid name and a value of
    valid bytes only. *)
Theorem round_trip_is_exact_iff_well_formed (cs : list Cookie) :
  ReadCookies (fst (WriteCookies cs)) = (cs, None) <-> Forall well_formed cs.
Proof.
  rewrite ReadCookies_WriteCookies. split.
  - intros H. apply exact_round_trip_well_formed. congruence.
  - intros H. now rewrite (well_formed_round_trip cs H).
Qed.

(** X15.  [WriteCookies] ends its text with the last field, so the text of
    two calls on the same writer is the text of one call with the two
    lists one after the other, and [ReadCookies] reads the cookies of both
    calls from it. *)
Theorem WriteCookies_twice (a b : list Cookie) :
  (fst (WriteCookies a) ++ fst (WriteCookies b))%string
  = fst (WriteCookies (a ++ b)) /\
  fst (ReadCookies (fst (WriteCookies a) ++ fst (WriteCookies b)))
  = (read_back a ++ read_back b)%list.
Proof.
  assert (Htext : (fst (WriteCookies a) ++ fst (WriteCookies b))%string
                  = fst (WriteCookies (a ++ b))).
  { unfold WriteCookies. cbn [fst].
    now rewrite map_app, write_fields_app. }
  split; [exact Htext|].
  rewrite Htext. unfold read_back. rewrite !ReadCookies_WriteCookies.
  cbn [fst]. now rewrite filter_app, map_app.
Qed.

(** X16.  [ReadCookies] stops at the first empty line: when the text of
    [WriteCookies] is followed by an empty line, whatever comes after that
    line is not read, and cannot make the reading fail. *)
Theorem ReadCookies_stops_at_empty_line (cs : list Cookie) (rest : string) :
  ReadCookies (fst (WriteCookies cs) ++ CRLF ++ rest)
  = ReadCookies (fst (WriteCookies cs)).
Proof.
  rewrite ReadCookies_WriteCookies.
  unfold WriteCookies, ReadCookies. cbn [fst].
  rewrite (ReadMIMEHeader_until_blank _ rest (wire_ok_Cookie_Strings cs)).
  unfold readSetCookies. rewrite values_of_cookie_fields.
  now rewrite readSetCookies_lines_Cookie_String.
Qed.

(** X17.  The older [ReadCookies] returns no cookie, and no error, for
    every text that [WriteCookies] writes: the text has no empty line at
    its end, the header reader reports the end of the input, and the older
    copy returns on that report.  It reads the cookies once an empty line
    follows the text. *)
Theorem older_ReadCookies_reads_nothing_back (cs : list Cookie) :
  CookiesOld.ReadCookies (fst (CookiesOld.WriteCookies cs)) = ([], None) /\
  CookiesOld.ReadCookies (fst (WriteCookies cs)) = ([], None) /\
  CookiesOld.ReadCookies (fst (WriteCookies cs) ++ CRLF)
  = (read_back cs, None).
Proof.
  assert (Hold : CookiesOld.ReadCookies (fst (WriteCookies cs)) = ([], None)).
  { unfold CookiesOld.ReadCookies, WriteCookies. cbn [fst].
    now rewrite (ReadMIMEHeader_write_fields _ (wire_ok_Cookie_Strings cs)). }
  split; [exact Hold|]. split; [exact Hold|].
  unfold read_back. rewrite ReadCookies_WriteCookies. cbn [fst].
  unfold CookiesOld.ReadCookies, WriteCookies. cbn [fst].
  replace CRLF with (CRLF ++ "")%string by reflexivity.
  rewrite (ReadMIMEHeader_until_blank _ "" (wire_ok_Cookie_Strings cs)).
  unfold readSetCookies. rewrite values_of_cookie_fields.
  now rewrite readSetCookies_lines_Cookie_String.
Qed.

End CookieExtra.

(* ================================================================== *)
(** * Facts about the interactive prompt *)
(* ================================================================== *)

Module PromptFacts.
Import GoLib Models Net Net.Notations Auth Props ExtraProps Prompt PromptProps.

Section Facts.

Variable Service : Type.
Variable Do : Transport Service error.
Variable url_ok : string -> bool.
Variable Sprintf : string -> Z -> string.
Variable Lower : string -> string.
Variable Quote : string -> string.

Local Abbreviation ask_type := (Prompt.ask_type Lower Quote).
Local Abbreviation ask_remember := (Prompt.ask_remember Lower).
Local Abbreviation ask_code := (Prompt.ask_code Do url_ok).
Local Abbreviation second_step := (Prompt.second_step Do url_ok Lower).
Local Abbreviation PromptCred :=
  (Prompt.PromptCred Do url_ok Sprintf Lower Quote).
Local Abbreviation Prompt := (Prompt.Prompt Do url_ok Sprintf Lower Quote).
Local Abbreviation PromptID :=
  (Prompt.PromptID Do url_ok Sprintf Lower Quote).

(** ** Every error return *)

Lemma failed_prefixed (cred : Cred) (e : prompt_error) (t : Console)
    (w : World Service) :
  match fst (failed Service cred e t w) with
  | Done (_, cookies, Some e', _) => cookies = [] /\ prefixed "prompt" e'
  | _ => True
  end.
Proof. cbn. split; [reflexivity|]. now exists e. Qed.

Lemma second_step_errors turns fuel s cred step t (w : World Service) :
  match fst (second_step turns fuel s cred step t w) with
  | Done (_, cookies, Some e, _) => cookies = [] /\ prefixed "prompt" e
  | _ => True
  end.
Proof.
  unfold Prompt.second_step, bind.
  destruct (Prompt.ask_code _ _ _ _ _ _ _ w) as [[[[step' code] t']| |] w1];
    cbn [fst]; auto.
  destruct code as [code|e]; [|apply failed_prefixed].
  destruct (Prompt.ask_remember _ _ _ _) as [[[remember|e] t'']|];
    [| apply failed_prefixed | exact I].
  destruct (Verify _ _ _ _ _ _ w1) as [[[s' [cookies [e|]]]| |] w2];
    try exact I; apply failed_prefixed.
Qed.

Lemma PromptCred_errors turns fuel s cred (w : World Service) :
  match fst (PromptCred turns fuel s cred w) with
  | Done (_, cookies, Some e, _) => cookies = [] /\ prefixed "prompt" e
  | _ => True
  end.
Proof.
  unfold Prompt.PromptCred.
  destruct (StreamReader s) eqn:Hreader; [apply failed_prefixed| |].
  all: destruct (accepted_type (Type_ cred)); cbn [negb];
    [|apply failed_prefixed].
  all: destruct (Prompt.ask_type _ _ _ _ _ _) as [[[type|e] t1]|];
    [| apply failed_prefixed | exact I].
  all: destruct (ask_ident _ _ _ _ _) as [[[ident|e] t2]|];
    [| apply failed_prefixed | exact I].
  all: destruct (ask_password _ _) as [[password|e] t3];
    [|apply failed_prefixed].
  all: unfold bind;
    destruct (LoginCred _ _ _ _ _ _ _ w) as [[[[cookies step] [e|]]| |] w1];
    try exact I; [apply failed_prefixed|].
  all: destruct step as [step|]; [apply second_step_errors|exact I].
Qed.

(** X18.  On every path on which [PromptCred], [Prompt] or [PromptID]
    returns an error, the cookies returned are nil and the error is under
    the prefix "prompt", whatever the input and the service do. *)
Theorem prompt_errors_are_prefixed
    (turns fuel : nat) (s : Stream) (cred : Cred) (username : string)
    (userID : Z) (w : World Service) :
  match fst (PromptCred turns fuel s cred w) with
  | Done (_, cookies, Some e, _) => cookies = [] /\ prefixed "prompt" e
  | _ => True
  end /\
  match fst (Prompt turns fuel s username w) with
  | Done (_, cookies, Some e, _) => cookies = [] /\ prefixed "prompt" e
  | _ => True
  end /\
  match fst (PromptID turns fuel s userID w) with
  | Done (_, cookies, Some e, _) => cookies = [] /\ prefixed "prompt" e
  | _ => True
  end.
Proof.
  split; [apply PromptCred_errors|]. split; [apply PromptCred_errors|].
  unfold Prompt.PromptID.
  match goal with
  | |- context [if ?b then _ else _] => destruct b
  end.
  - cbn. split; [reflexivity|]. now exists MissingReader.
  - unfold bind.
    destruct (getUsername _ _ _ _ _ _ w) as [[[name [e|]]| |] w1];
      try exact I.
    + cbn. split; [reflexivity|]. now exists (ClientErr e).
    + apply PromptCred_errors.
Qed.

(** X19.  [PromptID] never logs in with a user ID below 1.  With a reader
    it returns the error of a missing reader at once, and sends and reads
    nothing; without a reader it looks the ID up and then fails. *)
Theorem PromptID_below_one_never_logs_in
    (turns fuel : nat) (s : Stream) (userID : Z) (w : World Service) :
  userID < 1 ->
  match fst (PromptID turns fuel s userID w) with
  | Done (_, _, None, _) => False
  | _ => True
  end /\
  (StreamReader s <> NoReader ->
   PromptID turns fuel s userID w
   = (Done ({| Type_ := ""; Ident := "" |}, [],
            Some (Prefixed "prompt" MissingReader), console_of s), w)).
Proof.
  intros Hid. apply Z.ltb_lt in Hid.
  unfold Prompt.PromptID. rewrite Hid.
  destruct (StreamReader s) eqn:Hreader.
  - split; [|congruence]. unfold bind.
    destruct (getUsername _ _ _ _ _ _ w) as [[[name [e|]]| |] w1];
      try exact I.
    unfold Prompt.PromptCred. rewrite Hreader. exact I.
  - split; [exact I|reflexivity].
  - split; [exact I|reflexivity].
Qed.

(** ** The end of the input *)

Lemma scanner_write s text t : scanner (write s text t) = scanner t.
Proof. unfold write. now destruct (StreamWriter s). Qed.

Lemma scan_ended (t : Console) :
  ended (scanner t) ->
  exists t', scan t = (inl ""%string, t') /\ ended (scanner t').
Proof.
  intros [Hlines Hend]. unfold scan.
  destruct (tokens (scanner t)) as [|line rest] eqn:Htokens.
  - rewrite Hend. exists t. split; [reflexivity|]. split; [|exact Hend].
    now rewrite Htokens.
  - inversion Hlines as [|? ? Hline Hrest]; subst.
    eexists. split; [reflexivity|]. split; [exact Hrest|exact Hend].
Qed.

Lemma ended_write s text t : ended (scanner t) -> ended (scanner (write s text t)).
Proof. now rewrite scanner_write. Qed.

Lemma ask_type_ended turns s type t :
  ended (scanner t) ->
  match ask_type turns s type t with
  | None => True
  | Some (inl _, t') => ended (scanner t')
  | Some (inr _, _) => False
  end.
Proof.
  revert type t. induction turns as [|turns IH]; intros type t Ht.
  - cbn. destruct (negb (type =? "")%string); [exact Ht|exact I].
  - cbn [Prompt.ask_type].
    destruct (negb (type =? "")%string); [exact Ht|].
    destruct (scan_ended _ (ended_write s
      "Enter credential type ((Username), Email, PhoneNumber): " t Ht))
      as (t' & -> & Ht').
    repeat match goal with
    | |- context [if ?b then _ else _] => destruct b
    end; apply IH; auto using ended_write.
Qed.

Lemma ask_ident_ended turns s type t :
  ended (scanner t) -> ask_ident turns s type "" t = None.
Proof.
  revert t. induction turns as [|turns IH]; intros t Ht; [reflexivity|].
  cbn [ask_ident String.eqb negb].
  destruct (scan_ended _ (ended_write s (ident_message type) t Ht))
    as (t' & -> & Ht').
  now apply IH.
Qed.

(** X20.  When the input is over before an identifier was given,
    [PromptCred] never returns: each [Scan] at the end of the input gives
    an empty line and no error, and the loop that asks for the identifier
    asks again.  No request is sent. *)
Theorem PromptCred_asks_forever_for_the_identifier
    (turns fuel : nat) (s : Stream) (cred : Cred) (w : World Service) :
  StreamReader s <> NoReader ->
  ended (input_of (StreamReader s)) ->
  accepted_type (Type_ cred) = true ->
  Ident cred = "" ->
  PromptCred turns fuel s cred w = (OutOfFuel, w).
Proof.
  intros Hreader Hended Haccepted Hident.
  assert (Hconsole : ended (scanner (console_of s))) by exact Hended.
  unfold Prompt.PromptCred. rewrite Haccepted. cbn [negb].
  pose proof (ask_type_ended turns s (Type_ cred) _ Hconsole) as Htype.
  destruct (StreamReader s) eqn:Hr; [congruence| |].
  all: destruct (Prompt.ask_type _ _ _ _ _ _) as [[[type|e] t1]|];
    [| contradiction | reflexivity].
  all: rewrite Hident, (ask_ident_ended turns s type t1 Htype); reflexivity.
Qed.

(** ** What the loops return *)

Lemma accepted_three (type : string) :
  accepted_type type = true -> type <> "" -> three_types type.
Proof.
  unfold accepted_type, one_of, three_types. cbn [existsb].
  rewrite !orb_true_iff, !String.eqb_eq.
  intros [H|[H|[H|[H|H]]]] Hne; auto; [congruence|discriminate].
Qed.

Lemma three_accepted (type : string) :
  three_types type -> accepted_type type = true /\ type <> "" /\
  (ToLower type =? "userid")%string = false.
Proof. intros [-> | [-> | ->]]; repeat split; discriminate. Qed.

Lemma type_of_answer_three (text : string) :
  type_of_answer text <> "" -> three_types (type_of_answer text).
Proof.
  unfold type_of_answer, three_types.
  repeat match goal with
  | |- context [if ?b then _ else _] => destruct b
  end; auto. congruence.
Qed.

Lemma ask_type_given turns s type t :
  type <> "" -> ask_type turns s type t = Some (inl type, t).
Proof.
  intros Hne. apply AuthFacts.eqb_empty_false in Hne.
  destruct turns; cbn [Prompt.ask_type]; now rewrite Hne.
Qed.

Lemma ask_ident_given turns s type ident t :
  ident <> "" -> ask_ident turns s type ident t = Some (inl ident, t).
Proof.
  intros Hne. apply AuthFacts.eqb_empty_false in Hne.
  destruct turns; cbn [ask_ident]; now rewrite Hne.
Qed.

Lemma ask_type_result turns s type t ty t' :
  ask_type turns s type t = Some (inl ty, t') ->
  (type <> "" /\ ty = type) \/ (type = "" /\ three_types ty).
Proof.
  revert type t. induction turns as [|turns IH]; intros type t;
    cbn [Prompt.ask_type]; destruct (type =? "")%string eqn:Htype;
    cbn [negb]; try discriminate.
  1, 3: intros H; injection H as <- _; left; split; [|reflexivity];
    now apply String.eqb_neq.
  apply String.eqb_eq in Htype. subst type.
  destruct (scan _) as [[text|e] t1]; [|discriminate].
  assert (Hconst : forall const, three_types const ->
            Prompt.ask_type Lower Quote turns s const t1 = Some (inl ty, t') ->
            ("" <> "" /\ ty = "") \/ ("" = "" /\ three_types ty)).
  { intros const Hconst H. right. split; [reflexivity|].
    destruct (IH _ _ H) as [[_ ->]|[-> _]]; [exact Hconst|].
    now destruct Hconst as [?|[?|?]]. }
  repeat match goal with
  | |- context [if ?b then _ else _] => destruct b
  end.
  - apply Hconst. now left.
  - apply Hconst. right. now left.
  - apply Hconst. right. now right.
  - intros H. destruct (IH _ _ H) as [[Hne _]|[_ Hty]]; [congruence|].
    right. now split.
Qed.

Lemma ask_ident_result turns s type ident t id t' :
  ask_ident turns s type ident t = Some (inl id, t') ->
  id <> "" /\ (ident <> "" -> id = ident).
Proof.
  revert ident t. induction turns as [|turns IH]; intros ident t;
    cbn [ask_ident]; destruct (ident =? "")%string eqn:Hident;
    cbn [negb]; try discriminate.
  1, 3: intros H; injection H as <- _; apply String.eqb_neq in Hident;
    now split.
  apply String.eqb_eq in Hident. subst ident.
  destruct (scan _) as [[text|e] t1]; [|discriminate].
  intros H. destruct (IH _ _ H) as [Hne _]. split; [exact Hne|congruence].
Qed.

(** ** What is sent *)

Lemma LoginCred_logged_in fuel c cred password (w : World Service)
    cookies step w1 :
  three_types (Type_ cred) ->
  LoginCred Do url_ok Sprintf fuel c cred password w
  = (Done (cookies, step, None), w1) ->
  exists more,
    sent w1
    = (sent w ++ with_token c (login_http_request c cred password) :: more)%list.
Proof.
  intros Htype. destruct (three_accepted _ Htype) as (_ & _ & Hkind).
  rewrite (AuthFacts.LoginCred_not_userid _ _ _ _ _ _ _ _ Hkind).
  unfold bind.
  destruct (login_request Do url_ok fuel c cred password w)
    as [[[[cs st] err]| |] w'] eqn:Hlogin; try discriminate.
  cbn. intros H. injection H as _ _ Herr <-.
  destruct err; [discriminate|].
  destruct (url_ok (or_default (LoginEndpoint c) DefaultLoginEndpoint))
    eqn:Hurl.
  - destruct fuel as [|fuel].
    + unfold login_request, NewRequest in Hlogin. rewrite Hurl in Hlogin.
      discriminate.
    + exact (AuthFacts.login_request_first_request _ _ _ _ _ _ _ _ _ _
               Hurl Hlogin).
  - unfold login_request, NewRequest in Hlogin. rewrite Hurl in Hlogin.
    discriminate.
Qed.

Lemma Resend_appends fuel step (w : World Service) res w' :
  Resend Do url_ok fuel step w = (res, w') ->
  exists more, sent w' = (sent w ++ more)%list.
Proof.
  unfold Resend, NewRequest. destruct (url_ok _).
  - unfold bind.
    destruct (requestAPI _ _ _ _ _ w) as [r w1] eqn:Hreq.
    apply AuthExtra.requestAPI_requests in Hreq. destruct Hreq as (more & Hmore & _).
    destruct r as [[[c a] [resp [e|]]]| |]; cbn; intros H; injection H as _ <-;
      eauto.
  - cbn. intros H. injection H as _ <-. exists []. now rewrite app_nil_r.
Qed.

Lemma Verify_appends fuel step code remember (w : World Service) res w' :
  Verify Do url_ok fuel step code remember w = (res, w') ->
  exists more, sent w' = (sent w ++ more)%list.
Proof.
  unfold Verify, NewRequest. destruct (url_ok _).
  - unfold bind.
    destruct (requestAPI _ _ _ _ _ w) as [r w1] eqn:Hreq.
    apply AuthExtra.requestAPI_requests in Hreq. destruct Hreq as (more & Hmore & _).
    destruct r as [[[c a] [[resp|] [e|]]]| |]; cbn; intros H;
      injection H as _ <-; eauto.
  - cbn. intros H. injection H as _ <-. exists []. now rewrite app_nil_r.
Qed.

Lemma ask_code_appends turns fuel s step t (w : World Service) res w' :
  ask_code turns fuel s step t w = (res, w') ->
  exists more, sent w' = (sent w ++ more)%list.
Proof.
  revert step t w. induction turns as [|turns IH]; intros step t w.
  - cbn. intros H. injection H as _ <-. exists []. now rewrite app_nil_r.
  - cbn [Prompt.ask_code].
    destruct (scan _) as [[code|e] t1].
    + destruct (negb (code =? "")%string).
      * cbn. intros H. injection H as _ <-. exists []. now rewrite app_nil_r.
      * unfold bind.
        destruct (Resend _ _ _ _ w) as [r w1] eqn:Hresend.
        apply Resend_appends in Hresend. destruct Hresend as (m1 & Hm1).
        destruct r as [[step1 [e|]]| |].
        -- cbn. intros H. injection H as _ <-. eauto.
        -- intros H. apply IH in H. destruct H as (m2 & Hm2).
           exists (m1 ++ m2)%list. now rewrite Hm2, Hm1, app_assoc.
        -- intros H. injection H as _ <-. eauto.
        -- intros H. injection H as _ <-. eauto.
    + cbn. intros H. injection H as _ <-. exists []. now rewrite app_nil_r.
Qed.

Lemma second_step_success turns fuel s cred step t (w : World Service)
    credout cookies t' w' :
  second_step turns fuel s cred step t w
  = (Done (credout, cookies, None, t'), w') ->
  credout = cred /\ exists more, sent w' = (sent w ++ more)%list.
Proof.
  unfold Prompt.second_step, bind.
  destruct (Prompt.ask_code _ _ _ _ _ _ _ w) as [[[[step' code] t1]| |] w1]
    eqn:Hcode; try discriminate.
  destruct code as [code|e]; [|discriminate].
  destruct (Prompt.ask_remember _ _ _ _) as [[[remember|e] t2]|];
    try discriminate.
  destruct (Verify _ _ _ _ _ _ w1) as [[[s' [cs [e|]]]| |] w2] eqn:Hverify;
    try discriminate.
  cbn. intros H. injection H as <- _ _ <-. split; [reflexivity|].
  apply ask_code_appends in Hcode. destruct Hcode as (m1 & Hm1).
  apply Verify_appends in Hverify. destruct Hverify as (m2 & Hm2).
  exists (m1 ++ m2)%list. now rewrite Hm2, Hm1, app_assoc.
Qed.

Lemma PromptCred_success turns fuel s cred (w : World Service)
    credout cookies t' w' :
  PromptCred turns fuel s cred w = (Done (credout, cookies, None, t'), w') ->
  three_types (Type_ credout) /\ Ident credout <> "" /\
  (Type_ cred <> "" -> Type_ credout = Type_ cred) /\
  (Ident cred <> "" -> Ident credout = Ident cred) /\
  exists password more,
    sent w'
    = (sent w
       ++ with_token (StreamConfig s)
            (login_http_request (StreamConfig s) credout password)
       :: more)%list.
Proof.
  unfold Prompt.PromptCred.
  destruct (StreamReader s) eqn:Hreader; [discriminate| |].
  all: destruct (accepted_type (Type_ cred)) eqn:Haccepted; cbn [negb];
    [|discriminate].
  all: destruct (Prompt.ask_type _ _ _ _ _ _) as [[[type|e] t1]|] eqn:Htype;
    try discriminate.
  all: destruct (ask_ident _ _ _ _ _) as [[[ident|e] t2]|] eqn:Hident;
    try discriminate.
  all: destruct (ask_password _ _) as [[password|e] t3]; [|discriminate].
  all: unfold bind;
    destruct (LoginCred _ _ _ _ _ _ _ w) as [[[[cs step] [e|]]| |] w1]
      eqn:Hlogin; try discriminate.
  all: assert (Hthree : three_types type)
    by (destruct (ask_type_result _ _ _ _ _ _ Htype) as [[Hne ->]|[_ H]];
        [now apply accepted_three|exact H]).
  all: assert (Hgiven : Type_ cred <> "" -> type = Type_ cred)
    by (destruct (ask_type_result _ _ _ _ _ _ Htype) as [[_ ->]|[-> _]];
        congruence).
  all: destruct (ask_ident_result _ _ _ _ _ _ _ Hident) as [Hne Hsame].
  all: destruct (LoginCred_logged_in _ _ {| Type_ := type; Ident := ident |}
                   _ _ _ _ _ Hthree Hlogin)
    as (m1 & Hm1).
  all: destruct step as [step|].
  1, 3: intros H; destruct (second_step_success _ _ _ _ _ _ _ _ _ _ _ H)
    as (-> & m2 & Hm2); cbn [Type_ Ident]; repeat split; auto;
    exists password, (m1 ++ m2)%list; rewrite Hm2, Hm1, <- app_assoc;
    reflexivity.
  all: cbn; intros H; injection H as <- _ _ <-; cbn [Type_ Ident];
    repeat split; auto; exists password, m1; exact Hm1.
Qed.

(** X21.  Whenever [PromptCred] returns without an error, the credential
    it returns has one of the types Username, Email and PhoneNumber and an
    identifier that is not empty, it keeps the type and the identifier the
    caller gave, and the first request sent is the login request for that
    very credential: the prompt never looks a user ID up. *)
Theorem PromptCred_logs_in_as_it_returns
    (turns fuel : nat) (s : Stream) (cred : Cred) (w : World Service) :
  match PromptCred turns fuel s cred w with
  | (Done (credout, _, None, _), w') =>
      three_types (Type_ credout) /\ Ident credout <> "" /\
      (Type_ cred <> "" -> Type_ credout = Type_ cred) /\
      (Ident cred <> "" -> Ident credout = Ident cred) /\
      exists password more,
        sent w'
        = (sent w
           ++ with_token (StreamConfig s)
                (login_http_request (StreamConfig s) credout password)
           :: more)%list
  | _ => True
  end.
Proof.
  destruct (PromptCred turns fuel s cred w)
    as [[[[[credout cookies] [e|]] t']| |] w'] eqn:Hrun; try exact I.
  exact (PromptCred_success _ _ _ _ _ _ _ _ _ Hrun).
Qed.

(** ** Lines as they are read *)

Lemma scan_write_line s text t line rest :
  tokens (scanner t) = line :: rest ->
  exists t',
    scan (write s text t) = (inl line, t') /\
    tokens (scanner t') = rest /\ ending (scanner t') = ending (scanner t).
Proof.
  intros Htokens. unfold scan. rewrite scanner_write, Htokens.
  eexists. split; [reflexivity|]. split; reflexivity.
Qed.

Lemma scan_line t line rest :
  tokens (scanner t) = line :: rest ->
  exists t',
    scan t = (inl line, t') /\
    tokens (scanner t') = rest /\ ending (scanner t') = ending (scanner t).
Proof.
  intros Htokens. unfold scan. rewrite Htokens.
  eexists. split; [reflexivity|]. split; reflexivity.
Qed.

Lemma ask_type_answer noise : forall turns s t answer rest,
  tokens (scanner t) = (noise ++ answer :: rest)%list ->
  Forall (fun line => type_of_answer (Lower line) = "") noise ->
  type_of_answer (Lower answer) <> "" ->
  (length noise < turns)%nat ->
  exists t',
    ask_type turns s "" t = Some (inl (type_of_answer (Lower answer)), t') /\
    tokens (scanner t') = rest /\ ending (scanner t') = ending (scanner t).
Proof.
  induction noise as [|line noise IH]; intros turns s t answer rest
    Htokens Hnoise Hanswer Hturns;
    (destruct turns as [|turns]; [cbn in Hturns; lia|]);
    cbn [app] in Htokens; cbn [Prompt.ask_type String.eqb negb].
  - destruct (scan_write_line s
      "Enter credential type ((Username), Email, PhoneNumber): " t _ _ Htokens)
      as (t1 & -> & Hrest & Hend).
    exists t1. split; [|now split].
    revert Hanswer. unfold type_of_answer.
    repeat match goal with
    | |- context [if ?b then _ else _] => destruct b
    end; intros Hanswer; try (now apply ask_type_given); congruence.
  - destruct (scan_write_line s
      "Enter credential type ((Username), Email, PhoneNumber): " t _ _ Htokens)
      as (t1 & -> & Hrest & Hend).
    inversion Hnoise as [|? ? Hline Hnoise']; subst.
    revert Hline. unfold type_of_answer at 1.
    repeat match goal with
    | |- context [if ?b then _ else _] => destruct b
    end; try discriminate. intros _.
    destruct (IH turns s
      (write s ("Unknown credential type " ++ Quote (Lower line) ++ newline) t1)
      answer rest) as (t' & Hrun & Hrest' & Hend'); auto.
    + now rewrite scanner_write.
    + cbn in Hturns. lia.
    + exists t'. split; [exact Hrun|]. split; [exact Hrest'|].
      now rewrite Hend', scanner_write.
Qed.

Lemma ask_ident_empties m : forall turns s type t ident rest,
  tokens (scanner t) = (repeat ""%string m ++ ident :: rest)%list ->
  ident <> "" -> (m < turns)%nat ->
  exists t',
    ask_ident turns s type "" t = Some (inl ident, t') /\
    tokens (scanner t') = rest /\ ending (scanner t') = ending (scanner t).
Proof.
  induction m as [|m IH]; intros turns s type t ident rest
    Htokens Hident Hturns;
    (destruct turns as [|turns]; [lia|]);
    cbn [repeat app] in Htokens; cbn [ask_ident String.eqb negb];
    destruct (scan_write_line s (ident_message type) t _ _ Htokens)
      as (t1 & -> & Hrest & Hend).
  - exists t1. split; [now apply ask_ident_given|now split].
  - destruct (IH turns s type t1 ident rest Hrest Hident) as (t' & Hrun & Hrest' & Hend');
      [lia|].
    exists t'. split; [exact Hrun|]. split; [exact Hrest'|congruence].
Qed.

Lemma ask_remember_answer noise : forall turns s t answer rest remember,
  tokens (scanner t) = (noise ++ answer :: rest)%list ->
  Forall (fun line => remember_of_answer (Lower line) = None) noise ->
  remember_of_answer (Lower answer) = Some remember ->
  (length noise < turns)%nat ->
  exists t',
    ask_remember turns s t = Some (inl remember, t') /\
    tokens (scanner t') = rest.
Proof.
  induction noise as [|line noise IH]; intros turns s t answer rest remember
    Htokens Hnoise Hanswer Hturns;
    (destruct turns as [|turns]; [cbn in Hturns; lia|]);
    cbn [app] in Htokens; cbn [Prompt.ask_remember];
    destruct (scan_write_line s "Remember device? ((no), yes): " t _ _ Htokens)
      as (t1 & -> & Hrest & Hend).
  - exists t1. split; [|exact Hrest].
    revert Hanswer. unfold remember_of_answer.
    repeat match goal with
    | |- context [if ?b then _ else _] => destruct b
    end; congruence.
  - inversion Hnoise as [|? ? Hline Hnoise']; subst.
    revert Hline. unfold remember_of_answer at 1.
    repeat match goal with
    | |- context [if ?b then _ else _] => destruct b
    end; try discriminate. intros _.
    apply (IH turns s t1 answer rest remember); auto.
    cbn in Hturns. lia.
Qed.

(** X22.  [PromptCred] logs in with what was typed.  Called without a
    credential on an input that holds an answer to the question for the
    type (after any number of answers that are not known), an identifier
    (after any number of empty lines) and a password, it sends the login
    request for that type, identifier and password, and when the response
    reports success without asking for a code it returns that credential
    and the cookies of the response, having read no line after the
    password. *)
Theorem PromptCred_logs_in_with_what_was_typed
    (turns fuel : nat) (s : Stream) (w : World Service)
    (noise : list string) (answer : string) (m : nat)
    (ident password : string) (rest : list string) (ending : option io_error)
    (s' : Service) (resp : Response) (j : JSON) :
  let cred := {| Type_ := type_of_answer (Lower answer); Ident := ident |} in
  let r := with_token (StreamConfig s)
             (login_http_request (StreamConfig s) cred password) in
  StreamReader s
  = typed (noise ++ answer :: repeat ""%string m ++ ident :: password :: rest)
      ending ->
  Forall (fun line => type_of_answer (Lower line) = "") noise ->
  type_of_answer (Lower answer) <> "" ->
  ident <> "" ->
  (length noise < turns)%nat -> (m < turns)%nat ->
  url_ok (or_default (LoginEndpoint (StreamConfig s)) DefaultLoginEndpoint)
  = true ->
  Do (service w) r = (s', inr resp) ->
  success resp j ->
  or_keep (j_twoStepVerificationData j) None = None ->
  exists t',
    PromptCred turns (S fuel) s {| Type_ := ""; Ident := "" |} w
    = (Done (cred, RespCookies resp, None, t'), after_send w s' r) /\
    lines_left t' = rest.
Proof.
  intros cred r Hreader Hnoise Hanswer Hident Hturns Hm Hurl HDo Hsuccess
    Hdata.
  subst cred r. unfold typed in Hreader.
  unfold Prompt.PromptCred. rewrite Hreader.
  cbn [accepted_type one_of existsb String.eqb orb negb Type_ Ident].
  destruct (ask_type_answer noise turns s (console_of s) answer
              (repeat ""%string m ++ ident :: password :: rest)%list)
    as (t1 & -> & Ht1 & _); auto.
  { unfold console_of. now rewrite Hreader. }
  destruct (ask_ident_empties m turns s (type_of_answer (Lower answer)) t1
              ident (password :: rest) Ht1 Hident Hm)
    as (t2 & -> & Ht2 & _).
  unfold ask_password. rewrite Hreader.
  destruct (scan_write_line s ("Enter password for " ++ ident ++ ": ") t2 _ _ Ht2)
    as (t3 & -> & Ht3 & _).
  unfold bind.
  destruct (three_accepted _ (type_of_answer_three _ Hanswer))
    as (_ & _ & Hkind).
  rewrite (AuthFacts.LoginCred_success _ Do url_ok Sprintf (StreamConfig s)
             {| Type_ := type_of_answer (Lower answer); Ident := ident |}
             password w fuel s' resp j Hkind Hurl HDo Hsuccess).
  rewrite Hdata. exists t3. split; [reflexivity|exact Ht3].
Qed.

(** ** A service that accepts every request and asks for a code *)

Section Accepting.

Hypothesis Haccepts : always_answers Do asks_for_code.
Hypothesis Hurls : forall url, url_ok url = true.

Lemma requestAPI_accepted {T} `{apiResponse T}
    fuel c r (a : T) (w : World Service) :
  Errors (errResp a) = [] ->
  exists s' resp j,
    success resp j /\ asks_for_code resp /\
    requestAPI Do (S fuel) c r a w
    = (Done (learn_token c resp, Decode j a, (Some resp, None)),
       after_send w s' (with_token c r)).
Proof.
  intros Ha.
  destruct (Haccepts (service w) (with_token c r))
    as (s' & resp & HDo & Hasks).
  pose proof Hasks as (j & u & data & Hsuccess & _).
  exists s', resp, j. split; [exact Hsuccess|]. split; [exact Hasks|].
  destruct Hsuccess as (Hcode & Hbody & Herrors).
  assert (Hrun := AuthFacts.requestAPI_no_errors _ Do fuel c r a w s' resp j
                    HDo Hbody).
  rewrite Hrun.
  - now rewrite (AuthFacts.ifStatus_2XX _ None Hcode).
  - rewrite Decode_errResp, Ha. exact Herrors.
Qed.

Lemma LoginCred_accepted fuel c cred password (w : World Service) :
  three_types (Type_ cred) ->
  exists cookies step s',
    LoginCred Do url_ok Sprintf (S fuel) c cred password w
    = (Done (cookies, Some step, None),
       after_send w s' (with_token c (login_http_request c cred password))).
Proof.
  intros Htype. destruct (three_accepted _ Htype) as (_ & _ & Hkind).
  destruct (Haccepts (service w)
              (with_token c (login_http_request c cred password)))
    as (s' & resp & HDo & j & u & data & Hsuccess & Hu & Hdata).
  rewrite (AuthFacts.LoginCred_success _ Do url_ok Sprintf c cred password w
             fuel s' resp j Hkind (Hurls _) HDo Hsuccess).
  rewrite Hu, Hdata. cbn [or_keep]. do 3 eexists. reflexivity.
Qed.

Lemma Resend_accepted fuel step (w : World Service) :
  exists step' s',
    Resend Do url_ok (S fuel) step w
    = (Done (step', None),
       after_send w s' (with_token (cfg step) (resend_http_request step))).
Proof.
  rewrite (AuthFacts.Resend_eq _ Do url_ok _ _ (Hurls _)). unfold bind.
  pose proof (requestAPI_accepted fuel (cfg step) (resend_http_request step)
                {| resendSent := {| SentMediaType := ""; SentTicket := "" |};
                   resendErrors := noErrors |} w) as Hrun.
  destruct (Hrun eq_refl) as (s' & resp & j & _ & _ & ->).
  cbn. do 2 eexists. reflexivity.
Qed.

Lemma Verify_accepted fuel step code remember (w : World Service) :
  exists step' cookies s',
    Verify Do url_ok (S fuel) step code remember w
    = (Done (step', (cookies, None)),
       after_send w s'
         (with_token (cfg step) (verify_http_request step code remember))).
Proof.
  rewrite (AuthFacts.Verify_eq _ Do url_ok _ _ _ _ (Hurls _)). unfold bind.
  pose proof (requestAPI_accepted fuel (cfg step)
                (verify_http_request step code remember) noErrors w) as Hrun.
  destruct (Hrun eq_refl) as (s' & resp & j & _ & _ & ->).
  cbn. do 3 eexists. reflexivity.
Qed.

Lemma ask_code_ended turns : forall fuel s step t (w : World Service),
  ended (scanner t) ->
  exists w' resends,
    ask_code turns (S fuel) s step t w = (OutOfFuel, w') /\
    sent w' = (sent w ++ resends)%list /\ length resends = turns /\
    Forall (fun r => exists ticket, Body r = TicketBody ticket) resends.
Proof.
  induction turns as [|turns IH]; intros fuel s step t w Ht.
  - exists w, []. split; [reflexivity|]. split; [now rewrite app_nil_r|].
    split; [reflexivity|constructor].
  - cbn [Prompt.ask_code].
    destruct (scan_ended _ (ended_write s
                "Enter code (leave empty to resend): " t Ht))
      as (t1 & -> & Ht1).
    cbn [String.eqb negb]. unfold bind.
    destruct (Resend_accepted fuel step w) as (step' & s' & ->).
    destruct (IH fuel s step'
                (write s ("Resent verification code via "
                          ++ MediaType step' ++ newline) t1)
                (after_send w s'
                   (with_token (cfg step) (resend_http_request step))))
      as (w' & resends & Hrun & Hsent & Hlen & Hall);
      [now apply ended_write|].
    exists w',
      (with_token (cfg step) (resend_http_request step) :: resends).
    split; [exact Hrun|].
    split; [rewrite Hsent; cbn [after_send sent]; now rewrite <- app_assoc|].
    split; [cbn; now rewrite Hlen|].
    constructor; [|exact Hall].
    exists (ticketRequest (req step)). now rewrite AuthFacts.Body_with_token.
Qed.

Lemma ask_code_empties k : forall turns fuel s step t (w : World Service)
    code more,
  tokens (scanner t) = (repeat ""%string k ++ code :: more)%list ->
  code <> "" -> (k < turns)%nat ->
  exists step' t' w' resends,
    ask_code turns (S fuel) s step t w = (Done (step', inl code, t'), w') /\
    tokens (scanner t') = more /\
    sent w' = (sent w ++ resends)%list /\ length resends = k /\
    Forall (fun r => exists ticket, Body r = TicketBody ticket) resends.
Proof.
  induction k as [|k IH]; intros turns fuel s step t w code more
    Htokens Hcode Hturns;
    (destruct turns as [|turns]; [lia|]);
    cbn [repeat app] in Htokens; cbn [Prompt.ask_code];
    destruct (scan_write_line s "Enter code (leave empty to resend): " t _ _
                Htokens) as (t1 & -> & Hrest & _).
  - rewrite (AuthFacts.eqb_empty_false _ Hcode). cbn [negb].
    exists step, t1, w, []. split; [reflexivity|]. split; [exact Hrest|].
    split; [now rewrite app_nil_r|]. split; [reflexivity|constructor].
  - cbn [String.eqb negb]. unfold bind.
    destruct (Resend_accepted fuel step w) as (step1 & s' & ->).
    destruct (IH turns fuel s step1
                (write s ("Resent verification code via "
                          ++ MediaType step1 ++ newline) t1)
                (after_send w s'
                   (with_token (cfg step) (resend_http_request step)))
                code more)
      as (step' & t' & w' & resends & Hrun & Hmore & Hsent & Hlen & Hall);
      [now rewrite scanner_write | exact Hcode | lia |].
    exists step', t', w',
      (with_token (cfg step) (resend_http_request step) :: resends).
    split; [exact Hrun|]. split; [exact Hmore|].
    split; [rewrite Hsent; cbn [after_send sent]; now rewrite <- app_assoc|].
    split; [cbn; now rewrite Hlen|].
    constructor; [|exact Hall].
    exists (ticketRequest (req step)). now rewrite AuthFacts.Body_with_token.
Qed.

(** X23.  When the input is over after the password and the service
    accepts every request and asks for a code, [PromptCred] never returns:
    at the end of the input each round of the loop that asks for the code
    reads an empty line, which sends the code again.  The requests sent
    are the login request for the credential and one resend request for
    every round. *)
Theorem PromptCred_resends_forever_at_the_end_of_input
    (turns fuel : nat) (s : Stream) (cred : Cred) (w : World Service) :
  ended_after_password (StreamReader s) ->
  three_types (Type_ cred) -> Ident cred <> "" ->
  exists w' login resends password,
    PromptCred turns (S fuel) s cred w = (OutOfFuel, w') /\
    sent w' = (sent w ++ login :: resends)%list /\
    Body login = login_payload cred password /\
    length resends = turns /\
    Forall (fun r => exists ticket, Body r = TicketBody ticket) resends.
Proof.
  intros Hreader Htype Hident.
  destruct (three_accepted _ Htype) as (Haccepted & Hne & _).
  unfold Prompt.PromptCred. rewrite Haccepted. cbn [negb].
  rewrite (ask_type_given turns s _ (console_of s) Hne).
  rewrite (ask_ident_given turns s _ _ (console_of s) Hident).
  assert (Hpassword : exists password t,
            ask_password s (write s ("Enter password for " ++ Ident cred ++ ": ")
                              (console_of s)) = (inl password, t) /\
            ended (scanner t)).
  { unfold ask_password, console_of.
    destruct (StreamReader s) as [|input [password|e]|input];
      cbn [ended_after_password] in Hreader; try contradiction.
    - exists password. eexists. split; [reflexivity|].
      cbn [write_stdout scanner]. now rewrite scanner_write.
    - destruct Hreader as [Hlines Hend]. unfold scan. rewrite scanner_write.
      cbn [scanner input_of].
      destruct (tokens input) as [|line lines] eqn:Htokens.
      + rewrite Hend. exists ""%string. eexists. split; [reflexivity|].
        rewrite scanner_write. cbn [scanner]. split; [|exact Hend].
        now rewrite Htokens.
      + exists line. eexists. split; [reflexivity|].
        cbn [scanner tokens Prompt.ending]. split; [exact Hlines|exact Hend]. }
  destruct Hpassword as (password & t & Hpassword & Ht).
  assert (Hrun : exists w' login resends password,
            (let '(password, t) :=
               ask_password s
                 (write s ("Enter password for " ++ Ident cred ++ ": ")
                    (console_of s)) in
             match password with
             | inr e =>
                 failed Service {| Type_ := Type_ cred; Ident := Ident cred |}
                   (InputErr e) t
             | inl password =>
                 '(cookies, step, err) <-
                   LoginCred Do url_ok Sprintf (S fuel) (StreamConfig s)
                     {| Type_ := Type_ cred; Ident := Ident cred |} password ;;
                 match err with
                 | Some e =>
                     failed Service
                       {| Type_ := Type_ cred; Ident := Ident cred |}
                       (ClientErr e) t
                 | None =>
                     match step with
                     | Some step =>
                         second_step turns (S fuel) s
                           {| Type_ := Type_ cred; Ident := Ident cred |}
                           step t
                     | None =>
                         ret ({| Type_ := Type_ cred; Ident := Ident cred |},
                              cookies, None, t)
                     end
                 end
             end) w = (OutOfFuel, w') /\
            sent w' = (sent w ++ login :: resends)%list /\
            Body login = login_payload cred password /\
            length resends = turns /\
            Forall (fun r => exists ticket, Body r = TicketBody ticket)
              resends).
  { rewrite Hpassword. unfold bind.
    destruct (LoginCred_accepted fuel (StreamConfig s)
                {| Type_ := Type_ cred; Ident := Ident cred |} password w Htype)
      as (cookies & step & s' & ->).
    unfold Prompt.second_step, bind.
    destruct (ask_code_ended turns fuel s step
                (write s ("Two-step verification code sent via "
                          ++ MediaType step ++ newline) t)
                (after_send w s'
                   (with_token (StreamConfig s)
                      (login_http_request (StreamConfig s)
                         {| Type_ := Type_ cred; Ident := Ident cred |}
                         password))))
      as (w' & resends & -> & Hsent & Hlen & Hall);
      [now apply ended_write|].
    exists w'. eexists. exists resends, password.
    split; [reflexivity|].
    split; [rewrite Hsent; cbn [after_send sent];
            rewrite <- app_assoc; reflexivity|].
    split; [now rewrite AuthFacts.Body_with_token|].
    split; [exact Hlen|exact Hall]. }
  destruct (StreamReader s); [contradiction|exact Hrun|exact Hrun].
Qed.

(** X24.  Every empty line at the question for the code sends the code
    again, once.  With a complete credential and an input that holds the
    password, [k] empty lines, a code, and an answer to the question about
    the device (after any number of answers that are asked again),
    [PromptCred] sends the login request, [k] resend requests and one
    verify request that carries the code and the answer, and returns the
    credential without an error, having read no line after the answer. *)
Theorem PromptCred_resends_once_for_each_empty_line
    (turns fuel : nat) (s : Stream) (cred : Cred) (w : World Service)
    (password : string) (k : nat) (code : string) (noise : list string)
    (answer : string) (remember : bool) (rest : list string)
    (ending : option io_error) :
  StreamReader s
  = typed (password :: repeat ""%string k ++ code :: noise ++ answer :: rest)
      ending ->
  three_types (Type_ cred) -> Ident cred <> "" ->
  code <> "" ->
  Forall (fun line => remember_of_answer (Lower line) = None) noise ->
  remember_of_answer (Lower answer) = Some remember ->
  (k < turns)%nat -> (length noise < turns)%nat ->
  exists cookies t' w' login resends verify ticket,
    PromptCred turns (S fuel) s cred w = (Done (cred, cookies, None, t'), w') /\
    lines_left t' = rest /\
    sent w' = (sent w ++ login :: resends ++ [verify])%list /\
    Body login = login_payload cred password /\
    length resends = k /\
    Forall (fun r => exists ticket, Body r = TicketBody ticket) resends /\
    Body verify
    = VerifyBody {| ticketRequest := ticket; VerifyCode := code;
                    RememberDevice := remember |}.
Proof.
  intros Hreader Htype Hident Hcode Hnoise Hanswer Hk Hturns.
  destruct (three_accepted _ Htype) as (Haccepted & Hne & _).
  unfold typed in Hreader.
  unfold Prompt.PromptCred. rewrite Hreader.
  rewrite Haccepted. cbn [negb].
  rewrite (ask_type_given turns s _ (console_of s) Hne).
  rewrite (ask_ident_given turns s _ _ (console_of s) Hident).
  unfold ask_password. rewrite Hreader.
  destruct (scan_write_line s ("Enter password for " ++ Ident cred ++ ": ")
              (console_of s) password
              (repeat ""%string k ++ code :: noise ++ answer :: rest)%list)
    as (t1 & -> & Ht1 & _).
  { unfold console_of. now rewrite Hreader. }
  replace {| Type_ := Type_ cred; Ident := Ident cred |} with cred
    by now destruct cred.
  unfold bind.
  destruct (LoginCred_accepted fuel (StreamConfig s) cred password w Htype)
    as (cookies & step & s1 & ->).
  unfold Prompt.second_step, bind.
  destruct (ask_code_empties k turns fuel s step
              (write s ("Two-step verification code sent via "
                        ++ MediaType step ++ newline) t1)
              (after_send w s1
                 (with_token (StreamConfig s)
                    (login_http_request (StreamConfig s) cred password)))
              code (noise ++ answer :: rest)%list)
    as (step' & t2 & w2 & resends & -> & Ht2 & Hsent & Hlen & Hall);
    [now rewrite scanner_write | exact Hcode | exact Hk |].
  destruct (ask_remember_answer noise turns s t2 answer rest remember
              Ht2 Hnoise Hanswer Hturns) as (t3 & -> & Ht3).
  destruct (Verify_accepted fuel step' code remember w2)
    as (step'' & cookies' & s3 & ->).
  exists cookies', t3. eexists. eexists. exists resends. eexists.
  exists (ticketRequest (req step')).
  split; [reflexivity|]. split; [exact Ht3|].
  split; [|split; [|split; [exact Hlen|split; [exact Hall|]]]].
  - cbn [after_send sent]. rewrite Hsent. cbn [after_send sent].
    rewrite <- !app_assoc. reflexivity.
  - now rewrite AuthFacts.Body_with_token.
  - now rewrite AuthFacts.Body_with_token.
Qed.

End Accepting.

End Facts.
End PromptFacts.

(* ================================================================== *)
(** * Runs of the prompt on stub services *)
(* ================================================================== *)

Module PromptExamples.
Import GoLib Models Net Auth Props Prompt PromptProps PromptStub PromptFacts.

Lemma asking_asks_for_code : always_answers asking asks_for_code.
Proof.
  intros s r. exists (S s), (Stub.ok Stub.two_step_body).
  split; [reflexivity|].
  exists Stub.two_step_body, Stub.alice,
    {| SentMediaType := "Email"; SentTicket := "TICKET1" |}.
  split; [|split; reflexivity].
  split; [simpl; lia|]. split; reflexivity.
Qed.

(** Witness of [PromptID_below_one_never_logs_in]: the ID 0 on a stream
    that has a reader. *)
Lemma PromptID_below_one_never_logs_in_witness :
  PromptID asking Stub.any_url Stub.sprintf ToLower quote 3 1
    (stream ["alice"; "hunter2"]) 0 Stub.start
  = (Done ({| Type_ := ""; Ident := "" |}, [],
           Some (Prefixed "prompt" MissingReader),
           console_of (stream ["alice"; "hunter2"])), Stub.start).
Proof.
  apply (PromptID_below_one_never_logs_in nat asking Stub.any_url Stub.sprintf
           ToLower quote 3 1 (stream ["alice"; "hunter2"]) 0 Stub.start).
  - lia.
  - discriminate.
Defined.

(** Witness of [PromptCred_asks_forever_for_the_identifier]: an empty
    input, a credential with a type only. *)
Lemma PromptCred_asks_forever_for_the_identifier_witness :
  PromptCred asking Stub.any_url Stub.sprintf ToLower quote 7 1
    (stream []) {| Type_ := "Email"; Ident := "" |} Stub.start
  = (OutOfFuel, Stub.start).
Proof.
  apply (PromptCred_asks_forever_for_the_identifier nat asking Stub.any_url
           Stub.sprintf ToLower quote 7 1 (stream [])
           {| Type_ := "Email"; Ident := "" |} Stub.start).
  - discriminate.
  - split; [constructor|reflexivity].
  - reflexivity.
  - reflexivity.
Defined.

(** Witness of [PromptCred_logs_in_with_what_was_typed]: an answer that is
    not known, the answer E, an empty line, the address and the
    password. *)
Lemma PromptCred_logs_in_with_what_was_typed_witness :
  exists t',
    PromptCred welcoming Stub.any_url Stub.sprintf ToLower quote 2 1
      (stream ["mail"; "E"; ""; "alice@example.com"; "hunter2"; "left"])
      {| Type_ := ""; Ident := "" |} Stub.start
    = (Done ({| Type_ := "Email"; Ident := "alice@example.com" |},
             [Stub.cookie ".ROBLOSECURITY" "session"], None, t'),
       after_send Stub.start 1%nat
         (login_http_request (Stub.config "")
            {| Type_ := "Email"; Ident := "alice@example.com" |} "hunter2"))
    /\ lines_left t' = ["left"].
Proof.
  apply (PromptCred_logs_in_with_what_was_typed nat welcoming Stub.any_url
           Stub.sprintf ToLower quote 2 0
           (stream ["mail"; "E"; ""; "alice@example.com"; "hunter2"; "left"])
           Stub.start ["mail"] "E" 1 "alice@example.com" "hunter2" ["left"]
           None 1%nat (Stub.ok Stub.logged_in_body) Stub.logged_in_body).
  - reflexivity.
  - repeat constructor.
  - discriminate.
  - discriminate.
  - simpl. lia.
  - lia.
  - reflexivity.
  - reflexivity.
  - split; [simpl; lia|]. split; reflexivity.
  - reflexivity.
Defined.

(** Witness of [PromptCred_resends_forever_at_the_end_of_input]: the
    input holds the password and nothing else. *)
Lemma PromptCred_resends_forever_at_the_end_of_input_witness :
  exists w' login resends password,
    PromptCred asking Stub.any_url Stub.sprintf ToLower quote 5 1
      (stream ["hunter2"]) Stub.alice_cred Stub.start
    = (OutOfFuel, w') /\
    sent w' = (sent Stub.start ++ login :: resends)%list /\
    Body login = login_payload Stub.alice_cred password /\
    length resends = 5%nat /\
    Forall (fun r => exists ticket, Body r = TicketBody ticket) resends.
Proof.
  apply (PromptCred_resends_forever_at_the_end_of_input nat asking
           Stub.any_url Stub.sprintf ToLower quote asking_asks_for_code
           (fun _ => eq_refl) 5 0 (stream ["hunter2"]) Stub.alice_cred
           Stub.start).
  - split; [constructor|reflexivity].
  - left. reflexivity.
  - discriminate.
Defined.

(** Witness of [PromptCred_resends_once_for_each_empty_line]: two empty
    lines, the code, an answer that is asked again and the answer YES. *)
Lemma PromptCred_resends_once_for_each_empty_line_witness :
  exists cookies t' w' login resends verify ticket,
    PromptCred asking Stub.any_url Stub.sprintf ToLower quote 3 1
      (stream ["hunter2"; ""; ""; "123456"; "maybe"; "YES"; "left"])
      Stub.alice_cred Stub.start
    = (Done (Stub.alice_cred, cookies, None, t'), w') /\
    lines_left t' = ["left"] /\
    sent w' = (sent Stub.start ++ login :: resends ++ [verify])%list /\
    Body login = login_payload Stub.alice_cred "hunter2" /\
    length resends = 2%nat /\
    Forall (fun r => exists ticket, Body r = TicketBody ticket) resends /\
    Body verify
    = VerifyBody {| ticketRequest := ticket; VerifyCode := "123456";
                    RememberDevice := true |}.
Proof.
  apply (PromptCred_resends_once_for_each_empty_line nat asking
           Stub.any_url Stub.sprintf ToLower quote asking_asks_for_code
           (fun _ => eq_refl) 3 0
           (stream ["hunter2"; ""; ""; "123456"; "maybe"; "YES"; "left"])
           Stub.alice_cred Stub.start "hunter2" 2 "123456" ["maybe"] "YES"
           true ["left"] None).
  - reflexivity.
  - left. reflexivity.
  - discriminate.
  - discriminate.
  - repeat constructor.
  - reflexivity.
  - lia.
  - simpl. lia.
Defined.

End PromptExamples.

(* ================================================================== *)
(** * More facts about the older copies of the client *)
(* ================================================================== *)

Module LegacyExtra.
Import GoLib Models Net Net.Notations LegacyProps.

Section Facts.

Variable Service : Type.
Variable Do : Transport Service LegacyA.error.
Variable url_ok : string -> bool.
Variable FormatInt : Z -> string.

Hypothesis Hplain : plain_transport Do.

Lemma send_for_errors_result (r : Request) (w : World Service) :
  exists resp err w',
    LegacyA.send_for_errors Do r w = (Done (resp, err), w') /\
    (err = None -> resp <> None) /\
    forall e, err = Some e -> ~ reports_the_API e.
Proof.
  unfold LegacyA.send_for_errors, bind, client_Do.
  destruct (Do (service w) r) as [s' [e|resp]] eqn:HDo.
  - destruct (Hplain _ _ _ _ HDo) as (reason & ->).
    do 3 eexists. split; [reflexivity|]. split; [discriminate|].
    intros e He. injection He as <-. exact (fun H => H).
  - cbn. destruct (RespBody resp) as [j|].
    + cbn. rewrite LegacyFacts.status_rejected_never.
      do 3 eexists. split; [reflexivity|]. split; discriminate.
    + do 3 eexists. split; [reflexivity|]. split; [discriminate|].
      intros e He. injection He as <-. exact (fun H => H).
Qed.

Lemma LegacyA_LoginCred_result cfg credType value password (w : World Service) :
  exists cookies err w',
    LegacyA.LoginCred Do url_ok cfg credType value password w
    = (Done (cookies, None, err), w') /\
    forall e, err = Some e -> ~ reports_the_API e.
Proof.
  unfold LegacyA.LoginCred, LegacyA.NewRequest.
  destruct (url_ok _).
  - unfold bind, client_Do.
    match goal with
    | |- context [Do (service w) ?r] =>
        destruct (Do (service w) r) as [s' [e|resp]] eqn:HDo
    end.
    + destruct (Hplain _ _ _ _ HDo) as (reason & ->).
      do 3 eexists. split; [reflexivity|].
      intros e He. injection He as <-. exact (fun H => H).
    + cbn. destruct (RespBody resp) as [j|].
      * cbn. rewrite LegacyFacts.status_rejected_never.
        do 3 eexists. split; [reflexivity|]. discriminate.
      * do 3 eexists. split; [reflexivity|].
        intros e He. injection He as <-. exact (fun H => H).
  - do 3 eexists. split; [reflexivity|].
    intros e He. injection He as <-. exact (fun H => H).
Qed.

(** X25.  The older copies of the client never ask for a verification
    code and never tell what the API answered.  The fields that hold the
    errors, the user and the second step of a response are not exported,
    the decoder leaves them as they are, and the test of the status never
    fires: with a transport that fails with transport errors only,
    [LoginCred] of both copies returns without a [Step], and neither it
    nor [Logout], [Step.Verify] or [Step.Resend] returns the errors of the
    API or a status error.  None of them panics. *)
Theorem older_copies_never_ask_for_a_code
    (cfg : LegacyA.Config) (s : LegacyA.Step) (cred : Cred)
    (credType value password code : string) (remember : bool)
    (cookies : list Cookie) (w : World Service) :
  (exists cookies' err w',
      LegacyA.LoginCred Do url_ok cfg credType value password w
      = (Done (cookies', None, err), w') /\
      forall e, err = Some e -> ~ reports_the_API e)
  /\
  (exists cookies' err w',
      LegacyB.LoginCred Do url_ok FormatInt cfg cred password w
      = (Done (cookies', None, err), w') /\
      forall e, err = Some e -> ~ reports_the_API e)
  /\
  (exists err w',
      LegacyA.Logout Do url_ok cfg cookies w = (Done err, w') /\
      forall e, err = Some e -> ~ reports_the_API e)
  /\
  (exists cookies' err w',
      LegacyA.Verify Do url_ok s code remember w = (Done (cookies', err), w') /\
      forall e, err = Some e -> ~ reports_the_API e)
  /\
  (exists err w',
      LegacyA.Resend Do url_ok s w = (Done err, w') /\
      forall e, err = Some e -> ~ reports_the_API e).
Proof.
  split; [apply LegacyA_LoginCred_result|].
  split.
  { rewrite LegacyFacts.LegacyB_LoginCred_never_resolves.
    apply LegacyA_LoginCred_result. }
  split.
  { unfold LegacyA.Logout, LegacyA.NewRequest. destruct (url_ok _).
    - unfold bind.
      match goal with
      | |- context [LegacyA.send_for_errors Do ?r w] =>
          destruct (send_for_errors_result r w)
            as (resp & err & w' & -> & _ & Herr)
      end.
      cbn. do 2 eexists. split; [reflexivity|exact Herr].
    - do 2 eexists. split; [reflexivity|].
      intros e He. injection He as <-. exact (fun H => H). }
  split.
  { unfold LegacyA.Verify, LegacyA.NewRequest. destruct (url_ok _).
    - unfold bind.
      match goal with
      | |- context [LegacyA.send_for_errors Do ?r w] =>
          destruct (send_for_errors_result r w)
            as (resp & err & w' & -> & Hresp & Herr)
      end.
      destruct err as [e|].
      + cbn. do 3 eexists. split; [reflexivity|]. exact Herr.
      + destruct resp as [resp|]; [|now elim (Hresp eq_refl)].
        cbn. do 3 eexists. split; [reflexivity|]. discriminate.
    - do 3 eexists. split; [reflexivity|].
      intros e He. injection He as <-. exact (fun H => H). }
  unfold LegacyA.Resend, LegacyA.NewRequest. destruct (url_ok _).
  - unfold bind.
    match goal with
    | |- context [LegacyA.send_for_errors Do ?r w] =>
        destruct (send_for_errors_result r w)
          as (resp & err & w' & -> & _ & Herr)
    end.
    cbn. do 2 eexists. split; [reflexivity|exact Herr].
  - do 2 eexists. split; [reflexivity|].
    intros e He. injection He as <-. exact (fun H => H).
Qed.

End Facts.

(** ** The first client *)

Section ClientFacts.

Variable Jar : Type.
Variable New : Jar.
Variable Cookies : Jar -> string -> string -> list Cookie.
Variable Remote : Type.
Variable Do :
  option Jar -> Remote -> LegacyClient.Request ->
  option Jar * Remote * (string + LegacyClient.Response).
Variable URL_String : string -> string -> string.
Variable url_ok : string -> bool.

Local Abbreviation Login :=
  (LegacyClient.Login New Cookies Do URL_String url_ok).
Local Abbreviation Logout := (LegacyClient.Logout Do URL_String url_ok).

(** The test of [assertStatus] asks for a status below 200 and at least
    300 at once. *)
Lemma assertStatus_same (res : LegacyClient.error + LegacyClient.Response) :
  LegacyClient.assertStatus res = res.
Proof.
  destruct res as [err|resp]; [reflexivity|].
  unfold LegacyClient.assertStatus.
  destruct (LegacyClient.StatusCode resp <? 200) eqn:E1; [|reflexivity].
  destruct (LegacyClient.StatusCode resp >=? 300) eqn:E2; [|reflexivity].
  apply Z.ltb_lt in E1. rewrite Z.geb_le in E2. lia.
Qed.

Lemma client_Do_error req (c : LegacyClient.Client Jar Remote) e c' :
  LegacyClient.client_Do Do req c = (inl e, c') ->
  exists reason, e = LegacyClient.TransportErr reason.
Proof.
  unfold LegacyClient.client_Do.
  destruct (Do _ _ req) as [[jar site] [reason|resp]]; intros H;
    injection H as H _; [|discriminate].
  exists reason. congruence.
Qed.

(** X26.  The first client never returns an [ErrStatus]: [assertStatus]
    lets every status through.  [Logout] returns an error only when the
    transport fails, and [Login] judges a response by its body alone. *)
Theorem first_client_never_reports_a_status
    (host username password : string) (c : LegacyClient.Client Jar Remote) :
  match fst (Logout host c) with
  | Done (Some e) => exists reason, e = LegacyClient.TransportErr reason
  | _ => True
  end /\
  match fst (Login host username password c) with
  | Done (Some (LegacyClient.ErrStatus _)) => False
  | _ => True
  end.
Proof.
  split.
  - unfold LegacyClient.Logout.
    destruct (negb (url_ok _)); [exact I|].
    destruct (LegacyClient.client_Do Do _ c) as [[e|resp] c'] eqn:HDo;
      rewrite assertStatus_same; [|exact I].
    exact (client_Do_error _ _ _ _ HDo).
  - unfold LegacyClient.Login.
    destruct (existsb _ _); [exact I|].
    destruct (negb (url_ok _)); [exact I|].
    match goal with
    | |- context [LegacyClient.client_Do Do ?r ?c0] =>
        destruct (LegacyClient.client_Do Do r c0) as [[e|resp] c'] eqn:HDo
    end; rewrite assertStatus_same.
    + destruct (client_Do_error _ _ _ _ HDo) as (reason & ->). exact I.
    + destruct (LegacyClient.RespBody resp) as [d|]; [|exact I].
      destruct (negb _); exact I.
Qed.

(** X27.  [Login] of the first client looks into the jar before it sends
    anything: when the jar holds a cookie named .ROBLOSECURITY for the
    login URL, it returns [ErrLoggedIn], and the client and the website
    are as they were. *)
Theorem first_client_refuses_a_second_login
    (host username password : string) (c : LegacyClient.Client Jar Remote)
    (jar : Jar) (cookie : Cookie) :
  LegacyClient.ClientJar c = Some jar ->
  In cookie
    (Cookies jar (if String.eqb host "" then LegacyClient.defaultHost else host)
       LegacyClient.loginPath) ->
  CookieName cookie = ".ROBLOSECURITY" ->
  Login host username password c = (Done (Some LegacyClient.ErrLoggedIn), c).
Proof.
  intros Hjar Hin Hname. unfold LegacyClient.Login. rewrite Hjar.
  assert (Hfound :
    existsb (fun cookie => String.eqb (CookieName cookie) ".ROBLOSECURITY")
      (Cookies jar
         (if String.eqb host "" then LegacyClient.defaultHost else host)
         LegacyClient.loginPath) = true).
  { apply existsb_exists. exists cookie. split; [exact Hin|].
    now apply String.eqb_eq. }
  rewrite Hfound. destruct c as [j r s]. cbn in Hjar. subst j. reflexivity.
Qed.

End ClientFacts.

End LegacyExtra.

(** Runs of the older copies. *)
Module LegacyExtraExamples.
Import GoLib Models Net LegacyProps LegacyExtra.

(** Witness of [older_copies_never_ask_for_a_code]: the service asks for
    a verification code, and the older [LoginCred] returns the cookies of
    the response as those of a session. *)
Lemma older_copies_never_ask_for_a_code_witness :
  exists cookies' err w',
    LegacyA.LoginCred (Stub.constant (Stub.ok Stub.two_step_body))
      Stub.any_url {| LegacyA.Host := "" |} "Username" "alice" "pw" Stub.start
    = (Done (cookies', None, err), w') /\
    forall e, err = Some e -> ~ reports_the_API e.
Proof.
  apply (older_copies_never_ask_for_a_code nat
           (Stub.constant (Stub.ok Stub.two_step_body)) Stub.any_url
           Stub.show_id (fun s r s' e H => ltac:(discriminate H))
           {| LegacyA.Host := "" |}
           {| LegacyA.cfg := {| LegacyA.Host := "" |};
              LegacyA.req :=
                {| LegacyA.resend :=
                     {| LegacyA.username := "alice"; LegacyA.ticket := "T";
                        LegacyA.actionType := "Login" |};
                   LegacyA.code := ""; LegacyA.rememberDevice := false |};
              LegacyA.MediaType := "Email" |}
           Stub.alice_cred "Username" "alice" "pw" "123456" true []
           Stub.start).
Defined.

(** Witness of [first_client_refuses_a_second_login]: the jar holds the
    cookie of a session. *)
Lemma first_client_refuses_a_second_login_witness :
  LegacyClient.Login [] list_jar_cookies
    (answering {| LegacyClient.StatusCode := 200;
                  LegacyClient.RespBody := None |})
    https Stub.any_url "" "alice" "pw"
    {| LegacyClient.ClientJar := Some [Stub.cookie ".ROBLOSECURITY" "session"];
       LegacyClient.remote := 0%nat; LegacyClient.sent := [] |}
  = (Done (Some LegacyClient.ErrLoggedIn),
     {| LegacyClient.ClientJar := Some [Stub.cookie ".ROBLOSECURITY" "session"];
        LegacyClient.remote := 0%nat; LegacyClient.sent := [] |}).
Proof.
  apply (first_client_refuses_a_second_login (list Cookie) []
           list_jar_cookies nat
           (answering {| LegacyClient.StatusCode := 200;
                         LegacyClient.RespBody := None |})
           https Stub.any_url "" "alice" "pw"
           {| LegacyClient.ClientJar :=
                Some [Stub.cookie ".ROBLOSECURITY" "session"];
              LegacyClient.remote := 0%nat; LegacyClient.sent := [] |}
           [Stub.cookie ".ROBLOSECURITY" "session"]
           (Stub.cookie ".ROBLOSECURITY" "session")).
  - reflexivity.
  - left. reflexivity.
  - reflexivity.
Defined.

End LegacyExtraExamples.
